(** * The Phabricator backend of Perceval

    A shallow embedding of [src/perceval/backends/phabricator.py]: the
    Conduit client ([ConduitClient]), the backend ([Phabricator]) and the
    three generators they are made of ([ConduitClient.tasks],
    [Phabricator.__fetch_tasks], [Phabricator.fetch]).

    - Values decoded from JSON are the inductive type [json]; a Python
      [dict] is an association list in insertion order.  Numbers are the
      integers: a response with a fractional number is outside the model.
      A [string] is a sequence of characters, one [ascii] each.
    - Every method that touches the instance or the network is a function
      in the monad [M] of state and exceptions over [world]: the instance
      attributes together with the log of the HTTP requests issued so far.
    - A generator is its suspension state and a [next] function; nothing
      runs until [next] is called, as in Python.
    - The remote server is an arbitrary function [server] of the request
      history and the request; [json.loads], [datetime_to_utc] and the
      other library functions the module imports are the fields of
      [runtime]. *)

From Stdlib Require Import List String Ascii ZArith Bool Lia DecimalString.
Import ListNotations.
Local Open Scope string_scope.
Local Open Scope list_scope.
Set Warnings "-register-all".

(** ** Python values decoded from JSON *)

Inductive json : Type :=
| JNull : json
| JBool : bool -> json
| JInt : Z -> json
| JStr : string -> json
| JArr : list json -> json
| JObj : list (string * json) -> json.

Definition dict : Type := list (string * json).

(** The exceptions the module can raise, its own ([ConduitError]) and
    those of the interpreter and of [requests]. *)
Inductive exn : Type :=
| KeyError (key : string)
| TypeError
| AttributeError
| IndexError
| ValueError
| ConnectionError
| HTTPError (status : Z)
| ConduitError (error code : json).

Inductive result (A : Type) : Type :=
| Ok (a : A)
| Raise (e : exn).
Arguments Ok {A} a.
Arguments Raise {A} e.

Definition rbind {A B : Type} (r : result A) (k : A -> result B) : result B :=
  match r with
  | Ok a => k a
  | Raise e => Raise e
  end.

Declare Scope result_scope.
Delimit Scope result_scope with result.
Notation "x <- c ;; k" := (rbind c (fun x => k))
  (at level 61, c at next level, right associativity) : result_scope.

(** *** Dictionaries with string keys *)

Fixpoint dict_get (d : dict) (k : string) : option json :=
  match d with
  | [] => None
  | (k', v) :: d' => if String.eqb k' k then Some v else dict_get d' k
  end.

(** [d[k] = v]: an existing key keeps its place, a new one goes last. *)
Fixpoint dict_set (d : dict) (k : string) (v : json) : dict :=
  match d with
  | [] => [(k, v)]
  | (k', v') :: d' =>
      if String.eqb k' k then (k', v) :: d' else (k', v') :: dict_set d' k v
  end.

Definition dict_keys (d : dict) : list string := map fst d.
Definition dict_values (d : dict) : list json := map snd d.

(** *** The operations of the interpreter the module relies on *)

(** [v[k]] for a string [k]. *)
Definition getitem (v : json) (k : string) : result json :=
  match v with
  | JObj d =>
      match dict_get d k with
      | Some x => Ok x
      | None => Raise (KeyError k)
      end
  | _ => Raise TypeError
  end.

(** [v[k] = x] for a string [k]; the result is [v] after the assignment. *)
Definition setitem (v : json) (k : string) (x : json) : result json :=
  match v with
  | JObj d => Ok (JObj (dict_set d k x))
  | _ => Raise TypeError
  end.

Fixpoint chars (s : string) : list json :=
  match s with
  | EmptyString => []
  | String c s' => JStr (String c EmptyString) :: chars s'
  end.

(** [for x in v]: the elements of a list, the keys of a dict, the
    characters of a string. *)
Definition iter (v : json) : result (list json) :=
  match v with
  | JArr l => Ok l
  | JObj d => Ok (map JStr (dict_keys d))
  | JStr s => Ok (chars s)
  | _ => Raise TypeError
  end.

(** [v.values()]. *)
Definition values (v : json) : result (list json) :=
  match v with
  | JObj d => Ok (dict_values d)
  | _ => Raise AttributeError
  end.

(** Truth value of [v], as [if v] and [not v] test it. *)
Definition truthy (v : json) : bool :=
  match v with
  | JNull => false
  | JBool b => b
  | JInt n => negb (n =? 0)%Z
  | JStr s => negb (String.eqb s "")
  | JArr l => match l with [] => false | _ => true end
  | JObj d => match d with [] => false | _ => true end
  end.

(** Keys of the dict [_users]: the hashable values, up to Python's [==]
    ([True == 1] and [False == 0]). *)
Inductive hkey : Type :=
| KNone
| KNum (n : Z)
| KStr (s : string).

Definition hkey_eqb (a b : hkey) : bool :=
  match a, b with
  | KNone, KNone => true
  | KNum n, KNum m => (n =? m)%Z
  | KStr s, KStr t => String.eqb s t
  | _, _ => false
  end.

(** Hashing [v], a [TypeError] for a list or a dict. *)
Definition hash_key (v : json) : result hkey :=
  match v with
  | JNull => Ok KNone
  | JBool b => Ok (KNum (if b then 1 else 0))
  | JInt n => Ok (KNum n)
  | JStr s => Ok (KStr s)
  | JArr _ | JObj _ => Raise TypeError
  end.

Definition users_dict : Type := list (hkey * json).

Fixpoint users_get (d : users_dict) (k : hkey) : option json :=
  match d with
  | [] => None
  | (k', v) :: d' => if hkey_eqb k' k then Some v else users_get d' k
  end.

Fixpoint users_set (d : users_dict) (k : hkey) (v : json) : users_dict :=
  match d with
  | [] => [(k, v)]
  | (k', v') :: d' =>
      if hkey_eqb k' k then (k', v) :: d' else (k', v') :: users_set d' k v
  end.

(** [base_url.rstrip('/')]. *)
Fixpoint rstrip_slash (s : string) : string :=
  match s with
  | EmptyString => EmptyString
  | String c s' =>
      match rstrip_slash s' with
      | EmptyString =>
          if Ascii.eqb c "/" then EmptyString else String c EmptyString
      | r => String c r
      end
  end.

(** ** The world: the instance and the network *)

(** What [requests.post(url, data=data, verify=False)] sends: [req_params]
    is the dict that [json.dumps] serialises into the form field
    ['params']; the two other fields of [data] are constants. *)
Record request : Type := mk_request {
  req_url : string;
  req_params : dict;
  req_output : string;
  req_conduit : bool
}.

(** The outcome of one HTTP exchange. *)
Inductive reply : Type :=
| NoReply
| Reply (status : Z) (text : string).

Record conduit_client : Type := mk_client {
  base_url : string;
  api_token : string
}.

(** The attributes of a [Phabricator] instance.  [cache_queue] and [cache]
    are inherited from [Backend]: the queue of raw responses and what has
    been stored from it, one batch per flush. *)
Record backend : Type := mk_backend {
  origin : string;
  url : string;
  client : conduit_client;
  _users : users_dict;
  cache_queue : list string;
  cache : list (list string)
}.

Record world : Type := mk_world {
  self : backend;
  net_log : list request
}.

Definition set_users (f : users_dict -> users_dict) (w : world) : world :=
  let b := self w in
  mk_world (mk_backend (origin b) (url b) (client b) (f (_users b))
                       (cache_queue b) (cache b))
           (net_log w).

Definition set_cache_queue (q : list string) (w : world) : world :=
  let b := self w in
  mk_world (mk_backend (origin b) (url b) (client b) (_users b) q (cache b))
           (net_log w).

Definition set_cache (c : list (list string)) (w : world) : world :=
  let b := self w in
  mk_world (mk_backend (origin b) (url b) (client b) (_users b)
                       (cache_queue b) c)
           (net_log w).

Definition log_request (r : request) (w : world) : world :=
  mk_world (self w) (net_log w ++ [r]).

(** ** The monad of the methods *)

Definition M (A : Type) : Type := world -> world * result A.

Definition ret {A : Type} (a : A) : M A := fun w => (w, Ok a).

Definition raise {A : Type} (e : exn) : M A := fun w => (w, Raise e).

Definition bind {A B : Type} (m : M A) (k : A -> M B) : M B :=
  fun w =>
    match m w with
    | (w', Ok a) => k a w'
    | (w', Raise e) => (w', Raise e)
    end.

Definition lift {A : Type} (r : result A) : M A := fun w => (w, r).

Definition gets {A : Type} (f : world -> A) : M A := fun w => (w, Ok (f w)).

Definition modify (f : world -> world) : M unit := fun w => (f w, Ok tt).

Declare Scope monad_scope.
Delimit Scope monad_scope with monad.
Notation "x <- c ;; k" := (bind c (fun x => k))
  (at level 61, c at next level, right associativity) : monad_scope.
Notation "' pat <- c ;; k" := (bind c (fun x => match x with pat => k end))
  (at level 61, pat pattern, c at next level, right associativity)
  : monad_scope.
Notation "c ;; k" := (bind c (fun _ => k))
  (at level 61, right associativity) : monad_scope.

(** [[f(x) for x in l]], left to right, stopping at the first exception. *)
Fixpoint mapM {A B : Type} (f : A -> M B) (l : list A) : M (list B) :=
  match l with
  | [] => ret []
  | x :: l' =>
      (y <- f x ;;
       ys <- mapM f l' ;;
       ret (y :: ys))%monad
  end.

(** What a call of [next] on a generator gives its caller. *)
Inductive signal (A : Type) : Type :=
| Yield (a : A)
| StopIteration
| Raised (e : exn).
Arguments Yield {A} a.
Arguments StopIteration {A}.
Arguments Raised {A} e.

(** ** The library functions the module imports *)

Record runtime : Type := mk_runtime {
  (** [datetime.datetime] *)
  datetime : Type;
  (** [perceval.utils.datetime_to_utc] *)
  datetime_to_utc : datetime -> datetime;
  (** [int(d.timestamp())] *)
  timestamp : datetime -> Z;
  (** [json.loads], and [Response.json] of [requests] *)
  json_loads : string -> option json;
  (** [str] of a list or of a dict *)
  repr : json -> string
}.

(** [str(v)]. *)
Definition str (R : runtime) (v : json) : string :=
  match v with
  | JNull => "None"
  | JBool true => "True"
  | JBool false => "False"
  | JInt n => NilZero.string_of_int (Z.to_int n)
  | JStr s => s
  | JArr _ | JObj _ => repr R v
  end.

Definition loads (R : runtime) (raw : string) : result json :=
  match json_loads R raw with
  | Some j => Ok j
  | None => Raise ValueError
  end.

Fixpoint rmap {A B : Type} (f : A -> result B) (l : list A) : result (list B) :=
  match l with
  | [] => Ok []
  | x :: l' =>
      (y <- f x ;;
       ys <- rmap f l' ;;
       Ok (y :: ys))%result
  end.

(** ** [requests] *)

Section Requests.

Variable server : list request -> request -> reply.

(** [requests.post(url, data=data, verify=False)]: the request is logged,
    the server answers from the requests it has seen before and this one.
    Every call is taken to send its request: a URL that [requests] refuses
    to prepare, for which it raises before anything is sent, is outside the
    model. *)
Definition post (url : string) (params : dict) : M (Z * string) :=
  fun w =>
    let req := mk_request url params "json" true in
    match server (net_log w) req with
    | NoReply => (log_request req w, Raise ConnectionError)
    | Reply status text => (log_request req w, Ok (status, text))
    end.

(** [Response.raise_for_status]: a 4xx or 5xx status is an [HTTPError]. *)
Definition raise_for_status (status : Z) : result unit :=
  if ((400 <=? status) && (status <? 600))%Z
  then Raise (HTTPError status)
  else Ok tt.

End Requests.

(** ** class ConduitClient *)

Module ConduitClient.

Definition MANIPHEST_TASKS : string := "maniphest.search".
Definition MANIPHEST_TRANSACTIONS : string := "maniphest.gettasktransactions".
Definition PHAB_USERS : string := "user.query".

Definition PAFTER : string := "after".
Definition PCONSTRAINTS : string := "constraints".
Definition PHIDS : string := "phids".
Definition PIDS : string := "ids".
Definition PORDER : string := "order".
Definition PMODIFIED_START : string := "modifiedStart".

Definition VOUTDATED : string := "outdated".

(** ['%(base)s/api/%(method)s'] *)
Definition URL (base method : string) : string :=
  (base ++ "/api/" ++ method)%string.

Definition __init__ (base_url api_token : string) : conduit_client :=
  mk_client (rstrip_slash base_url) api_token.

Section Methods.

Variable R : runtime.
Variable server : list request -> request -> reply.

(** [_call] assigns ['__conduit__'] in the caller's [params]; the dict
    after the assignment is returned with the text of the response. *)
Definition _call (self : conduit_client) (method : string) (params : dict)
  : M (dict * string) :=
  (let url := URL (base_url self) method in
   let params :=
     dict_set params "__conduit__" (JObj [("token", JStr (api_token self))]) in
   ' (status, text) <- post server url params ;;
   _ <- lift (raise_for_status status) ;;
   result <- lift (loads R text) ;;
   error_code <- lift (getitem result "error_code") ;;
   if truthy error_code then
     error <- lift (getitem result "error_info") ;;
     code <- lift (getitem result "error_code") ;;
     raise (ConduitError error code)
   else
     ret (params, text))%monad.

(** The generator [tasks]: not started, suspended at [yield r] with the
    local [params], or finished. *)
Inductive tasks_gen : Type :=
| TasksCreated (from_date : datetime R)
| TasksYielded (params : dict) (r : string)
| TasksDone.

(** [r = self._call(...); yield r] *)
Definition tasks_call (self : conduit_client) (params : dict)
  : M (option string * tasks_gen) :=
  (' (params, r) <- _call self MANIPHEST_TASKS params ;;
   ret (Some r, TasksYielded params r))%monad.

Definition tasks_next (self : conduit_client) (g : tasks_gen)
  : M (option string * tasks_gen) :=
  match g with
  | TasksCreated from_date =>
      let ts := timestamp R (datetime_to_utc R from_date) in
      let consts := [(PMODIFIED_START, JInt ts)] in
      let params := [(PCONSTRAINTS, JObj consts); (PORDER, JStr VOUTDATED)] in
      tasks_call self params
  | TasksYielded params r =>
      (j <- lift (loads R r) ;;
       after <- lift (result <- getitem j "result" ;;
                      cursor <- getitem result "cursor" ;;
                      getitem cursor "after")%result ;;
       if negb (truthy after) then
         ret (None, TasksDone)
       else
         tasks_call self (dict_set params PAFTER after))%monad
  | TasksDone => ret (None, TasksDone)
  end.

Definition transactions (self : conduit_client) (phids : list json)
  : M string :=
  (let params := [(PIDS, JArr phids)] in
   ' (_, response) <- _call self MANIPHEST_TRANSACTIONS params ;;
   ret response)%monad.

Definition users (self : conduit_client) (phids : list json) : M string :=
  (let params := [(PHIDS, JArr phids)] in
   ' (_, response) <- _call self PHAB_USERS params ;;
   ret response)%monad.

End Methods.

Arguments TasksDone {R}.
Arguments TasksYielded {R} params r.

End ConduitClient.

(** ** class Phabricator *)

Module Phabricator.

Definition version : string := "0.1.0".

(** Modelled from the spec: [Backend.__init__] and the three methods of
    the Response Cache Queue are inherited from [perceval.backend.Backend],
    which is not part of the sources.  The spec has [push] append to the
    in-flight sequence, [flush] persist the entire queued sequence and
    clear it, and [purge] discard the entries without persisting them. *)
Definition __init__ (url api_token : string) (cache : list (list string))
    (origin : option string) : backend :=
  let origin :=
    match origin with
    | Some o => if String.eqb o "" then url else o
    | None => url
    end in
  mk_backend origin url (ConduitClient.__init__ url api_token) [] [] cache.

(** Modelled from the spec: [push(rawText)] appends to the in-flight
    sequence ([Backend._push_cache_queue] is not part of the sources). *)
Definition _push_cache_queue (item : string) : M unit :=
  modify (fun w => set_cache_queue (cache_queue (self w) ++ [item]) w).

(** Modelled from the spec: [flush()] persists the entire queued sequence
    to the durable cache sink and clears it ([Backend._flush_cache_queue]
    is not part of the sources). *)
Definition _flush_cache_queue : M unit :=
  modify (fun w =>
    let stored := cache (self w) ++ [cache_queue (self w)] in
    set_cache_queue [] (set_cache stored w)).

(** Modelled from the spec: [purge()] discards the queued entries without
    persisting them ([Backend._purge_cache_queue] is not part of the
    sources). *)
Definition _purge_cache_queue : M unit :=
  modify (set_cache_queue []).

Section Methods.

Variable R : runtime.
Variable server : list request -> request -> reply.

Definition metadata_id (item : json) : result string :=
  (id <- getitem item "id" ;; Ok (str R id))%result.

Definition parse_tasks (raw_json : string) : result (list json) :=
  (results <- loads R raw_json ;;
   result <- getitem results "result" ;;
   tasks <- getitem result "data" ;;
   iter tasks)%result.

Definition parse_tasks_transactions (raw_json : string) : result json :=
  (results <- loads R raw_json ;;
   getitem results "result")%result.

Definition parse_users (raw_json : string) : result (list json) :=
  (results <- loads R raw_json ;;
   users <- getitem results "result" ;;
   iter users)%result.

Definition __fetch_and_parse_users (users_ids : list json) : M (list json) :=
  (c <- gets (fun w => client (self w)) ;;
   raw_json <- ConduitClient.users R server c users_ids ;;
   _push_cache_queue raw_json ;;
   lift (parse_users raw_json))%monad.

(** [l[0]] *)
Definition first (l : list json) : result json :=
  match l with
  | x :: _ => Ok x
  | [] => Raise IndexError
  end.

Definition __get_or_fetch_user (user_id : json) : M json :=
  (k <- lift (hash_key user_id) ;;
   cached <- gets (fun w => users_get (_users (self w)) k) ;;
   match cached with
   | Some user => ret user
   | None =>
       users <- __fetch_and_parse_users [user_id] ;;
       user <- lift (first users) ;;
       modify (set_users (fun d => users_set d k user)) ;;
       ret user
   end)%monad.

(** The body of [for tt in trans]; the result is [tt] after the
    assignment of ['authorData']. *)
Definition resolve_transaction (tt : json) : M json :=
  (author_id <- lift (getitem tt "authorPHID") ;;
   author <- __get_or_fetch_user author_id ;;
   lift (setitem tt "authorData" author))%monad.

(** [for tt in trans]: the elements of a list are updated in place; the
    keys of a dict and the characters of a string are not subscriptable,
    so the body raises at the first of them. *)
Definition resolve_transactions (trans : json) : M json :=
  (tts <- lift (iter trans) ;;
   tts' <- mapM resolve_transaction tts ;;
   ret (match trans with
        | JArr _ => JArr tts'
        | _ => trans
        end))%monad.

Definition __fetch_and_parse_tasks_transactions (tasks_ids : list json)
  : M json :=
  (c <- gets (fun w => client (self w)) ;;
   raw_json <- ConduitClient.transactions R server c tasks_ids ;;
   _push_cache_queue raw_json ;;
   tasks_trans <- lift (parse_tasks_transactions raw_json) ;;
   match tasks_trans with
   | JObj d =>
       d' <- mapM (fun kv =>
                     trans <- resolve_transactions (snd kv) ;;
                     ret (fst kv, trans)) d ;;
       ret (JObj d')
   | _ => raise AttributeError
   end)%monad.

(** [task['fields'][k] = v]; the result is [task] after the assignment. *)
Definition set_field (task : json) (k : string) (v : json) : result json :=
  (fields <- getitem task "fields" ;;
   fields <- setitem fields k v ;;
   setitem task "fields" fields)%result.

(** The body of [for task in tasks], up to its [yield]. *)
Definition enrich_task (tasks_trans task : json) : M json :=
  (id <- lift (getitem task "id") ;;
   let tid := str R id in
   author_id <- lift (fields <- getitem task "fields" ;;
                      getitem fields "authorPHID")%result ;;
   owner_id <- lift (fields <- getitem task "fields" ;;
                     getitem fields "ownerPHID")%result ;;
   author <- __get_or_fetch_user author_id ;;
   task <- lift (set_field task "authorData" author) ;;
   owner <- __get_or_fetch_user owner_id ;;
   task <- lift (set_field task "ownerData" owner) ;;
   trans <- lift (getitem tasks_trans tid) ;;
   lift (setitem task "transactions" trans))%monad.

(** The generator [__fetch_tasks]: not started, suspended at [yield task]
    with the page generator, the transactions of the page and the tasks of
    the page still to come, or finished. *)
Inductive fetch_tasks_gen : Type :=
| FetchTasksCreated (from_date : datetime R)
| FetchTasksYielded (pages : ConduitClient.tasks_gen R) (tasks_trans : json)
                    (rest : list json)
| FetchTasksDone.

Definition yield_task (pages : ConduitClient.tasks_gen R)
    (tasks_trans task : json) (rest : list json)
  : M (option json * fetch_tasks_gen) :=
  (task <- enrich_task tasks_trans task ;;
   ret (Some task, FetchTasksYielded pages tasks_trans rest))%monad.

(** One turn of [for raw_tasks in self.client.tasks(...)], up to the first
    [yield] of the page. *)
Definition next_page (pages : ConduitClient.tasks_gen R)
  : M (option json * fetch_tasks_gen) :=
  (c <- gets (fun w => client (self w)) ;;
   ' (page, pages) <- ConduitClient.tasks_next R server c pages ;;
   match page with
   | None => ret (None, FetchTasksDone)
   | Some raw_tasks =>
       _push_cache_queue raw_tasks ;;
       tasks <- lift (parse_tasks raw_tasks) ;;
       match tasks with
       | [] => ret (None, FetchTasksDone)
       | task :: rest =>
           tasks_ids <- lift (rmap (fun t => getitem t "id") tasks) ;;
           tasks_trans <- __fetch_and_parse_tasks_transactions tasks_ids ;;
           yield_task pages tasks_trans task rest
       end
   end)%monad.

Definition __fetch_tasks_next (g : fetch_tasks_gen)
  : M (option json * fetch_tasks_gen) :=
  match g with
  | FetchTasksCreated from_date =>
      next_page (ConduitClient.TasksCreated R from_date)
  | FetchTasksYielded pages tasks_trans (task :: rest) =>
      yield_task pages tasks_trans task rest
  | FetchTasksYielded pages tasks_trans [] =>
      (_flush_cache_queue ;; next_page pages)%monad
  | FetchTasksDone => ret (None, FetchTasksDone)
  end.

(** The generator [fetch], without the [metadata] decorator of
    [perceval.backend]: not started, suspended at [yield task] with
    [ntasks] tasks counted so far, or finished. *)
Inductive fetch_gen : Type :=
| FetchCreated (from_date : datetime R)
| FetchYielded (inner : fetch_tasks_gen) (ntasks : nat)
| FetchDone.

Definition fetch_loop (inner : fetch_tasks_gen) (ntasks : nat)
  : M (option json * fetch_gen) :=
  (' (task, inner) <- __fetch_tasks_next inner ;;
   match task with
   | Some task => ret (Some task, FetchYielded inner ntasks)
   | None => ret (None, FetchDone)
   end)%monad.

Definition fetch_resume (g : fetch_gen) : M (option json * fetch_gen) :=
  match g with
  | FetchCreated from_date =>
      (_purge_cache_queue ;;
       let from_date := datetime_to_utc R from_date in
       fetch_loop (FetchTasksCreated from_date) 0)%monad
  | FetchYielded inner ntasks => fetch_loop inner (S ntasks)
  | FetchDone => ret (None, FetchDone)
  end.

(** [next(g)] for the generator [g] of a call of [fetch]: an exception
    that leaves the generator finishes it. *)
Definition fetch_next (w : world) (g : fetch_gen)
  : world * signal json * fetch_gen :=
  match fetch_resume g w with
  | (w', Ok (Some task, g')) => (w', Yield task, g')
  | (w', Ok (None, g')) => (w', StopIteration, g')
  | (w', Raise e) => (w', Raised e, FetchDone)
  end.

(** How a consumer's loop over the generator ended. *)
Inductive ending : Type :=
| Exhausted
| Failed (e : exn)
| Suspended.

(** [for task in g] for at most [fuel] calls of [next]: the tasks
    received, in order, and how the loop ended. *)
Fixpoint consume (fuel : nat) (w : world) (g : fetch_gen)
  : world * list json * ending * fetch_gen :=
  match fuel with
  | O => (w, [], Suspended, g)
  | S fuel' =>
      match fetch_next w g with
      | (w', Yield task, g') =>
          let '(w'', tasks, e, g'') := consume fuel' w' g' in
          (w'', task :: tasks, e, g'')
      | (w', StopIteration, g') => (w', [], Exhausted, g')
      | (w', Raised e, g') => (w', [], Failed e, g')
      end
  end.

End Methods.

Arguments FetchTasksDone {R}.
Arguments FetchTasksYielded {R} pages tasks_trans rest.
Arguments FetchDone {R}.
Arguments FetchYielded {R} inner ntasks.

End Phabricator.

(** ** Vocabulary of the properties *)

(** The request [_call] sends for [method] and [params]. *)
Definition call_request (self : conduit_client) (method : string)
    (params : dict) : request :=
  mk_request (ConduitClient.URL (base_url self) method)
             (dict_set params "__conduit__"
                       (JObj [("token", JStr (api_token self))]))
             "json" true.

(** [hoare P m Q E]: from a world in [P], the method [m] ends in a world
    in [Q a] when it returns [a] and in [E e] when it raises [e]. *)
Definition hoare {A : Type} (P : world -> Prop) (m : M A)
    (Q : A -> world -> Prop) (E : exn -> world -> Prop) : Prop :=
  forall w, P w ->
    match m w with
    | (w', Ok a) => Q a w'
    | (w', Raise e) => E e w'
    end.

(** The reply [r] is one [_call] returns from: a status that is not an
    error and an envelope whose [error_code] is false; [text] is its
    body. *)
Definition accepted (R : runtime) (r : reply) (text : string) : Prop :=
  exists status envelope code,
    r = Reply status text
    /\ ~ (400 <= status < 600)%Z
    /\ json_loads R text = Some envelope
    /\ getitem envelope "error_code" = Ok code
    /\ truthy code = false.

(** The reply [r] reports a remote error: a status that is not an error
    and an envelope with a true [error_code] and an [error_info]. *)
Definition refused (R : runtime) (r : reply) (info code : json) : Prop :=
  exists status text envelope,
    r = Reply status text
    /\ ~ (400 <= status < 600)%Z
    /\ json_loads R text = Some envelope
    /\ getitem envelope "error_code" = Ok code
    /\ truthy code = true
    /\ getitem envelope "error_info" = Ok info.

(** The requests of the two lookups. *)
Definition users_request (c : conduit_client) (user_id : json) : request :=
  call_request c ConduitClient.PHAB_USERS
               [(ConduitClient.PHIDS, JArr [user_id])].

Definition transactions_request (c : conduit_client) (ids : list json)
  : request :=
  call_request c ConduitClient.MANIPHEST_TRANSACTIONS
               [(ConduitClient.PIDS, JArr ids)].

(** [j['result']['cursor']['after']] of a raw page. *)
Definition cursor (R : runtime) (raw : string) : result json :=
  (j <- loads R raw ;;
   result <- getitem j "result" ;;
   cursor <- getitem result "cursor" ;;
   getitem cursor "after")%result.

(** The world after each operation of the Response Cache Queue. *)
Definition after_push (raw : string) (w : world) : world :=
  fst (Phabricator._push_cache_queue raw w).

Definition after_flush (w : world) : world :=
  fst (Phabricator._flush_cache_queue w).

Definition after_purge (w : world) : world :=
  fst (Phabricator._purge_cache_queue w).

(** The states in which the next call of [next] asks for a page: a call of
    [fetch] that has not started, which first purges the queue, and one
    suspended at the [yield] of the last task of a page, which first
    flushes it.  The result is the page generator and the world in which
    the page is asked for. *)
Definition page_boundary (R : runtime) (w : world)
    (g : Phabricator.fetch_gen R)
  : option (ConduitClient.tasks_gen R * world) :=
  match g with
  | Phabricator.FetchCreated _ from_date =>
      Some (ConduitClient.TasksCreated R (datetime_to_utc R from_date),
            after_purge w)
  | Phabricator.FetchYielded (Phabricator.FetchTasksYielded pages _ []) _ =>
      Some (pages, after_flush w)
  | _ => None
  end.

(** [req] is a lookup of the user whose identifier hashes to [k]: a call
    of [user.query] for that one identifier. *)
Definition is_user_lookup (c : conduit_client) (k : hkey) (req : request)
  : bool :=
  String.eqb (req_url req)
             (ConduitClient.URL (base_url c) ConduitClient.PHAB_USERS)
  && match dict_get (req_params req) ConduitClient.PHIDS with
     | Some (JArr [user_id]) =>
         match hash_key user_id with
         | Ok k' => hkey_eqb k' k
         | Raise _ => false
         end
     | _ => false
     end.

(** The number of lookups of [k] among the requests [log]. *)
Definition user_lookups (c : conduit_client) (k : hkey) (log : list request)
  : nat :=
  List.length (filter (is_user_lookup c k) log).

(** The invariant of a session that started with the request log [log0],
    for one user [k]: the user has not been looked up, or has been looked
    up once and is in [_users]. *)
Definition session_inv (c : conduit_client) (k : hkey) (log0 : list request)
    (w : world) : Prop :=
  client (self w) = c
  /\ exists session,
      net_log w = log0 ++ session
      /\ (user_lookups c k session = 0
          \/ (user_lookups c k session = 1
              /\ users_get (_users (self w)) k <> None)).

(** What is left of the invariant when the session ends. *)
Definition session_bound (c : conduit_client) (k : hkey)
    (log0 : list request) (w : world) : Prop :=
  exists session,
    net_log w = log0 ++ session /\ user_lookups c k session <= 1.

(** The five ways a call of [__get_or_fetch_user] can go. *)
Inductive resolution (R : runtime)
    (server : list request -> request -> reply) (user_id : json) (w : world)
  : world * result json -> Prop :=
| res_unhashable :
    hash_key user_id = Raise TypeError ->
    resolution R server user_id w (w, Raise TypeError)
| res_hit k user :
    hash_key user_id = Ok k ->
    users_get (_users (self w)) k = Some user ->
    resolution R server user_id w (w, Ok user)
| res_call_failed k e :
    hash_key user_id = Ok k ->
    users_get (_users (self w)) k = None ->
    ConduitClient.users R server (client (self w)) [user_id] w
    = (log_request (users_request (client (self w)) user_id) w, Raise e) ->
    resolution R server user_id w
      (log_request (users_request (client (self w)) user_id) w, Raise e)
| res_no_record k text e :
    hash_key user_id = Ok k ->
    users_get (_users (self w)) k = None ->
    accepted R (server (net_log w)
                       (users_request (client (self w)) user_id)) text ->
    rbind (Phabricator.parse_users R text) Phabricator.first = Raise e ->
    resolution R server user_id w
      (after_push text
         (log_request (users_request (client (self w)) user_id) w),
       Raise e)
| res_fetched k text user :
    hash_key user_id = Ok k ->
    users_get (_users (self w)) k = None ->
    accepted R (server (net_log w)
                       (users_request (client (self w)) user_id)) text ->
    rbind (Phabricator.parse_users R text) Phabricator.first = Ok user ->
    resolution R server user_id w
      (set_users (fun d => users_set d k user)
         (after_push text
            (log_request (users_request (client (self w)) user_id) w)),
       Ok user).

(** ** What the stages of a page establish *)

(** The transaction [tt] carries an ['authorData'] that satisfies [G]. *)
Definition carries_author (G : json -> Prop) (tt : json) : Prop :=
  exists author, getitem tt "authorData" = Ok author /\ G author.

(** [trans'] is the value [trans] of the transactions response after
    [for tt in trans]: a list of transactions that carry their author, or
    [trans] itself when it is not a list. *)
Definition resolved (G : json -> Prop) (trans trans' : json) : Prop :=
  exists tts,
    Forall (carries_author G) tts
    /\ trans' = match trans with JArr _ => JArr tts | _ => trans end.

(** [tasks_trans] is what [__fetch_and_parse_tasks_transactions] returns
    from a response [raw] that satisfies [T]: the decoded dict, each value
    resolved. *)
Definition resolved_page (R : runtime) (T : string -> Prop)
    (G : json -> Prop) (tasks_trans : json) : Prop :=
  exists raw d d',
    T raw
    /\ Phabricator.parse_tasks_transactions R raw = Ok (JObj d)
    /\ tasks_trans = JObj d'
    /\ Forall2 (fun kv kv' => fst kv' = fst kv
                              /\ resolved G (snd kv) (snd kv')) d d'.

(** [task] is a task as [enrich_task] returns it: the users of its
    fields satisfy [G] and its transactions are those [tasks_trans] has
    for its identifier. *)
Definition enriched_from (R : runtime) (G : json -> Prop)
    (tasks_trans task : json) : Prop :=
  exists d fields id author owner trans,
    task = JObj d
    /\ dict_get d "id" = Some id
    /\ dict_get d "fields" = Some (JObj fields)
    /\ dict_get fields "authorData" = Some author /\ G author
    /\ dict_get fields "ownerData" = Some owner /\ G owner
    /\ getitem tasks_trans (str R id) = Ok trans
    /\ dict_get d "transactions" = Some trans.

(** The invariant of the states of [__fetch_tasks]: a generator suspended
    in a page holds the resolved transactions of the page. *)
Definition fetch_tasks_gen_ok (R : runtime) (T : string -> Prop)
    (G : json -> Prop) (g : Phabricator.fetch_tasks_gen R) : Prop :=
  match g with
  | Phabricator.FetchTasksYielded _ tasks_trans _ =>
      resolved_page R T G tasks_trans
  | _ => True
  end.

(** What a turn of [__fetch_tasks] gives: a task enriched from the
    transactions the generator now holds, or nothing. *)
Definition turn_ok (R : runtime) (T : string -> Prop) (G : json -> Prop)
    (r : option json * Phabricator.fetch_tasks_gen R) : Prop :=
  fetch_tasks_gen_ok R T G (snd r)
  /\ match r with
     | (Some task, Phabricator.FetchTasksYielded _ tasks_trans _) =>
         enriched_from R G tasks_trans task
     | (Some _, _) => False
     | (None, _) => True
     end.

(** ** Enriched tasks *)

Definition non_null (v : json) : bool :=
  match v with
  | JNull => false
  | _ => true
  end.

Definition present (v : json) : Prop := non_null v = true.

(** [v[k]] is present and is not [None]. *)
Definition has_user (v : json) (k : string) : bool :=
  match getitem v k with
  | Ok user => non_null user
  | Raise _ => false
  end.

(** The task has the three fields of an enriched task: the two users of
    its fields, and a list of transactions that each carry their author. *)
Definition enriched (task : json) : bool :=
  match getitem task "fields", getitem task "transactions" with
  | Ok fields, Ok (JArr tts) =>
      has_user fields "authorData" && has_user fields "ownerData"
      && forallb (fun tt => has_user tt "authorData") tts
  | _, _ => false
  end.

(** The shapes the spec gives the two lookups: the result of an identity
    lookup is an array of user objects, so no user that [parse_users]
    reads from it is [None]; the result of a transactions lookup maps
    each task identifier to an array. *)
Definition users_reply_ok (R : runtime) (text : string) : Prop :=
  forall users,
    Phabricator.parse_users R text = Ok users ->
    Forall (fun user => non_null user = true) users.

Definition transactions_reply_ok (R : runtime) (text : string) : Prop :=
  forall d,
    Phabricator.parse_tasks_transactions R text = Ok (JObj d) ->
    Forall (fun kv => exists tts, snd kv = JArr tts) d.

(** The server answers the two lookups of the client [c] in those
    shapes. *)
Definition well_shaped (R : runtime)
    (server : list request -> request -> reply) (c : conduit_client)
  : Prop :=
  forall log req status text,
    server log req = Reply status text ->
    (req_url req = ConduitClient.URL (base_url c) ConduitClient.PHAB_USERS ->
     users_reply_ok R text)
    /\ (req_url req
        = ConduitClient.URL (base_url c) ConduitClient.MANIPHEST_TRANSACTIONS ->
        transactions_reply_ok R text).

(** No user of [_users] is [None], and the client is [c]. *)
Definition users_inv (c : conduit_client) (w : world) : Prop :=
  client (self w) = c
  /\ forall k user,
      users_get (_users (self w)) k = Some user -> non_null user = true.

(** The invariant of the states of [fetch]. *)
Definition fetch_gen_ok (R : runtime) (T : string -> Prop) (G : json -> Prop)
    (g : Phabricator.fetch_gen R) : Prop :=
  match g with
  | Phabricator.FetchYielded inner _ => fetch_tasks_gen_ok R T G inner
  | _ => True
  end.

(** ** The Response Cache Queue over a page *)

(** The bodies of the replies of [server] to the requests [reqs], sent in
    this order after the requests [log]. *)
Fixpoint replies (server : list request -> request -> reply)
    (log reqs : list request) : list string :=
  match reqs with
  | [] => []
  | req :: reqs' =>
      match server log req with
      | Reply _ text => [text]
      | NoReply => []
      end ++ replies server (log ++ [req]) reqs'
  end.

(** The invariant of a page that started in the world [wb]: the queue has
    grown by the reply to every request sent since, in order, and nothing
    has been stored. *)
Definition page_inv (server : list request -> request -> reply)
    (wb w : world) : Prop :=
  client (self w) = client (self wb)
  /\ cache (self w) = cache (self wb)
  /\ exists reqs,
      net_log w = net_log wb ++ reqs
      /\ cache_queue (self w)
         = cache_queue (self wb) ++ replies server (net_log wb) reqs.

(** ** Enrichment only adds *)

(** [task'] is [task] with nothing removed, moved or renamed: the keys of
    the task and of its fields are those of [task] in the same order,
    followed by what was added, at most ['transactions'] in the task and
    ['authorData'] and ['ownerData'] in its fields; the value of every
    other key is unchanged. *)
Definition only_adds (task task' : json) : Prop :=
  exists d fields d' fields' added added',
    task = JObj d /\ dict_get d "fields" = Some (JObj fields)
    /\ task' = JObj d' /\ dict_get d' "fields" = Some (JObj fields')
    /\ dict_keys d' = dict_keys d ++ added
    /\ incl added ["transactions"]
    /\ dict_keys fields' = dict_keys fields ++ added'
    /\ incl added' ["authorData"; "ownerData"]
    /\ (forall k, k <> "fields" -> k <> "transactions" ->
                  dict_get d' k = dict_get d k)
    /\ (forall k, k <> "authorData" -> k <> "ownerData" ->
                  dict_get fields' k = dict_get fields k).

(** ** Consumers and requests of the client *)

(** [n] slashes. *)
Fixpoint slashes (n : nat) : string :=
  match n with
  | O => EmptyString
  | S n' => String "/" (slashes n')
  end.

(** [for r in client.tasks(from_date)] for at most [fuel] calls of [next]:
    the pages received, in order, and how the loop ended. *)
Fixpoint walk (R : runtime) (server : list request -> request -> reply)
    (fuel : nat) (c : conduit_client) (w : world)
    (g : ConduitClient.tasks_gen R)
  : world * list string * Phabricator.ending :=
  match fuel with
  | O => (w, [], Phabricator.Suspended)
  | S fuel' =>
      match ConduitClient.tasks_next R server c g w with
      | (w', Ok (Some r, g')) =>
          let '(w'', pages, e) := walk R server fuel' c w' g' in
          (w'', r :: pages, e)
      | (w', Ok (None, _)) => (w', [], Phabricator.Exhausted)
      | (w', Raise e) => (w', [], Phabricator.Failed e)
      end
  end.

(** The token object [_call] assigns to ['__conduit__']. *)
Definition conduit_token (c : conduit_client) : json :=
  JObj [("token", JStr (api_token c))].

(** [req] is a request of [maniphest.search] for the tasks modified since
    [ts], in the order ['outdated'], with the cursor [after] (or none) and
    the token of the client. *)
Definition page_request (c : conduit_client) (ts : Z) (after : option json)
    (req : request) : Prop :=
  req_url req
  = ConduitClient.URL (base_url c) ConduitClient.MANIPHEST_TASKS
  /\ dict_get (req_params req) ConduitClient.PCONSTRAINTS
     = Some (JObj [(ConduitClient.PMODIFIED_START, JInt ts)])
  /\ dict_get (req_params req) ConduitClient.PORDER
     = Some (JStr ConduitClient.VOUTDATED)
  /\ dict_get (req_params req) ConduitClient.PAFTER = after
  /\ dict_get (req_params req) "__conduit__" = Some (conduit_token c).

(** The parameters the page generator keeps from one request to the
    next: the constraint and the order. *)
Definition kept (ts : Z) (params : dict) : Prop :=
  dict_get params ConduitClient.PCONSTRAINTS
  = Some (JObj [(ConduitClient.PMODIFIED_START, JInt ts)])
  /\ dict_get params ConduitClient.PORDER
     = Some (JStr ConduitClient.VOUTDATED).

(** The requests [reqs] and the pages [pages] of a walk whose next request
    carries the cursor [after]: every request is a [page_request]; a page
    is followed by another request only when its cursor is true, and that
    request carries it; at most the last request has no page. *)
Fixpoint paged (R : runtime) (c : conduit_client) (ts : Z)
    (after : option json) (reqs : list request) (pages : list string)
  : Prop :=
  match reqs with
  | [] => pages = []
  | req :: reqs' =>
      page_request c ts after req
      /\ match pages with
         | [] => reqs' = []
         | page :: pages' =>
             (reqs' = [] /\ pages' = [])
             \/ exists a,
                 cursor R page = Ok a /\ truthy a = true
                 /\ paged R c ts (Some a) reqs' pages'
         end
  end.

(** [req] is a request as [_call] sends them: to one of the three methods
    of the client [c], with its token and the constant fields. *)
Definition authentic (c : conduit_client) (req : request) : Prop :=
  (req_url req = ConduitClient.URL (base_url c) ConduitClient.MANIPHEST_TASKS
   \/ req_url req
      = ConduitClient.URL (base_url c) ConduitClient.MANIPHEST_TRANSACTIONS
   \/ req_url req = ConduitClient.URL (base_url c) ConduitClient.PHAB_USERS)
  /\ dict_get (req_params req) "__conduit__" = Some (conduit_token c)
  /\ req_output req = "json"
  /\ req_conduit req = true.

(** The requests sent since the log was [log0] are authentic. *)
Definition authentic_since (c : conduit_client) (log0 : list request)
    (w : world) : Prop :=
  client (self w) = c
  /\ exists session,
      net_log w = log0 ++ session /\ Forall (authentic c) session.

(** Every user [_users] held in [w0] is held, unchanged, in [w]. *)
Definition users_kept (w0 w : world) : Prop :=
  forall k user,
    users_get (_users (self w0)) k = Some user ->
    users_get (_users (self w)) k = Some user.

(** [req] is a call of [user.query]. *)
Definition is_users_call (c : conduit_client) (req : request) : Prop :=
  req_url req = ConduitClient.URL (base_url c) ConduitClient.PHAB_USERS.

(** Since the log was [log0], only [user.query] has been called. *)
Definition only_lookups_since (c : conduit_client) (log0 : list request)
    (w : world) : Prop :=
  client (self w) = c
  /\ exists lookups,
      net_log w = log0 ++ lookups /\ Forall (is_users_call c) lookups.

(** In [fields], the value of the key [data] is the record [_users] holds
    in [w] for the identifier under the key [phid]. *)
Definition resolved_from (w : world) (fields : json) (phid data : string)
  : Prop :=
  exists id k user,
    getitem fields phid = Ok id
    /\ hash_key id = Ok k
    /\ getitem fields data = Ok user
    /\ users_get (_users (self w)) k = Some user.

(** The author and the owner of [task] are the records of [_users] in
    [w]. *)
Definition identities_from (w : world) (task : json) : Prop :=
  exists fields,
    getitem task "fields" = Ok fields
    /\ resolved_from w fields "authorPHID" "authorData"
    /\ resolved_from w fields "ownerPHID" "ownerData".
(** ** A concrete server and runtime

    The documents of a small Phabricator site, the text the server sends
    for each, and the decoder that reads those texts back.  The theorems
    below are instantiated on them. *)

Module Scenario.

Definition quote : string := String (ascii_of_nat 34) EmptyString.

(** The JSON text of a value whose strings need no escaping. *)
Fixpoint dumps (j : json) : string :=
  match j with
  | JNull => "null"
  | JBool true => "true"
  | JBool false => "false"
  | JInt n => NilZero.string_of_int (Z.to_int n)
  | JStr s => quote ++ s ++ quote
  | JArr l =>
      "[" ++
      (fix elements (l : list json) : string :=
         match l with
         | [] => ""
         | x :: l' =>
             dumps x ++ match l' with [] => "" | _ => "," ++ elements l' end
         end) l
      ++ "]"
  | JObj d =>
      "{" ++
      (fix members (d : list (string * json)) : string :=
         match d with
         | [] => ""
         | (k, v) :: d' =>
             quote ++ k ++ quote ++ ":" ++ dumps v
             ++ match d' with [] => "" | _ => "," ++ members d' end
         end) d
      ++ "}"
  end%string.

Definition envelope (result : json) : json :=
  JObj [("result", result); ("error_code", JNull); ("error_info", JNull)].

Definition failure (code info : string) : json :=
  JObj [("result", JNull); ("error_code", JStr code);
        ("error_info", JStr info)].

Definition user (phid name : string) : json :=
  JObj [("phid", JStr phid); ("userName", JStr name)].

Definition task (id : Z) (author owner : json) : json :=
  JObj [("id", JInt id);
        ("fields", JObj [("authorPHID", author); ("ownerPHID", owner);
                         ("dateModified", JInt 1467196707)])].

Definition transaction (author : string) (kind : string) : json :=
  JObj [("authorPHID", JStr author); ("transactionType", JStr kind)].

Definition alice : json := user "PHID-USER-1" "alice".
Definition bob : json := user "PHID-USER-2" "bob".

Definition task1 : json := task 1 (JStr "PHID-USER-1") (JStr "PHID-USER-2").
Definition task2 : json := task 2 (JStr "PHID-USER-2") (JStr "PHID-USER-1").

Definition page1 : json :=
  envelope (JObj [("data", JArr [task1; task2]);
                  ("cursor", JObj [("after", JStr "2")])]).

Definition page2 : json :=
  envelope (JObj [("data", JArr []); ("cursor", JObj [("after", JNull)])]).

(** A last page that is not empty: one task and no cursor. *)
Definition page_last : json :=
  envelope (JObj [("data", JArr [task1]);
                  ("cursor", JObj [("after", JNull)])]).

Definition transactions1 : json :=
  envelope (JObj [("1", JArr [transaction "PHID-USER-1" "status";
                              transaction "PHID-USER-2" "core:comment"]);
                  ("2", JArr [])]).

Definition users_alice : json := envelope (JArr [alice]).
Definition users_bob : json := envelope (JArr [bob]).
Definition users_nobody : json := envelope (JArr []).

Definition session_error : json :=
  failure "ERR-INVALID-SESSION" "Session key is not present.".

Definition documents : list json :=
  [page1; page2; page_last; transactions1; users_alice; users_bob;
   users_nobody; session_error].

(** [json.loads] on the texts of [documents]; any other text is not JSON
    for this runtime. *)
Definition decode (text : string) : option json :=
  find (fun j => String.eqb (dumps j) text) documents.

(** Dates are seconds since the epoch, already in UTC. *)
Definition python : runtime :=
  mk_runtime Z (fun d => d) (fun d => d) decode dumps.

Definition ok (j : json) : reply := Reply 200 (dumps j).

Definition site : string := "https://phab.example.org".

Definition method_url (method : string) : string :=
  ConduitClient.URL site method.

(** The reply of [user.query] to the identifiers [phids]. *)
Definition users_page (phids : option json) : json :=
  match phids with
  | Some (JArr [JStr phid]) =>
      if String.eqb phid "PHID-USER-1" then users_alice
      else if String.eqb phid "PHID-USER-2" then users_bob
      else users_nobody
  | _ => users_nobody
  end.

(** The server of the site: two pages of tasks, the second one empty, the
    transactions of the first page, and two users. *)
Definition server (log : list request) (req : request) : reply :=
  if String.eqb (req_url req) (method_url ConduitClient.MANIPHEST_TASKS) then
    match dict_get (req_params req) ConduitClient.PAFTER with
    | None => ok page1
    | Some _ => ok page2
    end
  else if String.eqb (req_url req)
                     (method_url ConduitClient.MANIPHEST_TRANSACTIONS) then
    ok transactions1
  else if String.eqb (req_url req) (method_url ConduitClient.PHAB_USERS) then
    ok (users_page (dict_get (req_params req) ConduitClient.PHIDS))
  else Reply 404 "Not Found".

(** A server that plays a script: its n-th reply answers the n-th request
    it receives, whatever the request. *)
Definition scripted (script : list reply) (log : list request) (req : request)
  : reply :=
  nth (List.length log) script NoReply.

Definition phab : backend := Phabricator.__init__ (site ++ "/") "token" [] None.

(** The world of a new instance, before any request. *)
Definition start : world := mk_world phab [].

(** The generator of a call of [fetch] on the scenario. *)
Definition fetch_call : Phabricator.fetch_gen python :=
  Phabricator.FetchCreated python 0%Z.

(** The request of the first page. *)
Definition first_page_request : request :=
  call_request (client phab) ConduitClient.MANIPHEST_TASKS
    [(ConduitClient.PCONSTRAINTS,
      JObj [(ConduitClient.PMODIFIED_START, JInt 0)]);
     (ConduitClient.PORDER, JStr ConduitClient.VOUTDATED)].

(** The world in which the first page has been received and pushed. *)
Definition first_page_world (page : json) : world :=
  after_push (dumps page) (log_request first_page_request (after_purge start)).

(** [task1] as [fetch] yields it. *)
Definition enriched_task1 : json :=
  JObj [("id", JInt 1);
        ("fields", JObj [("authorPHID", JStr "PHID-USER-1");
                         ("ownerPHID", JStr "PHID-USER-2");
                         ("dateModified", JInt 1467196707);
                         ("authorData", alice);
                         ("ownerData", bob)]);
        ("transactions",
         JArr [JObj [("authorPHID", JStr "PHID-USER-1");
                     ("transactionType", JStr "status");
                     ("authorData", alice)];
               JObj [("authorPHID", JStr "PHID-USER-2");
                     ("transactionType", JStr "core:comment");
                     ("authorData", bob)]])].

(** The transactions of the first page with their authors resolved. *)
Definition resolved_transactions1 : json :=
  JObj [("1", JArr [JObj [("authorPHID", JStr "PHID-USER-1");
                          ("transactionType", JStr "status");
                          ("authorData", alice)];
                    JObj [("authorPHID", JStr "PHID-USER-2");
                          ("transactionType", JStr "core:comment");
                          ("authorData", bob)]]);
        ("2", JArr [])].

(** [task2] as [fetch] yields it. *)
Definition enriched_task2 : json :=
  JObj [("id", JInt 2);
        ("fields", JObj [("authorPHID", JStr "PHID-USER-2");
                         ("ownerPHID", JStr "PHID-USER-1");
                         ("dateModified", JInt 1467196707);
                         ("authorData", bob);
                         ("ownerData", alice)]);
        ("transactions", JArr [])].

(** A site whose only page is empty. *)
Definition empty_site : list request -> request -> reply :=
  scripted [ok page2].

(** A site that refuses the transactions lookup of its first page. *)
Definition refusing_site : list request -> request -> reply :=
  scripted [ok page1; ok session_error].

(** The world a consumer leaves after a whole first call of [fetch]. *)
Definition after_first_fetch : world :=
  fst (fst (fst (Phabricator.consume python server 10 start fetch_call))).

(** The world after a second whole call of [fetch] on the instance. *)
Definition after_second_fetch : world :=
  fst (fst (fst (Phabricator.consume python server 10 after_first_fetch
                                     fetch_call))).

End Scenario.

(** * Properties *)

(** ** The Transport Client: [ConduitClient._call] *)

Section TransportClient.

Variable R : runtime.
Variable server : list request -> request -> reply.

Lemma getitem_raises (v : json) (k : string) (e : exn) :
  getitem v k = Raise e -> e = KeyError k \/ e = TypeError.
Proof.
  destruct v; cbn; try (intros [= <-]; now right).
  destruct (dict_get l k); [discriminate|].
  intros [= <-]. now left.
Qed.

Lemma raise_for_status_fails (status : Z) :
  (400 <= status < 600)%Z ->
  raise_for_status status = Raise (HTTPError status).
Proof.
  intros [Hlo Hhi]. unfold raise_for_status.
  apply Z.leb_le in Hlo. apply Z.ltb_lt in Hhi.
  now rewrite Hlo, Hhi.
Qed.

Lemma raise_for_status_passes (status : Z) :
  ~ (400 <= status < 600)%Z ->
  raise_for_status status = Ok tt.
Proof.
  intros H. unfold raise_for_status.
  destruct (400 <=? status)%Z eqn:Hlo; [|reflexivity].
  destruct (status <? 600)%Z eqn:Hhi; [|reflexivity].
  exfalso. apply H. split; [now apply Z.leb_le | now apply Z.ltb_lt].
Qed.

Lemma raise_for_status_inv (status : Z) (e : exn) :
  raise_for_status status = Raise e ->
  e = HTTPError status /\ (400 <= status < 600)%Z.
Proof.
  unfold raise_for_status.
  destruct (400 <=? status)%Z eqn:Hlo; [|discriminate].
  destruct (status <? 600)%Z eqn:Hhi; [|discriminate].
  intros [= <-]. split; [reflexivity|].
  split; [now apply Z.leb_le | now apply Z.ltb_lt].
Qed.

(** C6. Every call of [_call] sends one request and then: when no reply
    comes it raises [ConnectionError]; when the status is 4xx or 5xx it
    raises [HTTPError]; when the exchange succeeds and the decoded envelope
    has a true [error_code] it raises [ConduitError] with the envelope's
    [error_info] and [error_code]; when the [error_code] is false it
    returns the text of the response as received.  Conversely a
    [ConduitError] is raised only for such an envelope, with its code and
    message. *)
Theorem call_outcomes (self : conduit_client) (method : string)
    (params : dict) (w : world) :
  let req := call_request self method params in
  let w' := log_request req w in
  (server (net_log w) req = NoReply ->
   ConduitClient._call R server self method params w
   = (w', Raise ConnectionError))
  /\ (forall status text,
        server (net_log w) req = Reply status text ->
        (400 <= status < 600)%Z ->
        ConduitClient._call R server self method params w
        = (w', Raise (HTTPError status)))
  /\ (forall status text envelope code info,
        server (net_log w) req = Reply status text ->
        ~ (400 <= status < 600)%Z ->
        json_loads R text = Some envelope ->
        getitem envelope "error_code" = Ok code ->
        truthy code = true ->
        getitem envelope "error_info" = Ok info ->
        ConduitClient._call R server self method params w
        = (w', Raise (ConduitError info code)))
  /\ (forall status text envelope code,
        server (net_log w) req = Reply status text ->
        ~ (400 <= status < 600)%Z ->
        json_loads R text = Some envelope ->
        getitem envelope "error_code" = Ok code ->
        truthy code = false ->
        ConduitClient._call R server self method params w
        = (w', Ok (req_params req, text)))
  /\ (forall w1 info code,
        ConduitClient._call R server self method params w
        = (w1, Raise (ConduitError info code)) ->
        exists status text envelope,
          server (net_log w) req = Reply status text
          /\ ~ (400 <= status < 600)%Z
          /\ json_loads R text = Some envelope
          /\ getitem envelope "error_code" = Ok code
          /\ truthy code = true
          /\ getitem envelope "error_info" = Ok info).
Proof.
  intros req w'.
  unfold ConduitClient._call, bind, post, lift, raise, ret.
  fold (call_request self method params). fold req.
  repeat split.
  - intros ->. reflexivity.
  - intros status text -> Hst.
    now rewrite (raise_for_status_fails _ Hst).
  - intros status text envelope code info -> Hst Hj Hc Ht Hi.
    rewrite (raise_for_status_passes _ Hst).
    unfold loads. rewrite Hj, Hc, Ht, Hi. reflexivity.
  - intros status text envelope code -> Hst Hj Hc Ht.
    rewrite (raise_for_status_passes _ Hst).
    unfold loads. rewrite Hj, Hc, Ht. reflexivity.
  - intros w1 info code.
    destruct (server (net_log w) req) as [|status text]; [discriminate|].
    destruct (raise_for_status status) as [[]|e] eqn:Hst.
    2:{ apply raise_for_status_inv in Hst as [-> _]. intros [=]. }
    assert (Hok : ~ (400 <= status < 600)%Z).
    { intros H. rewrite (raise_for_status_fails _ H) in Hst. discriminate. }
    unfold loads.
    destruct (json_loads R text) as [envelope|] eqn:Hj; [|discriminate].
    destruct (getitem envelope "error_code") as [c|e] eqn:Hc.
    2:{ intros [= _ ->]. now destruct (getitem_raises _ _ _ Hc). }
    destruct (truthy c) eqn:Ht; [|intros [=]].
    destruct (getitem envelope "error_info") as [i|e] eqn:Hi.
    2:{ intros [= _ ->]. now destruct (getitem_raises _ _ _ Hi). }
    intros [= _ <- <-].
    exists status, text, envelope. repeat split; assumption.
Qed.

End TransportClient.

(** ** A program logic for the methods *)

Section ProgramLogic.

Lemma hoare_ret {A : Type} (P : world -> Prop) (a : A) Q E :
  (forall w, P w -> Q a w) -> hoare P (ret a) Q E.
Proof. intros H w Hw. cbn. auto. Qed.

Lemma hoare_raise {A : Type} (P : world -> Prop) (e : exn)
    (Q : A -> world -> Prop) E :
  (forall w, P w -> E e w) -> hoare P (raise e) Q E.
Proof. intros H w Hw. cbn. auto. Qed.

Lemma hoare_lift {A : Type} (P : world -> Prop) (r : result A) Q E :
  (forall w, P w -> match r with Ok a => Q a w | Raise e => E e w end) ->
  hoare P (lift r) Q E.
Proof. intros H w Hw. unfold lift. destruct r; apply (H w Hw). Qed.

Lemma hoare_gets {A : Type} (P : world -> Prop) (f : world -> A) Q E :
  (forall w, P w -> Q (f w) w) -> hoare P (gets f) Q E.
Proof. intros H w Hw. cbn. auto. Qed.

Lemma hoare_modify (P : world -> Prop) (f : world -> world) Q E :
  (forall w, P w -> Q tt (f w)) -> hoare P (modify f) Q E.
Proof. intros H w Hw. cbn. auto. Qed.

Lemma hoare_bind {A B : Type} (P : world -> Prop) (m : M A) (k : A -> M B)
    (Q1 : A -> world -> Prop) Q E :
  hoare P m Q1 E ->
  (forall a, hoare (Q1 a) (k a) Q E) ->
  hoare P (bind m k) Q E.
Proof.
  intros Hm Hk w Hw. unfold bind. specialize (Hm w Hw).
  destruct (m w) as [w' [a|e]]; [apply (Hk a w' Hm) | exact Hm].
Qed.

Lemma hoare_conseq {A : Type} (P P' : world -> Prop) (m : M A)
    (Q Q' : A -> world -> Prop) (E E' : exn -> world -> Prop) :
  hoare P' m Q' E' ->
  (forall w, P w -> P' w) ->
  (forall a w, Q' a w -> Q a w) ->
  (forall e w, E' e w -> E e w) ->
  hoare P m Q E.
Proof.
  intros Hm HP HQ HE w Hw. specialize (Hm w (HP w Hw)).
  destruct (m w) as [w' [a|e]]; auto.
Qed.

(** A loop keeps an invariant that each turn keeps; what each turn
    establishes of its result holds of every element of the result. *)
Lemma hoare_mapM {A B : Type} (I : world -> Prop) (f : A -> M B)
    (l : list A) (G : B -> Prop) (E : exn -> world -> Prop) :
  (forall x, In x l -> hoare I (f x) (fun y w => G y /\ I w) E) ->
  hoare I (mapM f l) (fun ys w => Forall G ys /\ I w) E.
Proof.
  induction l as [|x l IH]; intros Hf.
  - apply hoare_ret. auto.
  - cbn [mapM]. eapply hoare_bind; [apply Hf; now left|].
    intros y. cbn beta.
    intros w [Hy Hw]. unfold bind.
    assert (IH' := IH (fun x Hx => Hf x (or_intror Hx)) w Hw).
    destruct (mapM f l w) as [w' [ys|e]]; cbn; [|exact IH'].
    destruct IH' as [Hys Hw']. split; [constructor|]; assumption.
Qed.

(** The premises of a judgement, read off a run. *)
Lemma hoare_run {A : Type} (P : world -> Prop) (m : M A) Q E w w' r :
  hoare P m Q E -> P w -> m w = (w', r) ->
  match r with Ok a => Q a w' | Raise e => E e w' end.
Proof. intros H Hw Hr. specialize (H w Hw). now rewrite Hr in H. Qed.

End ProgramLogic.

(** ** What one call of the client does *)

Section Calls.

Variable R : runtime.
Variable server : list request -> request -> reply.

(** Every call sends exactly its request and leaves the instance alone. *)
Lemma call_world (self : conduit_client) (method : string) (params : dict)
    (w : world) :
  fst (ConduitClient._call R server self method params w)
  = log_request (call_request self method params) w.
Proof.
  unfold ConduitClient._call, bind, post, lift, raise, ret.
  fold (call_request self method params).
  destruct (server _ _) as [|status text]; [reflexivity|].
  destruct (raise_for_status status) as [[]|]; [|reflexivity].
  destruct (loads R text) as [envelope|]; [|reflexivity].
  destruct (getitem envelope "error_code") as [code|]; [|reflexivity].
  destruct (truthy code); [|reflexivity].
  destruct (getitem envelope "error_info"); reflexivity.
Qed.

Lemma call_accepted (self : conduit_client) (method : string)
    (params : dict) (w : world) (text : string) :
  let req := call_request self method params in
  accepted R (server (net_log w) req) text ->
  ConduitClient._call R server self method params w
  = (log_request req w, Ok (req_params req, text)).
Proof.
  intros req (status & envelope & code & Hr & Hst & Hj & Hc & Ht).
  unfold ConduitClient._call, bind, post, lift, raise, ret.
  fold (call_request self method params). fold req. rewrite Hr.
  rewrite (raise_for_status_passes _ Hst).
  unfold loads. now rewrite Hj, Hc, Ht.
Qed.

Lemma call_refused (self : conduit_client) (method : string)
    (params : dict) (w : world) (info code : json) :
  let req := call_request self method params in
  refused R (server (net_log w) req) info code ->
  ConduitClient._call R server self method params w
  = (log_request req w, Raise (ConduitError info code)).
Proof.
  intros req (status & text & envelope & Hr & Hst & Hj & Hc & Ht & Hi).
  unfold ConduitClient._call, bind, post, lift, raise, ret.
  fold (call_request self method params). fold req. rewrite Hr.
  rewrite (raise_for_status_passes _ Hst).
  unfold loads. now rewrite Hj, Hc, Ht, Hi.
Qed.

(** A call that returns returns the body of an accepted reply. *)
Lemma call_returns_inv (self : conduit_client) (method : string)
    (params : dict) (w w' : world) (params' : dict) (text : string) :
  ConduitClient._call R server self method params w
  = (w', Ok (params', text)) ->
  accepted R (server (net_log w) (call_request self method params)) text
  /\ params' = req_params (call_request self method params)
  /\ w' = log_request (call_request self method params) w.
Proof.
  intros H.
  assert (Hw := call_world self method params w). rewrite H in Hw.
  cbn in Hw. revert H.
  unfold ConduitClient._call, bind, post, lift, raise, ret.
  fold (call_request self method params).
  destruct (server _ _) as [|status text0]; [intros [=]|].
  destruct (raise_for_status status) as [[]|] eqn:Hst; [|intros [=]].
  unfold loads.
  destruct (json_loads R text0) as [envelope|] eqn:Hj; [|intros [=]].
  destruct (getitem envelope "error_code") as [code|] eqn:Hc; [|intros [=]].
  destruct (truthy code) eqn:Ht.
  { destruct (getitem envelope "error_info"); intros [=]. }
  intros [= _ <- <-]. repeat split; [|exact Hw].
  exists status, envelope, code. repeat split; try assumption.
  intros Hbad. rewrite (raise_for_status_fails _ Hbad) in Hst.
  discriminate.
Qed.

Lemma users_eq (self : conduit_client) (phids : list json) (w : world) :
  ConduitClient.users R server self phids w
  = match ConduitClient._call R server self ConduitClient.PHAB_USERS
            [(ConduitClient.PHIDS, JArr phids)] w with
    | (w', Ok (_, response)) => (w', Ok response)
    | (w', Raise e) => (w', Raise e)
    end.
Proof.
  unfold ConduitClient.users, bind, ret.
  destruct (ConduitClient._call _ _ _ _ _ _) as [w' [[p r]|e]]; reflexivity.
Qed.

Lemma transactions_eq (self : conduit_client) (ids : list json) (w : world) :
  ConduitClient.transactions R server self ids w
  = match ConduitClient._call R server self
            ConduitClient.MANIPHEST_TRANSACTIONS
            [(ConduitClient.PIDS, JArr ids)] w with
    | (w', Ok (_, response)) => (w', Ok response)
    | (w', Raise e) => (w', Raise e)
    end.
Proof.
  unfold ConduitClient.transactions, bind, ret.
  destruct (ConduitClient._call _ _ _ _ _ _) as [w' [[p r]|e]]; reflexivity.
Qed.

Lemma users_accepted (self : conduit_client) (user_id : json) (w : world)
    (text : string) :
  accepted R (server (net_log w) (users_request self user_id)) text ->
  ConduitClient.users R server self [user_id] w
  = (log_request (users_request self user_id) w, Ok text).
Proof.
  intros H. rewrite users_eq.
  unfold users_request in *. now rewrite (call_accepted _ _ _ _ _ H).
Qed.

Lemma transactions_refused (self : conduit_client) (ids : list json)
    (w : world) (info code : json) :
  refused R (server (net_log w) (transactions_request self ids)) info code ->
  ConduitClient.transactions R server self ids w
  = (log_request (transactions_request self ids) w,
     Raise (ConduitError info code)).
Proof.
  intros H. rewrite transactions_eq.
  unfold transactions_request in *. now rewrite (call_refused _ _ _ _ _ _ H).
Qed.

(** The page generator leaves the instance alone. *)
Lemma tasks_next_self (c : conduit_client) (g : ConduitClient.tasks_gen R)
    (w : world) :
  self (fst (ConduitClient.tasks_next R server c g w)) = self w.
Proof.
  assert (Hcall : forall params,
             self (fst (ConduitClient.tasks_call R server c params w))
             = self w).
  { intros params. unfold ConduitClient.tasks_call, bind, ret.
    assert (H := call_world c ConduitClient.MANIPHEST_TASKS params w).
    destruct (ConduitClient._call _ _ _ _ _ _) as [w' [[p r]|e]];
      cbn in *; now subst w'. }
  destruct g as [from_date|params r|]; cbn [ConduitClient.tasks_next].
  - apply Hcall.
  - unfold bind, lift, ret.
    destruct (loads R r) as [j|]; [|reflexivity].
    destruct (_ <- getitem j "result" ;; _)%result as [after|];
      [|reflexivity].
    destruct (truthy after); cbn [negb]; [apply Hcall | reflexivity].
  - reflexivity.
Qed.

End Calls.

(** ** The steps of the generators *)

Section Steps.

Variable R : runtime.
Variable server : list request -> request -> reply.

Lemma get_or_fetch_user_hit (user_id : json) (k : hkey) (user : json)
    (w : world) :
  hash_key user_id = Ok k ->
  users_get (_users (self w)) k = Some user ->
  Phabricator.__get_or_fetch_user R server user_id w = (w, Ok user).
Proof.
  intros Hk Hu.
  unfold Phabricator.__get_or_fetch_user, bind, lift, gets, ret.
  now rewrite Hk, Hu.
Qed.

Lemma fetch_and_parse_users_accepted (user_id : json) (w : world)
    (text : string) :
  let req := users_request (client (self w)) user_id in
  accepted R (server (net_log w) req) text ->
  Phabricator.__fetch_and_parse_users R server [user_id] w
  = (after_push text (log_request req w), Phabricator.parse_users R text).
Proof.
  intros req H.
  unfold Phabricator.__fetch_and_parse_users, bind, gets, lift.
  now rewrite (users_accepted R server _ _ _ _ H).
Qed.

Lemma get_or_fetch_user_miss (user_id : json) (k : hkey) (w : world)
    (text : string) :
  let req := users_request (client (self w)) user_id in
  hash_key user_id = Ok k ->
  users_get (_users (self w)) k = None ->
  accepted R (server (net_log w) req) text ->
  Phabricator.__get_or_fetch_user R server user_id w
  = match rbind (Phabricator.parse_users R text) Phabricator.first with
    | Ok user =>
        (set_users (fun d => users_set d k user)
                   (after_push text (log_request req w)), Ok user)
    | Raise e => (after_push text (log_request req w), Raise e)
    end.
Proof.
  intros req Hk Hu H.
  unfold Phabricator.__get_or_fetch_user, bind, lift, gets, ret.
  rewrite Hk, Hu.
  rewrite (fetch_and_parse_users_accepted _ _ _ H). fold req.
  destruct (Phabricator.parse_users R text) as [users|e]; [|reflexivity].
  cbn [rbind]. destruct (Phabricator.first users); reflexivity.
Qed.

Lemma parse_users_array (text : string) (envelope : json)
    (users : list json) :
  json_loads R text = Some envelope ->
  getitem envelope "result" = Ok (JArr users) ->
  Phabricator.parse_users R text = Ok users.
Proof.
  intros Hj Hr. unfold Phabricator.parse_users, loads.
  rewrite Hj. cbn [rbind]. now rewrite Hr.
Qed.

(** An exception raised while a task is enriched leaves [fetch]. *)
Lemma fetch_next_enrich_raises (pages : ConduitClient.tasks_gen R)
    (tasks_trans task : json) (rest : list json) (ntasks : nat)
    (w w' : world) (e : exn) :
  Phabricator.enrich_task R server tasks_trans task w = (w', Raise e) ->
  Phabricator.fetch_next R server w
    (Phabricator.FetchYielded
       (Phabricator.FetchTasksYielded pages tasks_trans (task :: rest))
       ntasks)
  = (w', Raised e, Phabricator.FetchDone).
Proof.
  intros H.
  unfold Phabricator.fetch_next, Phabricator.fetch_resume,
    Phabricator.fetch_loop, Phabricator.__fetch_tasks_next,
    Phabricator.yield_task, bind.
  now rewrite H.
Qed.

(** At a page boundary [next] runs [next_page] after the flush or the
    purge, and finishes the generator unless a task is yielded. *)
Lemma fetch_next_boundary (w wb : world) (g : Phabricator.fetch_gen R)
    (pages : ConduitClient.tasks_gen R) :
  page_boundary R w g = Some (pages, wb) ->
  exists ntasks,
    Phabricator.fetch_next R server w g
    = match Phabricator.next_page R server pages wb with
      | (w', Ok (Some task, inner)) =>
          (w', Yield task, Phabricator.FetchYielded inner ntasks)
      | (w', Ok (None, _)) => (w', StopIteration, Phabricator.FetchDone)
      | (w', Raise e) => (w', Raised e, Phabricator.FetchDone)
      end.
Proof.
  destruct g as [from_date|[d|pg tt [|t rest]|] n|]; cbn [page_boundary];
    try discriminate; intros [= <- <-].
  - exists 0.
    unfold Phabricator.fetch_next, Phabricator.fetch_resume,
      Phabricator.fetch_loop, Phabricator.__fetch_tasks_next, bind.
    unfold after_purge, Phabricator._purge_cache_queue, modify. cbn [fst].
    destruct (Phabricator.next_page _ _ _ _) as [w' [[[task|] inner]|e]];
      reflexivity.
  - exists (S n).
    unfold Phabricator.fetch_next, Phabricator.fetch_resume,
      Phabricator.fetch_loop, Phabricator.__fetch_tasks_next, bind.
    unfold after_flush, Phabricator._flush_cache_queue, modify. cbn [fst].
    destruct (Phabricator.next_page _ _ _ _) as [w' [[[task|] inner]|e]];
      reflexivity.
Qed.

(** The turn of the page loop for an empty page. *)
Lemma next_page_empty (pages pages' : ConduitClient.tasks_gen R)
    (w w1 : world) (raw : string) :
  ConduitClient.tasks_next R server (client (self w)) pages w
  = (w1, Ok (Some raw, pages')) ->
  Phabricator.parse_tasks R raw = Ok [] ->
  Phabricator.next_page R server pages w
  = (after_push raw w1, Ok (None, Phabricator.FetchTasksDone)).
Proof.
  intros Hp Ht.
  unfold Phabricator.next_page, bind, gets, lift, ret.
  rewrite Hp. cbn. now rewrite Ht.
Qed.

(** The turn of the page loop up to the transactions of the page. *)
Lemma next_page_transactions (pages pages' : ConduitClient.tasks_gen R)
    (w w1 : world) (raw : string) (task : json) (rest ids : list json) :
  ConduitClient.tasks_next R server (client (self w)) pages w
  = (w1, Ok (Some raw, pages')) ->
  Phabricator.parse_tasks R raw = Ok (task :: rest) ->
  rmap (fun t => getitem t "id") (task :: rest) = Ok ids ->
  Phabricator.next_page R server pages w
  = match Phabricator.__fetch_and_parse_tasks_transactions R server ids
            (after_push raw w1) with
    | (w2, Ok tasks_trans) =>
        Phabricator.yield_task R server pages' tasks_trans task rest w2
    | (w2, Raise e) => (w2, Raise e)
    end.
Proof.
  intros Hp Ht Hi.
  unfold Phabricator.next_page, bind, gets, lift, ret.
  rewrite Hp. cbn [Phabricator._push_cache_queue modify].
  rewrite Ht, Hi. reflexivity.
Qed.

Lemma fetch_next_done (w : world) :
  Phabricator.fetch_next R server w Phabricator.FetchDone
  = (w, StopIteration, Phabricator.FetchDone).
Proof. reflexivity. Qed.

End Steps.

(** ** The Identity Resolver on a miss *)

Section ResolverMiss.

Variable R : runtime.
Variable server : list request -> request -> reply.

(** C10. On a cache miss whose lookup the server accepts, the resolver
    returns and stores the first record of the result array; when the
    array is empty it raises [IndexError], stores nothing, and a [fetch]
    that was resolving the author of a task ends with that exception. *)
Theorem resolver_needs_a_record (user_id : json) (k : hkey) (w : world)
    (text : string) (envelope : json) :
  let req := users_request (client (self w)) user_id in
  let w1 := after_push text (log_request req w) in
  hash_key user_id = Ok k ->
  users_get (_users (self w)) k = None ->
  accepted R (server (net_log w) req) text ->
  json_loads R text = Some envelope ->
  (forall user others,
      getitem envelope "result" = Ok (JArr (user :: others)) ->
      Phabricator.__get_or_fetch_user R server user_id w
      = (set_users (fun d => users_set d k user) w1, Ok user))
  /\ (getitem envelope "result" = Ok (JArr []) ->
      Phabricator.__get_or_fetch_user R server user_id w
      = (w1, Raise IndexError)
      /\ _users (self w1) = _users (self w)
      /\ forall pages tasks_trans task rest ntasks id fields owner_id,
          getitem task "id" = Ok id ->
          getitem task "fields" = Ok fields ->
          getitem fields "authorPHID" = Ok user_id ->
          getitem fields "ownerPHID" = Ok owner_id ->
          Phabricator.fetch_next R server w
            (Phabricator.FetchYielded
               (Phabricator.FetchTasksYielded pages tasks_trans
                                              (task :: rest)) ntasks)
          = (w1, Raised IndexError, Phabricator.FetchDone)).
Proof.
  intros req w1 Hk Hu Hacc Hj.
  assert (Hmiss := get_or_fetch_user_miss R server _ _ _ _ Hk Hu Hacc).
  cbv zeta in Hmiss. fold req in Hmiss. fold w1 in Hmiss.
  split.
  - intros user others Hr. rewrite Hmiss.
    now rewrite (parse_users_array R _ _ _ Hj Hr).
  - intros Hr.
    rewrite (parse_users_array R _ _ _ Hj Hr) in Hmiss.
    cbn [rbind Phabricator.first] in Hmiss.
    split; [exact Hmiss|]. split; [reflexivity|].
    intros pages tasks_trans task rest ntasks id fields owner_id
      Hid Hf Ha Ho.
    apply fetch_next_enrich_raises.
    unfold Phabricator.enrich_task, bind, lift.
    rewrite Hid, Hf. cbn [rbind]. rewrite Ha, Ho.
    now rewrite Hmiss.
Qed.

End ResolverMiss.

(** ** Termination of the page walk *)

Section Pagination.

Variable R : runtime.
Variable server : list request -> request -> reply.

Lemma tasks_next_cursor (c : conduit_client) (params : dict) (r : string)
    (w : world) :
  ConduitClient.tasks_next R server c (ConduitClient.TasksYielded params r) w
  = match cursor R r with
    | Ok after =>
        if negb (truthy after) then (w, Ok (None, ConduitClient.TasksDone))
        else ConduitClient.tasks_call R server c
               (dict_set params ConduitClient.PAFTER after) w
    | Raise e => (w, Raise e)
    end.
Proof.
  cbn [ConduitClient.tasks_next]. unfold cursor, bind, lift, ret.
  destruct (loads R r) as [j|e]; [|reflexivity]. cbn [rbind].
  destruct (_ <- getitem j "result" ;; _)%result as [after|e];
    [|reflexivity].
  destruct (truthy after); reflexivity.
Qed.

(** The turn of a task of the page. *)
Lemma fetch_next_task (pages : ConduitClient.tasks_gen R)
    (tasks_trans task : json) (rest : list json) (ntasks : nat) (w : world) :
  Phabricator.fetch_next R server w
    (Phabricator.FetchYielded
       (Phabricator.FetchTasksYielded pages tasks_trans (task :: rest))
       ntasks)
  = match Phabricator.enrich_task R server tasks_trans task w with
    | (w', Ok task') =>
        (w', Yield task',
         Phabricator.FetchYielded
           (Phabricator.FetchTasksYielded pages tasks_trans rest)
           (S ntasks))
    | (w', Raise e) => (w', Raised e, Phabricator.FetchDone)
    end.
Proof.
  unfold Phabricator.fetch_next, Phabricator.fetch_resume,
    Phabricator.fetch_loop, Phabricator.__fetch_tasks_next,
    Phabricator.yield_task, bind, ret.
  destruct (Phabricator.enrich_task R server tasks_trans task w)
    as [w' [task'|e]]; reflexivity.
Qed.

(** Once the page in hand has an empty cursor, a consumer's loop ends
    within one call of [next] for each task left in the page and one
    more. *)
Lemma last_page_bound (params : dict) (r : string) (after tasks_trans : json)
    (rest : list json) :
  cursor R r = Ok after -> truthy after = false ->
  forall (ntasks : nat) (w : world),
    snd (fst (Phabricator.consume R server (S (List.length rest)) w
                (Phabricator.FetchYielded
                   (Phabricator.FetchTasksYielded
                      (ConduitClient.TasksYielded params r) tasks_trans rest)
                   ntasks)))
    <> Phabricator.Suspended.
Proof.
  intros Hc Ht. induction rest as [|task rest IH]; intros ntasks w.
  - cbn [List.length Phabricator.consume].
    destruct (fetch_next_boundary R server w (after_flush w)
                (Phabricator.FetchYielded
                   (Phabricator.FetchTasksYielded
                      (ConduitClient.TasksYielded params r) tasks_trans [])
                   ntasks)
                (ConduitClient.TasksYielded params r) eq_refl) as [n ->].
    unfold Phabricator.next_page, bind, gets.
    rewrite tasks_next_cursor, Hc, Ht. cbn. discriminate.
  - cbn [List.length]. remember (S (List.length rest)) as fuel.
    cbn [Phabricator.consume]. rewrite fetch_next_task.
    destruct (Phabricator.enrich_task R server tasks_trans task w)
      as [w' [task'|e]]; [|cbn; discriminate].
    specialize (IH (S ntasks) w'). subst fuel.
    destruct (Phabricator.consume R server _ w' _)
      as [[[w'' tasks] ending] g'']. exact IH.
Qed.

(** C4. The page generator, resumed after a page whose cursor is empty,
    stops without another request (with the exception of the lookup when
    the cursor field is missing), and stays stopped; [fetch] then stops
    too, so that a consumer's loop ends within one call of [next] for
    each task left in the page and one more.  [fetch] also stops at the
    first page with no task, whatever its cursor, and a consumer's loop
    over a finished [fetch] ends at once. *)
Theorem page_walk_terminates :
  (forall c params r w after,
      cursor R r = Ok after -> truthy after = false ->
      ConduitClient.tasks_next R server c
        (ConduitClient.TasksYielded params r) w
      = (w, Ok (None, ConduitClient.TasksDone)))
  /\ (forall c params r w e,
         cursor R r = Raise e ->
         ConduitClient.tasks_next R server c
           (ConduitClient.TasksYielded params r) w
         = (w, Raise e))
  /\ (forall c w,
         ConduitClient.tasks_next R server c ConduitClient.TasksDone w
         = (w, Ok (None, ConduitClient.TasksDone)))
  /\ (forall w g params r wb after,
         page_boundary R w g = Some (ConduitClient.TasksYielded params r, wb) ->
         cursor R r = Ok after -> truthy after = false ->
         Phabricator.fetch_next R server w g
         = (wb, StopIteration, Phabricator.FetchDone))
  /\ (forall w params r after tasks_trans rest ntasks,
         cursor R r = Ok after -> truthy after = false ->
         snd (fst (Phabricator.consume R server (S (List.length rest)) w
                     (Phabricator.FetchYielded
                        (Phabricator.FetchTasksYielded
                           (ConduitClient.TasksYielded params r)
                           tasks_trans rest)
                        ntasks)))
         <> Phabricator.Suspended)
  /\ (forall w g pages wb w1 raw pages',
         page_boundary R w g = Some (pages, wb) ->
         ConduitClient.tasks_next R server (client (self wb)) pages wb
         = (w1, Ok (Some raw, pages')) ->
         Phabricator.parse_tasks R raw = Ok [] ->
         Phabricator.fetch_next R server w g
         = (after_push raw w1, StopIteration, Phabricator.FetchDone))
  /\ (forall w fuel,
         Phabricator.consume R server (S fuel) w Phabricator.FetchDone
         = (w, [], Phabricator.Exhausted, Phabricator.FetchDone)).
Proof.
  repeat split.
  - intros c params r w after Hc Ht.
    rewrite tasks_next_cursor, Hc, Ht. reflexivity.
  - intros c params r w e Hc. rewrite tasks_next_cursor, Hc. reflexivity.
  - intros w g params r wb after Hb Hc Ht.
    destruct (fetch_next_boundary R server _ _ _ _ Hb) as [n ->].
    unfold Phabricator.next_page, bind, gets.
    rewrite tasks_next_cursor, Hc, Ht. reflexivity.
  - intros w params r after tasks_trans rest ntasks Hc Ht.
    now apply (last_page_bound params r after).
  - intros w g pages wb w1 raw pages' Hb Hp Ht.
    destruct (fetch_next_boundary R server _ _ _ _ Hb) as [n ->].
    now rewrite (next_page_empty R server _ _ _ _ _ Hp Ht).
Qed.

End Pagination.

(** ** A page whose transactions cannot be fetched *)

Section PageAbort.

Variable R : runtime.
Variable server : list request -> request -> reply.

Lemma fetch_and_parse_tasks_transactions_refused (ids : list json)
    (w : world) (info code : json) :
  let req := transactions_request (client (self w)) ids in
  refused R (server (net_log w) req) info code ->
  Phabricator.__fetch_and_parse_tasks_transactions R server ids w
  = (log_request req w, Raise (ConduitError info code)).
Proof.
  intros req H.
  unfold Phabricator.__fetch_and_parse_tasks_transactions, bind, gets.
  now rewrite (transactions_refused R server _ _ _ _ _ H).
Qed.

(** C5. Once a page with tasks has been received, an exception of the
    transactions stage (the bulk lookup, or the resolution of an author)
    leaves [fetch] before any task of the page is yielded: [next] raises
    it and a consumer receives no task.  In particular a remote error on
    the bulk lookup is raised as [ConduitError] with the server's message
    and code, the lookup being the last request sent. *)
Theorem transactions_failure_aborts_page (w wb w1 : world)
    (g : Phabricator.fetch_gen R) (pages pages' : ConduitClient.tasks_gen R)
    (raw : string) (task : json) (rest ids : list json) :
  let w2 := after_push raw w1 in
  let req := transactions_request (client (self w2)) ids in
  page_boundary R w g = Some (pages, wb) ->
  ConduitClient.tasks_next R server (client (self wb)) pages wb
  = (w1, Ok (Some raw, pages')) ->
  Phabricator.parse_tasks R raw = Ok (task :: rest) ->
  rmap (fun t => getitem t "id") (task :: rest) = Ok ids ->
  (forall w3 e,
      Phabricator.__fetch_and_parse_tasks_transactions R server ids w2
      = (w3, Raise e) ->
      Phabricator.fetch_next R server w g
      = (w3, Raised e, Phabricator.FetchDone)
      /\ forall fuel,
          Phabricator.consume R server (S fuel) w g
          = (w3, [], Phabricator.Failed e, Phabricator.FetchDone))
  /\ (forall info code,
         refused R (server (net_log w2) req) info code ->
         Phabricator.fetch_next R server w g
         = (log_request req w2, Raised (ConduitError info code),
            Phabricator.FetchDone)
         /\ forall fuel,
             Phabricator.consume R server (S fuel) w g
             = (log_request req w2, [],
                Phabricator.Failed (ConduitError info code),
                Phabricator.FetchDone)).
Proof.
  intros w2 req Hb Hp Ht Hi.
  assert (Hgen : forall w3 e,
             Phabricator.__fetch_and_parse_tasks_transactions R server ids w2
             = (w3, Raise e) ->
             Phabricator.fetch_next R server w g
             = (w3, Raised e, Phabricator.FetchDone)
             /\ forall fuel,
                 Phabricator.consume R server (S fuel) w g
                 = (w3, [], Phabricator.Failed e, Phabricator.FetchDone)).
  { intros w3 e He.
    assert (Hn : Phabricator.fetch_next R server w g
                 = (w3, Raised e, Phabricator.FetchDone)).
    { destruct (fetch_next_boundary R server _ _ _ _ Hb) as [n ->].
      rewrite (next_page_transactions R server _ _ _ _ _ _ _ _ Hp Ht Hi).
      fold w2. now rewrite He. }
    split; [exact Hn|]. intros fuel. cbn [Phabricator.consume].
    now rewrite Hn. }
  split; [exact Hgen|].
  intros info code Href. apply Hgen.
  now apply fetch_and_parse_tasks_transactions_refused.
Qed.

End PageAbort.

(** ** The last, empty page *)

Section LastPage.

Variable R : runtime.
Variable server : list request -> request -> reply.

Lemma page_boundary_queue (w wb : world) (g : Phabricator.fetch_gen R)
    (pages : ConduitClient.tasks_gen R) :
  page_boundary R w g = Some (pages, wb) -> cache_queue (self wb) = [].
Proof.
  destruct g as [from_date|[d|pg tt [|t rest]|] n|]; cbn [page_boundary];
    try discriminate; intros [= <- <-]; reflexivity.
Qed.

Lemma consume_done (fuel : nat) (w : world) :
  fst (fst (fst (Phabricator.consume R server fuel w Phabricator.FetchDone)))
  = w.
Proof. destruct fuel; reflexivity. Qed.

(** C9. When the page received at a page boundary has no task, [fetch]
    stops with that page as the only entry of the queue; nothing has been
    stored since the boundary, the world stays as it is however long the
    finished generator is consumed, and the purge that opens the next call
    of [fetch] empties the queue without storing the entry. *)
Theorem empty_page_stays_queued (w wb w1 : world)
    (g : Phabricator.fetch_gen R) (pages pages' : ConduitClient.tasks_gen R)
    (raw : string) :
  let w' := after_push raw w1 in
  page_boundary R w g = Some (pages, wb) ->
  ConduitClient.tasks_next R server (client (self wb)) pages wb
  = (w1, Ok (Some raw, pages')) ->
  Phabricator.parse_tasks R raw = Ok [] ->
  Phabricator.fetch_next R server w g
  = (w', StopIteration, Phabricator.FetchDone)
  /\ cache_queue (self w') = [raw]
  /\ cache (self w') = cache (self wb)
  /\ (forall fuel,
         fst (fst (fst (Phabricator.consume R server fuel w'
                                            Phabricator.FetchDone))) = w')
  /\ (forall from_date,
         page_boundary R w' (Phabricator.FetchCreated R from_date)
         = Some (ConduitClient.TasksCreated R (datetime_to_utc R from_date),
                 after_purge w')
         /\ cache_queue (self (after_purge w')) = []
         /\ cache (self (after_purge w')) = cache (self w')).
Proof.
  intros w' Hb Hp Ht.
  assert (Hs : self w1 = self wb).
  { assert (H := tasks_next_self R server (client (self wb)) pages wb).
    now rewrite Hp in H. }
  split; [|split; [|split; [|split]]].
  - destruct (fetch_next_boundary R server _ _ _ _ Hb) as [n ->].
    now rewrite (next_page_empty R server _ _ _ _ _ Hp Ht).
  - subst w'. cbn. rewrite Hs.
    now rewrite (page_boundary_queue _ _ _ _ Hb).
  - subst w'. cbn. now rewrite Hs.
  - intros fuel. apply consume_done.
  - intros from_date. repeat split.
Qed.

End LastPage.

(** ** Dictionaries *)

Lemma dict_get_set_same (d : dict) (k : string) (v : json) :
  dict_get (dict_set d k v) k = Some v.
Proof.
  induction d as [|[k' v'] d IH]; cbn.
  - now rewrite String.eqb_refl.
  - destruct (String.eqb k' k) eqn:Hk; cbn; now rewrite Hk.
Qed.

Lemma dict_get_set_other (d : dict) (k k' : string) (v : json) :
  k' <> k -> dict_get (dict_set d k v) k' = dict_get d k'.
Proof.
  intros Hne. induction d as [|[k0 v0] d IH]; cbn.
  - destruct (String.eqb k k') eqn:Hk; [|reflexivity].
    apply String.eqb_eq in Hk. congruence.
  - destruct (String.eqb k0 k) eqn:Hk; cbn.
    + apply String.eqb_eq in Hk. subst k0.
      destruct (String.eqb k k') eqn:Hk'; [|reflexivity].
      apply String.eqb_eq in Hk'. congruence.
    + now rewrite IH.
Qed.

(** An assignment keeps the keys in place and adds at most its own. *)
Lemma dict_keys_set (d : dict) (k : string) (v : json) :
  dict_keys (dict_set d k v)
  = dict_keys d ++ match dict_get d k with Some _ => [] | None => [k] end.
Proof.
  induction d as [|[k' v'] d IH]; cbn; [reflexivity|].
  destruct (String.eqb k' k) eqn:Hk; cbn.
  - now rewrite app_nil_r.
  - f_equal. exact IH.
Qed.

Lemma getitem_Ok (v x : json) (k : string) :
  getitem v k = Ok x -> exists d, v = JObj d /\ dict_get d k = Some x.
Proof.
  destruct v; cbn; try discriminate.
  destruct (dict_get l k) eqn:H; [|discriminate].
  intros [= <-]. eauto.
Qed.

(** ** Enrichment of a task *)

Section Enrichment.

Variable R : runtime.
Variable server : list request -> request -> reply.

(** What [enrich_task] returns: the task with the two resolved users
    assigned in its fields and the transactions of its identifier. *)
Lemma enrich_task_returns (tasks_trans task task' : json) (w w' : world) :
  Phabricator.enrich_task R server tasks_trans task w = (w', Ok task') ->
  exists d fields id author_id owner_id author owner trans w1,
    task = JObj d
    /\ dict_get d "id" = Some id
    /\ dict_get d "fields" = Some (JObj fields)
    /\ dict_get fields "authorPHID" = Some author_id
    /\ dict_get fields "ownerPHID" = Some owner_id
    /\ Phabricator.__get_or_fetch_user R server author_id w = (w1, Ok author)
    /\ Phabricator.__get_or_fetch_user R server owner_id w1 = (w', Ok owner)
    /\ getitem tasks_trans (str R id) = Ok trans
    /\ task' =
       JObj (dict_set
               (dict_set d "fields"
                  (JObj (dict_set (dict_set fields "authorData" author)
                                  "ownerData" owner)))
               "transactions" trans).
Proof.
  unfold Phabricator.enrich_task, bind, lift.
  destruct (getitem task "id") as [id|] eqn:Hid; [|discriminate].
  destruct (getitem_Ok _ _ _ Hid) as (d & -> & Hd).
  destruct (getitem (JObj d) "fields") as [fs|] eqn:Hf; [|discriminate].
  cbn [rbind].
  destruct (getitem fs "authorPHID") as [author_id|] eqn:Ha; [|discriminate].
  destruct (getitem fs "ownerPHID") as [owner_id|] eqn:Ho; [|discriminate].
  destruct (getitem_Ok _ _ _ Ha) as (fields & -> & Ha').
  destruct (getitem_Ok _ _ _ Ho) as (fields0 & [= <-] & Ho').
  destruct (getitem_Ok _ _ _ Hf) as (d0 & [= <-] & Hf').
  destruct (Phabricator.__get_or_fetch_user R server author_id w)
    as [w1 [author|]] eqn:Hau; [|discriminate].
  unfold Phabricator.set_field. rewrite Hf. cbn [rbind setitem].
  destruct (Phabricator.__get_or_fetch_user R server owner_id w1)
    as [w2 [owner|]] eqn:How; [|discriminate].
  cbn [getitem]. rewrite dict_get_set_same. cbn [rbind setitem].
  destruct (getitem tasks_trans (str R id)) as [trans|] eqn:Ht;
    [|discriminate].
  intros [= <- <-].
  exists d, fields, id, author_id, owner_id, author, owner, trans, w1.
  repeat split; try assumption.
  f_equal. f_equal.
  clear. induction d as [|[k v] d IH]; cbn.
  - reflexivity.
  - destruct (String.eqb k "fields") eqn:Hk; cbn; rewrite Hk.
    + reflexivity.
    + now rewrite IH.
Qed.

(** C8. Parsing a listing response gives the array [result.data] as it
    was decoded, so serialising the parsed tasks is serialising that
    array.  Enriching a task keeps every key of the task and of its
    fields in place, adds at most ['transactions'] to the task and
    ['authorData'] and ['ownerData'] to its fields, and leaves the value
    of every other key as it was. *)
Theorem enrichment_only_adds :
  (forall raw envelope result tasks,
      json_loads R raw = Some envelope ->
      getitem envelope "result" = Ok result ->
      getitem result "data" = Ok (JArr tasks) ->
      Phabricator.parse_tasks R raw = Ok tasks
      /\ forall serialise : json -> string,
          rbind (Phabricator.parse_tasks R raw)
                (fun ts => Ok (serialise (JArr ts)))
          = rbind (getitem result "data") (fun data => Ok (serialise data)))
  /\ (forall tasks_trans task task' w w',
         Phabricator.enrich_task R server tasks_trans task w
         = (w', Ok task') ->
         only_adds task task').
Proof.
  split.
  - intros raw envelope result tasks Hj Hr Hd.
    assert (Hp : Phabricator.parse_tasks R raw = Ok tasks).
    { unfold Phabricator.parse_tasks, loads. rewrite Hj. cbn [rbind].
      rewrite Hr. cbn [rbind]. now rewrite Hd. }
    split; [exact Hp|]. intros serialise. now rewrite Hp, Hd.
  - intros tasks_trans task task' w w' H.
    destruct (enrich_task_returns _ _ _ _ _ H)
      as (d & fields & id & aid & oid & author & owner & trans & w1
          & -> & Hid & Hf & _ & _ & _ & _ & _ & ->).
    unfold only_adds. eexists d, fields, _, _, _, _.
    split; [reflexivity|]. split; [exact Hf|]. split; [reflexivity|].
    split.
    { rewrite dict_get_set_other by discriminate.
      apply dict_get_set_same. }
    split.
    { rewrite dict_keys_set, dict_keys_set, Hf, app_nil_r. reflexivity. }
    split.
    { destruct (dict_get _ "transactions"); [apply incl_nil_l|].
      apply incl_refl. }
    split.
    { rewrite dict_keys_set, dict_keys_set, <- app_assoc. reflexivity. }
    split.
    { intros k Hk. apply in_app_or in Hk as [Hk|Hk].
      - destruct (dict_get fields "authorData"); cbn in Hk; intuition.
        subst. now left.
      - destruct (dict_get _ "ownerData"); cbn in Hk; intuition.
        subst. right. now left. }
    split.
    { intros k Hk1 Hk2. now rewrite !dict_get_set_other. }
    intros k Hk1 Hk2. now rewrite !dict_get_set_other.
Qed.

End Enrichment.

(** ** The Identity Resolver *)

Lemma hkey_eqb_eq (a b : hkey) : hkey_eqb a b = true <-> a = b.
Proof.
  destruct a, b; cbn; split; try discriminate; try reflexivity.
  - intros H. apply Z.eqb_eq in H. now subst.
  - intros [= ->]. apply Z.eqb_refl.
  - intros H. apply String.eqb_eq in H. now subst.
  - intros [= ->]. apply String.eqb_refl.
Qed.

Lemma hkey_eqb_refl (a : hkey) : hkey_eqb a a = true.
Proof. now apply hkey_eqb_eq. Qed.

Lemma users_get_set_same (d : users_dict) (k : hkey) (v : json) :
  users_get (users_set d k v) k = Some v.
Proof.
  induction d as [|[k' v'] d IH]; cbn.
  - now rewrite hkey_eqb_refl.
  - destruct (hkey_eqb k' k) eqn:Hk; cbn; now rewrite Hk.
Qed.

Lemma users_get_set_other (d : users_dict) (k k' : hkey) (v : json) :
  k' <> k -> users_get (users_set d k v) k' = users_get d k'.
Proof.
  intros Hne. induction d as [|[k0 v0] d IH]; cbn.
  - destruct (hkey_eqb k k') eqn:Hk; [|reflexivity].
    apply hkey_eqb_eq in Hk. congruence.
  - destruct (hkey_eqb k0 k) eqn:Hk; cbn.
    + apply hkey_eqb_eq in Hk. subst k0.
      destruct (hkey_eqb k k') eqn:Hk'; [|reflexivity].
      apply hkey_eqb_eq in Hk'. congruence.
    + now rewrite IH.
Qed.

Section Resolver.

Variable R : runtime.
Variable server : list request -> request -> reply.

Lemma get_or_fetch_user_resolution (user_id : json) (w : world) :
  resolution R server user_id w
    (Phabricator.__get_or_fetch_user R server user_id w).
Proof.
  destruct (hash_key user_id) as [k|e] eqn:Hk.
  2:{ unfold Phabricator.__get_or_fetch_user, bind, lift. rewrite Hk.
      destruct user_id; try discriminate; injection Hk as <-;
        now apply res_unhashable. }
  destruct (users_get (_users (self w)) k) as [user|] eqn:Hu.
  { rewrite (get_or_fetch_user_hit R server _ _ _ _ Hk Hu).
    eapply res_hit; eassumption. }
  destruct (ConduitClient.users R server (client (self w)) [user_id] w)
    as [w1 [text|e]] eqn:Hcall.
  - assert (Hacc : accepted R
                     (server (net_log w)
                             (users_request (client (self w)) user_id)) text).
    { rewrite users_eq in Hcall.
      destruct (ConduitClient._call _ _ _ _ _ _) as [w2 [[p t]|e]] eqn:Hc;
        [|discriminate].
      injection Hcall as <- <-.
      now destruct (call_returns_inv R server _ _ _ _ _ _ _ Hc). }
    rewrite (get_or_fetch_user_miss R server _ _ _ _ Hk Hu Hacc).
    destruct (rbind _ _) as [user|e] eqn:Hp.
    + eapply res_fetched; eassumption.
    + eapply res_no_record; eassumption.
  - assert (Hw : w1 = log_request (users_request (client (self w)) user_id) w).
    { rewrite users_eq in Hcall.
      assert (H := call_world R server (client (self w))
                     ConduitClient.PHAB_USERS
                     [(ConduitClient.PHIDS, JArr [user_id])] w).
      destruct (ConduitClient._call _ _ _ _ _ _) as [w2 [[p t]|e0]];
        cbn in H; injection Hcall as <- _; exact H. }
    subst w1.
    unfold Phabricator.__get_or_fetch_user, bind, lift, gets.
    rewrite Hk, Hu.
    unfold Phabricator.__fetch_and_parse_users, bind, gets.
    rewrite Hcall. eapply res_call_failed; eassumption.
Qed.

End Resolver.

(** ** The stages of a page, for any invariant

    Whatever invariant [I] of the world the three network stages keep (the
    page request with its push, the bulk transactions lookup with its
    push, and the resolver), the methods built from them keep it too, and
    what the resolver establishes of the users it returns ([G]) holds of
    every user placed in a task or a transaction.  [J] is what holds when
    a stage raises. *)

Lemma hoare_bind_lift {A B : Type} (P : world -> Prop) (r : result A)
    (k : A -> M B) Q (E : exn -> world -> Prop) :
  (forall a, r = Ok a -> hoare P (k a) Q E) ->
  (forall e, r = Raise e -> forall w, P w -> E e w) ->
  hoare P (bind (lift r) k) Q E.
Proof.
  intros Hk He w Hw. unfold bind, lift.
  destruct r as [a|e]; [apply (Hk a eq_refl w Hw) | apply (He e eq_refl w Hw)].
Qed.

Lemma hoare_bind_gets {A B : Type} (P : world -> Prop) (f : world -> A)
    (k : A -> M B) Q (E : exn -> world -> Prop) :
  (forall a, hoare (fun w => P w /\ f w = a) (k a) Q E) ->
  hoare P (bind (gets f) k) Q E.
Proof. intros Hk w Hw. unfold bind, gets. now apply (Hk (f w) w). Qed.

Lemma hoare_bind_modify {B : Type} (P P' : world -> Prop)
    (f : world -> world) (k : unit -> M B) Q (E : exn -> world -> Prop) :
  (forall w, P w -> P' (f w)) ->
  hoare P' (k tt) Q E ->
  hoare P (bind (modify f) k) Q E.
Proof. intros Hf Hk w Hw. unfold bind, modify. apply Hk, Hf, Hw. Qed.

Lemma hoare_mapM2 {A B : Type} (I : world -> Prop) (f : A -> M B)
    (l : list A) (G : A -> B -> Prop) (E : exn -> world -> Prop) :
  (forall x, In x l -> hoare I (f x) (fun y w => G x y /\ I w) E) ->
  hoare I (mapM f l) (fun ys w => Forall2 G l ys /\ I w) E.
Proof.
  induction l as [|x l IH]; intros Hf.
  - apply hoare_ret. auto.
  - cbn [mapM]. eapply hoare_bind; [apply Hf; now left|].
    intros y w [Hy Hw]. unfold bind.
    assert (IH' := IH (fun x Hx => Hf x (or_intror Hx)) w Hw).
    destruct (mapM f l w) as [w' [ys|e]]; cbn; [|exact IH'].
    destruct IH' as [Hys Hw']. split; [constructor|]; assumption.
Qed.

Lemma bind_push {B : Type} (raw : string) (k : unit -> M B) (w : world) :
  bind (Phabricator._push_cache_queue raw) k w = k tt (after_push raw w).
Proof. reflexivity. Qed.

Section Stages.

Variable R : runtime.
Variable server : list request -> request -> reply.
Variables I J : world -> Prop.
Variable G : json -> Prop.
Variable T : string -> Prop.

Hypothesis IJ : forall w, I w -> J w.

Hypothesis resolver_ok : forall user_id,
  hoare I (Phabricator.__get_or_fetch_user R server user_id)
        (fun user w => G user /\ I w) (fun _ => J).

Hypothesis transactions_ok : forall ids w, I w ->
  match ConduitClient.transactions R server (client (self w)) ids w with
  | (w', Ok raw) => T raw /\ I (after_push raw w')
  | (w', Raise _) => J w'
  end.

Hypothesis pages_ok : forall pages w, I w ->
  match ConduitClient.tasks_next R server (client (self w)) pages w with
  | (w', Ok (Some raw, _)) => I (after_push raw w')
  | (w', Ok (None, _)) => I w'
  | (w', Raise _) => J w'
  end.

Lemma stage_resolve_transaction (tt : json) :
  hoare I (Phabricator.resolve_transaction R server tt)
        (fun tt' w => carries_author G tt' /\ I w) (fun _ => J).
Proof.
  unfold Phabricator.resolve_transaction.
  apply hoare_bind_lift; [|auto]. intros author_id Ha.
  eapply hoare_bind; [apply resolver_ok|].
  intros author. apply hoare_lift. intros w [Hg Hw].
  destruct (getitem_Ok _ _ _ Ha) as (d & -> & _). cbn [setitem].
  split; [|exact Hw]. exists author. split; [|exact Hg].
  cbn [getitem]. now rewrite dict_get_set_same.
Qed.

Lemma stage_resolve_transactions (trans : json) :
  hoare I (Phabricator.resolve_transactions R server trans)
        (fun trans' w => resolved G trans trans' /\ I w) (fun _ => J).
Proof.
  unfold Phabricator.resolve_transactions.
  apply hoare_bind_lift; [|auto]. intros tts Ht.
  eapply hoare_bind.
  { apply hoare_mapM with (G := carries_author G).
    intros tt _. apply stage_resolve_transaction. }
  intros tts'. apply hoare_ret. intros w [Hc Hw].
  split; [|exact Hw]. now exists tts'.
Qed.

Lemma stage_transactions (ids : list json) :
  hoare I (Phabricator.__fetch_and_parse_tasks_transactions R server ids)
        (fun tasks_trans w => resolved_page R T G tasks_trans /\ I w)
        (fun _ => J).
Proof.
  intros w Hw.
  unfold Phabricator.__fetch_and_parse_tasks_transactions.
  unfold bind at 1, gets at 1. unfold bind at 1.
  assert (Ht := transactions_ok ids w Hw).
  destruct (ConduitClient.transactions _ _ _ _ _) as [w1 [raw|e]];
    [|exact Ht].
  destruct Ht as [Hraw Hw1].
  rewrite bind_push.
  revert Hw1. generalize (after_push raw w1). clear w w1 Hw. intros w Hw.
  unfold bind at 1, lift at 1.
  destruct (Phabricator.parse_tasks_transactions R raw) as [tt|e] eqn:Hp;
    [|auto].
  destruct tt as [| | | | |d]; try (cbn; auto).
  assert (Hm := hoare_mapM2 I
    (fun kv => (trans <- Phabricator.resolve_transactions R server (snd kv) ;;
                ret (fst kv, trans))%monad) d
    (fun kv kv' => fst kv' = fst kv /\ resolved G (snd kv) (snd kv'))
    (fun _ => J)).
  unfold bind at 1.
  match goal with |- match (match ?m with _ => _ end) with _ => _ end =>
    assert (Hm' : match m with
                  | (w', Ok d') =>
                      Forall2 (fun kv kv' => fst kv' = fst kv
                                 /\ resolved G (snd kv) (snd kv')) d d'
                      /\ I w'
                  | (w', Raise _) => J w'
                  end);
    [|destruct m as [w' [d'|e]]]
  end.
  - apply Hm; [|exact Hw]. intros kv _.
    eapply hoare_bind; [apply stage_resolve_transactions|].
    intros trans. apply hoare_ret. intros w0 [Hr Hw0]. auto.
  - cbn. destruct Hm' as [Hd Hw']. split; [|exact Hw'].
    exists raw, d, d'. auto.
  - exact Hm'.
Qed.

Lemma stage_enrich_task (tasks_trans task : json) :
  hoare I (Phabricator.enrich_task R server tasks_trans task)
        (fun task' w => enriched_from R G tasks_trans task' /\ I w)
        (fun _ => J).
Proof.
  intros w Hw.
  destruct (Phabricator.enrich_task R server tasks_trans task w)
    as [w' [task'|e]] eqn:Hrun.
  - destruct (enrich_task_returns _ _ _ _ _ _ _ Hrun)
      as (d & fields & id & aid & oid & author & owner & trans & w1
          & -> & Hid & Hf & _ & _ & Hau & How & Ht & ->).
    assert (H1 := hoare_run _ _ _ _ _ _ _ (resolver_ok aid) Hw Hau).
    destruct H1 as [Ga Hw1].
    assert (H2 := hoare_run _ _ _ _ _ _ _ (resolver_ok oid) Hw1 How).
    destruct H2 as [Go Hw'].
    split; [|exact Hw'].
    exists (dict_set
              (dict_set d "fields"
                 (JObj (dict_set (dict_set fields "authorData" author)
                                 "ownerData" owner)))
              "transactions" trans),
      (dict_set (dict_set fields "authorData" author) "ownerData" owner),
      id, author, owner, trans.
    split; [reflexivity|]. split.
    { now rewrite !dict_get_set_other by discriminate. }
    split.
    { rewrite dict_get_set_other by discriminate. apply dict_get_set_same. }
    split.
    { rewrite dict_get_set_other by discriminate. apply dict_get_set_same. }
    split; [exact Ga|]. split; [apply dict_get_set_same|].
    split; [exact Go|]. split; [exact Ht|]. apply dict_get_set_same.
  - revert Hrun. unfold Phabricator.enrich_task.
    unfold bind at 1, lift at 1.
    destruct (getitem task "id") as [id|]; [|intros [= <- _]; auto].
    unfold bind at 1, lift at 1.
    destruct (_ <- getitem task "fields" ;; _)%result as [aid|];
      [|intros [= <- _]; auto].
    unfold bind at 1, lift at 1.
    destruct (_ <- getitem task "fields" ;; _)%result as [oid|];
      [|intros [= <- _]; auto].
    unfold bind at 1.
    assert (H1 := resolver_ok aid w Hw).
    destruct (Phabricator.__get_or_fetch_user R server aid w)
      as [w1 [author|]]; [|intros [= <- _]; auto].
    destruct H1 as [_ Hw1].
    unfold bind at 1, lift at 1.
    destruct (Phabricator.set_field task "authorData" author) as [task1|];
      [|intros [= <- _]; auto].
    unfold bind at 1.
    assert (H2 := resolver_ok oid w1 Hw1).
    destruct (Phabricator.__get_or_fetch_user R server oid w1)
      as [w2 [owner|]]; [|intros [= <- _]; auto].
    destruct H2 as [_ Hw2].
    unfold bind at 1, lift at 1.
    destruct (Phabricator.set_field task1 "ownerData" owner) as [task2|];
      [|intros [= <- _]; auto].
    unfold bind at 1, lift at 1.
    destruct (getitem tasks_trans _) as [trans|]; [|intros [= <- _]; auto].
    unfold lift. intros [= <- _]. auto.
Qed.

Lemma stage_yield_task (pages : ConduitClient.tasks_gen R)
    (tasks_trans task : json) (rest : list json) :
  resolved_page R T G tasks_trans ->
  hoare I (Phabricator.yield_task R server pages tasks_trans task rest)
        (fun r w => turn_ok R T G r /\ I w) (fun _ => J).
Proof.
  intros Htt. unfold Phabricator.yield_task.
  eapply hoare_bind; [apply stage_enrich_task|].
  intros task'. apply hoare_ret. intros w [He Hw].
  split; [|exact Hw]. split; [exact Htt|exact He].
Qed.

Lemma stage_next_page (pages : ConduitClient.tasks_gen R) :
  hoare I (Phabricator.next_page R server pages)
        (fun r w => turn_ok R T G r /\ I w) (fun _ => J).
Proof.
  intros w Hw. unfold Phabricator.next_page.
  unfold bind at 1, gets at 1. unfold bind at 1.
  assert (Hp := pages_ok pages w Hw).
  destruct (ConduitClient.tasks_next _ _ _ _ _) as [w1 [[[raw|] pages']|e]];
    [| |exact Hp].
  2:{ cbn. repeat split. exact Hp. }
  rewrite bind_push.
  revert Hp. generalize (after_push raw w1). clear w w1 Hw. intros w Hw.
  unfold bind at 1, lift at 1.
  destruct (Phabricator.parse_tasks R raw) as [[|task rest]|e]; [| |auto].
  { cbn. repeat split. exact Hw. }
  unfold bind at 1, lift at 1.
  destruct (rmap _ _) as [ids|e]; [|auto].
  unfold bind at 1.
  assert (Ht := stage_transactions ids w Hw).
  destruct (Phabricator.__fetch_and_parse_tasks_transactions _ _ _ _)
    as [w2 [tasks_trans|e]]; [|exact Ht].
  destruct Ht as [Htt Hw2].
  apply (stage_yield_task pages' tasks_trans task rest Htt w2 Hw2).
Qed.

End Stages.

(** ** One lookup per user and session *)

Lemma URL_eqb (base m m' : string) :
  String.eqb (ConduitClient.URL base m) (ConduitClient.URL base m')
  = String.eqb m m'.
Proof.
  unfold ConduitClient.URL.
  induction base as [|a base IH]; cbn.
  - reflexivity.
  - rewrite Ascii.eqb_refl. exact IH.
Qed.

Section SessionLookups.

Variable R : runtime.
Variable server : list request -> request -> reply.
Variable c : conduit_client.
Variable k : hkey.
Variable log0 : list request.

Lemma user_lookups_snoc (log : list request) (req : request) :
  user_lookups c k (log ++ [req])
  = user_lookups c k log + (if is_user_lookup c k req then 1 else 0).
Proof.
  unfold user_lookups. rewrite filter_app, length_app. cbn.
  destruct (is_user_lookup c k req); reflexivity.
Qed.

Lemma is_user_lookup_other (method : string) (params : dict) :
  String.eqb method ConduitClient.PHAB_USERS = false ->
  is_user_lookup c k (call_request c method params) = false.
Proof.
  intros H. unfold is_user_lookup, call_request. cbn [req_url].
  now rewrite URL_eqb, H.
Qed.

Lemma is_user_lookup_users (user_id : json) :
  is_user_lookup c k (users_request c user_id)
  = match hash_key user_id with
    | Ok k' => hkey_eqb k' k
    | Raise _ => false
    end.
Proof.
  unfold is_user_lookup, users_request, call_request. cbn [req_url].
  now rewrite String.eqb_refl.
Qed.

Lemma session_inv_bound (w : world) :
  session_inv c k log0 w -> session_bound c k log0 w.
Proof.
  intros (_ & session & Hlog & H). exists session. split; [exact Hlog|].
  destruct H as [-> | [-> _]]; lia.
Qed.

(** The invariant only reads the client, the users and the log. *)
Lemma session_inv_same (w w' : world) :
  client (self w') = client (self w) ->
  _users (self w') = _users (self w) ->
  net_log w' = net_log w ->
  session_inv c k log0 w -> session_inv c k log0 w'.
Proof.
  intros Hc Hu Hl (Hcl & session & Hlog & H). split; [congruence|].
  exists session. rewrite Hl, Hu. auto.
Qed.

Lemma session_inv_log (req : request) (w : world) :
  is_user_lookup c k req = false ->
  session_inv c k log0 w -> session_inv c k log0 (log_request req w).
Proof.
  intros Hreq (Hc & session & Hlog & H). split; [exact Hc|].
  exists (session ++ [req]). cbn [log_request net_log self].
  rewrite Hlog, app_assoc. split; [reflexivity|].
  rewrite user_lookups_snoc, Hreq, Nat.add_0_r. exact H.
Qed.

Lemma session_bound_log (req : request) (w : world) :
  session_inv c k log0 w ->
  (is_user_lookup c k req = true -> users_get (_users (self w)) k = None) ->
  session_bound c k log0 (log_request req w).
Proof.
  intros (Hc & session & Hlog & H) Hreq.
  exists (session ++ [req]). cbn [log_request net_log self].
  rewrite Hlog, app_assoc. split; [reflexivity|].
  rewrite user_lookups_snoc.
  destruct (is_user_lookup c k req).
  - destruct H as [-> | [_ H]]; [lia|]. now specialize (Hreq eq_refl).
  - destruct H as [-> | [-> _]]; lia.
Qed.

Lemma session_call (method : string) (params : dict) (w : world) :
  String.eqb method ConduitClient.PHAB_USERS = false ->
  session_inv c k log0 w ->
  session_inv c k log0
    (fst (ConduitClient._call R server c method params w)).
Proof.
  intros Hm Hw. rewrite call_world.
  apply session_inv_log; [|exact Hw]. now apply is_user_lookup_other.
Qed.

Lemma session_resolver (user_id : json) :
  hoare (session_inv c k log0)
        (Phabricator.__get_or_fetch_user R server user_id)
        (fun user w => True /\ session_inv c k log0 w)
        (fun _ => session_bound c k log0).
Proof.
  intros w Hw.
  assert (Hc : client (self w) = c) by apply Hw.
  destruct (get_or_fetch_user_resolution R server user_id w)
    as [Hk|k' user Hk Hu|k' e Hk Hu Hcall|k' text e Hk Hu Hacc Hp
        |k' text user Hk Hu Hacc Hp]; rewrite ?Hc.
  - now apply session_inv_bound.
  - auto.
  - apply session_bound_log; [exact Hw|].
    rewrite is_user_lookup_users, Hk. intros Heq.
    apply hkey_eqb_eq in Heq. now subst k'.
  - destruct (session_bound_log (users_request c user_id) w Hw)
      as (session & Hlog & Hn).
    { rewrite is_user_lookup_users, Hk. intros Heq.
      apply hkey_eqb_eq in Heq. now subst k'. }
    exists session. auto.
  - split; [exact I|].
    destruct Hw as (_ & session & Hlog & H).
    split; [exact Hc|].
    exists (session ++ [users_request c user_id]).
    cbn [set_users after_push log_request net_log self fst
           Phabricator._push_cache_queue modify set_cache_queue _users].
    rewrite Hlog, app_assoc. split; [reflexivity|].
    rewrite user_lookups_snoc, is_user_lookup_users, Hk.
    destruct (hkey_eqb k' k) eqn:Heq.
    + apply hkey_eqb_eq in Heq. subst k'. right.
      rewrite users_get_set_same. split; [|discriminate].
      destruct H as [-> | [_ H]]; [reflexivity|]. now rewrite Hu in H.
    + rewrite Nat.add_0_r.
      rewrite users_get_set_other; [exact H|].
      intros ->. now rewrite hkey_eqb_refl in Heq.
Qed.

Lemma session_transactions (ids : list json) (w : world) :
  session_inv c k log0 w ->
  match ConduitClient.transactions R server (client (self w)) ids w with
  | (w', Ok raw) => True /\ session_inv c k log0 (after_push raw w')
  | (w', Raise _) => session_bound c k log0 w'
  end.
Proof.
  intros Hw. assert (Hc : client (self w) = c) by apply Hw. rewrite Hc.
  rewrite transactions_eq.
  assert (H := session_call ConduitClient.MANIPHEST_TRANSACTIONS
                 [(ConduitClient.PIDS, JArr ids)] w eq_refl Hw).
  destruct (ConduitClient._call _ _ _ _ _ _) as [w' [[p raw]|e]];
    cbn [fst] in H.
  - split; [exact I|]. revert H. now apply session_inv_same.
  - now apply session_inv_bound.
Qed.

Lemma session_pages (pages : ConduitClient.tasks_gen R) (w : world) :
  session_inv c k log0 w ->
  match ConduitClient.tasks_next R server (client (self w)) pages w with
  | (w', Ok (Some raw, _)) => session_inv c k log0 (after_push raw w')
  | (w', Ok (None, _)) => session_inv c k log0 w'
  | (w', Raise _) => session_bound c k log0 w'
  end.
Proof.
  intros Hw. assert (Hc : client (self w) = c) by apply Hw. rewrite Hc.
  assert (Hcall : forall params,
            match ConduitClient.tasks_call R server c params w with
            | (w', Ok (Some raw, _)) =>
                session_inv c k log0 (after_push raw w')
            | (w', Ok (None, _)) => session_inv c k log0 w'
            | (w', Raise _) => session_bound c k log0 w'
            end).
  { intros params. unfold ConduitClient.tasks_call, bind, ret.
    assert (H := session_call ConduitClient.MANIPHEST_TASKS params w
                   eq_refl Hw).
    destruct (ConduitClient._call _ _ _ _ _ _) as [w' [[p raw]|e]];
      cbn [fst] in H.
    - revert H. now apply session_inv_same.
    - now apply session_inv_bound. }
  destruct pages as [from_date|params r|].
  - apply Hcall.
  - rewrite tasks_next_cursor.
    destruct (cursor R r) as [after|e]; [|now apply session_inv_bound].
    destruct (truthy after); cbn [negb]; [apply Hcall | exact Hw].
  - exact Hw.
Qed.

Lemma session_turn (g : Phabricator.fetch_tasks_gen R) :
  hoare (session_inv c k log0) (Phabricator.__fetch_tasks_next R server g)
        (fun _ => session_inv c k log0) (fun _ => session_bound c k log0).
Proof.
  assert (Hpage : forall pages,
            hoare (session_inv c k log0)
                  (Phabricator.next_page R server pages)
                  (fun _ => session_inv c k log0)
                  (fun _ => session_bound c k log0)).
  { intros pages.
    eapply hoare_conseq;
      [apply (stage_next_page R server _ _ (fun _ => True) (fun _ => True)
                session_inv_bound session_resolver session_transactions
                session_pages pages)
      | auto | cbn beta; intros a w [_ H]; exact H | auto]. }
  destruct g as [from_date|pages tasks_trans [|task rest]|];
    cbn [Phabricator.__fetch_tasks_next].
  - apply Hpage.
  - eapply hoare_bind_modify; [|apply Hpage].
    intros w. now apply session_inv_same.
  - unfold Phabricator.yield_task.
    eapply hoare_bind.
    { apply (stage_enrich_task R server _ _ (fun _ => True)
               session_inv_bound session_resolver). }
    intros task'. apply hoare_ret. intros w [_ H]. exact H.
  - apply hoare_ret. auto.
Qed.

Lemma session_resume (g : Phabricator.fetch_gen R) :
  hoare (session_inv c k log0) (Phabricator.fetch_resume R server g)
        (fun _ => session_inv c k log0) (fun _ => session_bound c k log0).
Proof.
  assert (Hloop : forall inner n,
            hoare (session_inv c k log0)
                  (Phabricator.fetch_loop R server inner n)
                  (fun _ => session_inv c k log0)
                  (fun _ => session_bound c k log0)).
  { intros inner n. unfold Phabricator.fetch_loop.
    eapply hoare_bind; [apply session_turn|].
    intros [[task|] inner']; apply hoare_ret; auto. }
  destruct g as [from_date|inner n|]; cbn [Phabricator.fetch_resume].
  - eapply hoare_bind_modify; [|apply Hloop].
    intros w. now apply session_inv_same.
  - apply Hloop.
  - apply hoare_ret. auto.
Qed.

(** However long a call of [fetch] is consumed, the bound holds. *)
Lemma session_consume (fuel : nat) (w : world) (g : Phabricator.fetch_gen R) :
  session_inv c k log0 w
  \/ (g = Phabricator.FetchDone /\ session_bound c k log0 w) ->
  session_bound c k log0
    (fst (fst (fst (Phabricator.consume R server fuel w g)))).
Proof.
  revert w g. induction fuel as [|fuel IH]; intros w g Hw.
  - cbn. destruct Hw as [Hw|[_ Hw]]; [now apply session_inv_bound|exact Hw].
  - destruct Hw as [Hw|[-> Hw]]; [|exact Hw].
    cbn [Phabricator.consume]. unfold Phabricator.fetch_next.
    assert (H := session_resume g w Hw).
    destruct (Phabricator.fetch_resume R server g w)
      as [w' [[[task|] g']|e]].
    + specialize (IH w' g' (or_introl H)).
      destruct (Phabricator.consume R server fuel w' g')
        as [[[w'' tasks] ending] g'']. exact IH.
    + now apply session_inv_bound.
    + exact H.
Qed.

End SessionLookups.

Section OneLookup.

Variable R : runtime.
Variable server : list request -> request -> reply.

(** C2. Consumed for any number of steps, a call of [fetch] adds to the
    request log at most one lookup of any one user, whatever the number of
    tasks and transactions that refer to the user; and the resolver
    answers an identifier found in [_users] with the stored record and
    leaves the world, hence the request log, as it is. *)
Theorem one_lookup_per_user :
  (forall (w : world) (from_date : datetime R) (fuel : nat) (k : hkey),
      exists session,
        net_log (fst (fst (fst
          (Phabricator.consume R server fuel w
             (Phabricator.FetchCreated R from_date)))))
        = net_log w ++ session
        /\ user_lookups (client (self w)) k session <= 1)
  /\ (forall (w : world) (user_id : json) (k : hkey) (user : json),
         hash_key user_id = Ok k ->
         users_get (_users (self w)) k = Some user ->
         Phabricator.__get_or_fetch_user R server user_id w = (w, Ok user)).
Proof.
  split.
  - intros w from_date fuel k.
    apply (session_consume R server (client (self w)) k (net_log w)).
    left. split; [reflexivity|]. exists []. rewrite app_nil_r. auto.
  - intros w user_id k user. apply get_or_fetch_user_hit.
Qed.

End OneLookup.

(** ** Every yielded task is enriched *)

Lemma Forall2_In_right {A B : Type} (P : A -> B -> Prop) (l : list A)
    (l' : list B) (y : B) :
  Forall2 P l l' -> In y l' -> exists x, In x l /\ P x y.
Proof.
  induction 1 as [|x y' l l' Hxy _ IH]; cbn; [contradiction|].
  intros [<-|Hy].
  - exists x. auto.
  - destruct (IH Hy) as (x' & Hx' & Hp). exists x'. auto.
Qed.

Lemma dict_get_In (d : dict) (k : string) (v : json) :
  dict_get d k = Some v -> In (k, v) d.
Proof.
  induction d as [|[k' v'] d IH]; cbn; [discriminate|].
  destruct (String.eqb k' k) eqn:Hk.
  - intros [= ->]. apply String.eqb_eq in Hk. subst. now left.
  - intros H. right. auto.
Qed.

Section Enriched.

Variable R : runtime.
Variable server : list request -> request -> reply.
Variable c : conduit_client.

Hypothesis shaped : well_shaped R server c.

Lemma accepted_reply (r : reply) (text : string) :
  accepted R r text -> exists status, r = Reply status text.
Proof. intros (status & _ & _ & H & _). eauto. Qed.

Lemma users_inv_same (w w' : world) :
  client (self w') = client (self w) ->
  _users (self w') = _users (self w) ->
  users_inv c w -> users_inv c w'.
Proof. intros Hc Hu [H1 H2]. split; [congruence|]. now rewrite Hu. Qed.

Lemma first_In (l : list json) (x : json) :
  Phabricator.first l = Ok x -> In x l.
Proof. destruct l; cbn; [discriminate|]. intros [= ->]. now left. Qed.

Lemma enriched_resolver (user_id : json) :
  hoare (users_inv c) (Phabricator.__get_or_fetch_user R server user_id)
        (fun user w => present user /\ users_inv c w)
        (fun _ => users_inv c).
Proof.
  intros w Hw.
  assert (Hc : client (self w) = c) by apply Hw.
  destruct (get_or_fetch_user_resolution R server user_id w)
    as [Hk|k' user Hk Hu|k' e Hk Hu Hcall|k' text e Hk Hu Hacc Hp
        |k' text user Hk Hu Hacc Hp].
  - exact Hw.
  - split; [|exact Hw]. destruct Hw as [_ Hw]. eapply Hw, Hu.
  - revert Hw. now apply users_inv_same.
  - revert Hw. now apply users_inv_same.
  - destruct (accepted_reply _ _ Hacc) as [status Hr].
    rewrite Hc in Hr.
    destruct (shaped _ _ _ _ Hr) as [Hshape _].
    specialize (Hshape eq_refl).
    destruct (Phabricator.parse_users R text) as [users|] eqn:Hus;
      [|discriminate].
    cbn [rbind] in Hp. apply first_In in Hp.
    assert (Hg : non_null user = true).
    { specialize (Hshape users Hus).
      rewrite Forall_forall in Hshape. now apply Hshape. }
    split; [exact Hg|]. split; [exact Hc|].
    intros k0 user0.
    cbn [set_users after_push log_request self fst
           Phabricator._push_cache_queue modify set_cache_queue _users].
    destruct (hkey_eqb k' k0) eqn:Heq.
    + apply hkey_eqb_eq in Heq. subst k0. rewrite users_get_set_same.
      now intros [= <-].
    + rewrite users_get_set_other.
      * apply Hw.
      * intros ->. now rewrite hkey_eqb_refl in Heq.
Qed.

Lemma enriched_transactions (ids : list json) (w : world) :
  users_inv c w ->
  match ConduitClient.transactions R server (client (self w)) ids w with
  | (w', Ok raw) =>
      transactions_reply_ok R raw /\ users_inv c (after_push raw w')
  | (w', Raise _) => users_inv c w'
  end.
Proof.
  intros Hw. assert (Hc : client (self w) = c) by apply Hw. rewrite Hc.
  rewrite transactions_eq.
  assert (Hworld := call_world R server c
                      ConduitClient.MANIPHEST_TRANSACTIONS
                      [(ConduitClient.PIDS, JArr ids)] w).
  destruct (ConduitClient._call _ _ _ _ _ _) as [w' [[p raw]|e]] eqn:Hcall.
  2:{ cbn [fst] in Hworld. subst w'. revert Hw. now apply users_inv_same. }
  clear Hworld.
  destruct (call_returns_inv R server _ _ _ _ _ _ _ Hcall)
    as (Hacc & _ & ->).
  destruct (accepted_reply _ _ Hacc) as [status Hr].
  destruct (shaped _ _ _ _ Hr) as [_ Hshape].
  split; [now apply Hshape|].
  revert Hw. now apply users_inv_same.
Qed.

Lemma enriched_pages (pages : ConduitClient.tasks_gen R) (w : world) :
  users_inv c w ->
  match ConduitClient.tasks_next R server (client (self w)) pages w with
  | (w', Ok (Some raw, _)) => users_inv c (after_push raw w')
  | (w', Ok (None, _)) => users_inv c w'
  | (w', Raise _) => users_inv c w'
  end.
Proof.
  intros Hw.
  assert (Hs := tasks_next_self R server (client (self w)) pages w).
  destruct (ConduitClient.tasks_next _ _ _ _ _)
    as [w' [[[raw|] pages']|e]]; cbn [fst] in Hs.
  - revert Hw. apply users_inv_same; cbn; now rewrite Hs.
  - revert Hw. apply users_inv_same; now rewrite Hs.
  - revert Hw. apply users_inv_same; now rewrite Hs.
Qed.

(** A task enriched from the resolved transactions of its page has the
    three fields. *)
Lemma enriched_from_page (tasks_trans task : json) :
  resolved_page R (transactions_reply_ok R) present tasks_trans ->
  enriched_from R present tasks_trans task ->
  enriched task = true.
Proof.
  intros (raw & d0 & d' & Hraw & Hp & -> & Hd)
         (d & fields & id & author & owner & trans
          & -> & _ & Hf & Ha & Ga & Ho & Go & Ht & Htr).
  unfold enriched. cbn [getitem]. rewrite Hf, Htr.
  destruct (getitem_Ok _ _ _ Ht) as (d1 & [= <-] & Hget).
  apply dict_get_In in Hget.
  destruct (Forall2_In_right _ _ _ _ Hd Hget) as ([k0 v0] & Hin & _ & Hres).
  cbn [snd] in Hres.
  specialize (Hraw d0 Hp). rewrite Forall_forall in Hraw.
  destruct (Hraw _ Hin) as [tts0 Hv0]. cbn [snd] in Hv0. subst v0.
  destruct Hres as (tts & Hc & ->).
  unfold has_user. cbn [getitem]. rewrite Ha, Ho, Ga, Go. cbn [andb].
  apply forallb_forall. intros tt Htt.
  rewrite Forall_forall in Hc.
  destruct (Hc tt Htt) as (a & Hget' & Hga). now rewrite Hget'.
Qed.

Lemma enriched_turn (g : Phabricator.fetch_tasks_gen R) :
  fetch_tasks_gen_ok R (transactions_reply_ok R) present g ->
  hoare (users_inv c) (Phabricator.__fetch_tasks_next R server g)
        (fun r w => turn_ok R (transactions_reply_ok R) present r
                    /\ users_inv c w)
        (fun _ => users_inv c).
Proof.
  intros Hg.
  assert (Hpage : forall pages,
            hoare (users_inv c) (Phabricator.next_page R server pages)
                  (fun r w => turn_ok R (transactions_reply_ok R) present r
                              /\ users_inv c w)
                  (fun _ => users_inv c)).
  { intros pages.
    apply (stage_next_page R server (users_inv c) (users_inv c) present
             (transactions_reply_ok R) (fun w H => H) enriched_resolver
             enriched_transactions enriched_pages). }
  destruct g as [from_date|pages tasks_trans [|task rest]|];
    cbn [Phabricator.__fetch_tasks_next].
  - apply Hpage.
  - eapply hoare_bind_modify; [|apply Hpage].
    intros w. now apply users_inv_same.
  - apply (stage_yield_task R server (users_inv c) (users_inv c) present
             (transactions_reply_ok R) (fun w H => H) enriched_resolver).
    exact Hg.
  - apply hoare_ret. intros w Hw. split; [split; exact I|exact Hw].
Qed.

Lemma enriched_resume (g : Phabricator.fetch_gen R) :
  fetch_gen_ok R (transactions_reply_ok R) present g ->
  hoare (users_inv c) (Phabricator.fetch_resume R server g)
        (fun r w =>
           fetch_gen_ok R (transactions_reply_ok R) present (snd r)
           /\ (forall task, fst r = Some task -> enriched task = true)
           /\ users_inv c w)
        (fun _ => users_inv c).
Proof.
  intros Hg.
  assert (Hloop : forall inner n,
            fetch_tasks_gen_ok R (transactions_reply_ok R) present inner ->
            hoare (users_inv c) (Phabricator.fetch_loop R server inner n)
              (fun r w =>
                 fetch_gen_ok R (transactions_reply_ok R) present (snd r)
                 /\ (forall task, fst r = Some task -> enriched task = true)
                 /\ users_inv c w)
              (fun _ => users_inv c)).
  { intros inner n Hin. unfold Phabricator.fetch_loop.
    eapply hoare_bind; [apply (enriched_turn inner Hin)|].
    intros [[task|] inner']; apply hoare_ret; intros w [[Hok Ht] Hw];
      cbn [fst snd fetch_gen_ok] in *.
    - split; [exact Hok|]. split; [|exact Hw].
      intros task0 [= <-].
      destruct inner' as [d|pages tasks_trans rest|]; try contradiction.
      now apply (enriched_from_page tasks_trans).
    - split; [exact I|]. split; [discriminate|exact Hw]. }
  destruct g as [from_date|inner n|]; cbn [Phabricator.fetch_resume].
  - eapply hoare_bind_modify; [|apply Hloop; exact I].
    intros w. now apply users_inv_same.
  - apply Hloop. exact Hg.
  - apply hoare_ret. intros w Hw. split; [exact I|].
    split; [discriminate|exact Hw].
Qed.

Lemma enriched_consume (fuel : nat) (w : world)
    (g : Phabricator.fetch_gen R) :
  fetch_gen_ok R (transactions_reply_ok R) present g ->
  users_inv c w ->
  Forall (fun task => enriched task = true)
         (snd (fst (fst (Phabricator.consume R server fuel w g))))
  /\ users_inv c (fst (fst (fst (Phabricator.consume R server fuel w g)))).
Proof.
  revert w g. induction fuel as [|fuel IH]; intros w g Hg Hw.
  - cbn. auto.
  - cbn [Phabricator.consume]. unfold Phabricator.fetch_next.
    assert (H := enriched_resume g Hg w Hw).
    destruct (Phabricator.fetch_resume R server g w)
      as [w' [[[task|] g']|e]]; cbn [fst snd] in H.
    + destruct H as (Hg' & Ht & Hw').
      specialize (IH w' g' Hg' Hw').
      destruct (Phabricator.consume R server fuel w' g')
        as [[[w'' tasks] ending] g'']. cbn [fst snd] in *.
      destruct IH as [IH1 IH2]. split; [|exact IH2].
      constructor; [now apply Ht | exact IH1].
    + cbn. split; [constructor|apply H].
    + cbn. split; [constructor|exact H].
Qed.

End Enriched.

Section EnrichedTasks.

Variable R : runtime.
Variable server : list request -> request -> reply.

(** C1. When the server answers the identity and transactions lookups in
    the shapes of the spec and no user of [_users] is [None] (none is in
    a new instance), every task a consumer receives from a call of
    [fetch], however long it consumes it, has fields with an
    ['authorData'] and an ['ownerData'] that are not [None] and a
    ['transactions'] list whose elements each have an ['authorData'] that
    is not [None]; and no user of [_users] is [None] afterwards. *)
Theorem yielded_tasks_are_enriched (w : world) (from_date : datetime R)
    (fuel : nat) :
  well_shaped R server (client (self w)) ->
  (forall k user,
      users_get (_users (self w)) k = Some user -> non_null user = true) ->
  let run := Phabricator.consume R server fuel w
               (Phabricator.FetchCreated R from_date) in
  Forall (fun task => enriched task = true) (snd (fst (fst run)))
  /\ forall k user,
      users_get (_users (self (fst (fst (fst run))))) k = Some user ->
      non_null user = true.
Proof.
  intros Hshape Husers run.
  destruct (enriched_consume R server (client (self w)) Hshape fuel w
              (Phabricator.FetchCreated R from_date) I
              (conj eq_refl Husers)) as [H1 [_ H2]].
  split; [exact H1|exact H2].
Qed.

End EnrichedTasks.

(** ** The Response Cache Queue *)

Section Queue.

Variable R : runtime.
Variable server : list request -> request -> reply.

Lemma replies_snoc (log reqs : list request) (req : request) :
  replies server log (reqs ++ [req])
  = replies server log reqs
    ++ match server (log ++ reqs) req with
       | Reply _ text => [text]
       | NoReply => []
       end.
Proof.
  revert log. induction reqs as [|r reqs IH]; intros log; cbn.
  - now rewrite !app_nil_r.
  - rewrite IH, <- !app_assoc. reflexivity.
Qed.

Lemma page_inv_refl (wb : world) : page_inv server wb wb.
Proof.
  split; [reflexivity|]. split; [reflexivity|].
  exists []. cbn. now rewrite !app_nil_r.
Qed.

(** A request whose accepted reply is pushed keeps the invariant. *)
Lemma page_inv_exchange (wb w : world) (req : request) (text : string) :
  accepted R (server (net_log w) req) text ->
  page_inv server wb w ->
  page_inv server wb (after_push text (log_request req w)).
Proof.
  intros (status & _ & _ & Hr & _) (Hc & Hs & reqs & Hlog & Hq).
  split; [exact Hc|]. split; [exact Hs|].
  exists (reqs ++ [req]).
  cbn [after_push log_request net_log self fst cache_queue
         Phabricator._push_cache_queue modify set_cache_queue].
  split; [now rewrite Hlog, app_assoc|].
  rewrite Hq, replies_snoc, <- Hlog, Hr. now rewrite app_assoc.
Qed.

Lemma page_inv_users (wb w : world) (f : users_dict -> users_dict) :
  page_inv server wb w -> page_inv server wb (set_users f w).
Proof. intros H. exact H. Qed.

Lemma tasks_call_page (c : conduit_client) (params : dict) (w w' : world)
    (raw : option string) (pages' : ConduitClient.tasks_gen R) :
  ConduitClient.tasks_call R server c params w = (w', Ok (raw, pages')) ->
  exists req text,
    raw = Some text /\ w' = log_request req w
    /\ accepted R (server (net_log w) req) text.
Proof.
  unfold ConduitClient.tasks_call, bind, ret.
  destruct (ConduitClient._call _ _ _ _ _ _) as [w1 [[p text]|e]] eqn:Hcall;
    [|discriminate].
  intros [= <- <- _].
  destruct (call_returns_inv R server _ _ _ _ _ _ _ Hcall) as (Ha & _ & ->).
  eauto.
Qed.

(** A page the generator yields is the accepted reply to the one request
    it sent; when it stops it has sent none. *)
Lemma tasks_next_page (c : conduit_client) (pages : ConduitClient.tasks_gen R)
    (w w' : world) (raw : option string)
    (pages' : ConduitClient.tasks_gen R) :
  ConduitClient.tasks_next R server c pages w = (w', Ok (raw, pages')) ->
  match raw with
  | Some text =>
      exists req,
        w' = log_request req w /\ accepted R (server (net_log w) req) text
  | None => w' = w
  end.
Proof.
  assert (Hcall : forall params,
            ConduitClient.tasks_call R server c params w
            = (w', Ok (raw, pages')) ->
            match raw with
            | Some text =>
                exists req,
                  w' = log_request req w
                  /\ accepted R (server (net_log w) req) text
            | None => w' = w
            end).
  { intros params H.
    destruct (tasks_call_page _ _ _ _ _ _ H) as (req & text & -> & -> & Ha).
    eauto. }
  destruct pages as [from_date|params r|].
  - apply Hcall.
  - rewrite tasks_next_cursor.
    destruct (cursor R r) as [after|e]; [|discriminate].
    destruct (truthy after); cbn [negb]; [apply Hcall|].
    now intros [= <- <- _].
  - cbn. now intros [= <- <- _].
Qed.

Section Page.

Variable wb : world.

Lemma page_resolver (user_id : json) :
  hoare (page_inv server wb)
        (Phabricator.__get_or_fetch_user R server user_id)
        (fun _ w => True /\ page_inv server wb w) (fun _ _ => True).
Proof.
  intros w Hw.
  destruct (get_or_fetch_user_resolution R server user_id w)
    as [Hk|k' user Hk Hu|k' e Hk Hu Hcall|k' text e Hk Hu Hacc Hp
        |k' text user Hk Hu Hacc Hp]; auto.
  split; [exact I|].
  apply page_inv_users. now apply page_inv_exchange.
Qed.

Lemma page_transactions (ids : list json) (w : world) :
  page_inv server wb w ->
  match ConduitClient.transactions R server (client (self w)) ids w with
  | (w', Ok raw) => True /\ page_inv server wb (after_push raw w')
  | (w', Raise _) => True
  end.
Proof.
  intros Hw. rewrite transactions_eq.
  destruct (ConduitClient._call _ _ _ _ _ _) as [w' [[p raw]|e]] eqn:Hcall;
    [|exact I].
  destruct (call_returns_inv R server _ _ _ _ _ _ _ Hcall) as (Ha & _ & ->).
  split; [exact I|]. now apply page_inv_exchange.
Qed.

Lemma page_pages (pages : ConduitClient.tasks_gen R) (w : world) :
  page_inv server wb w ->
  match ConduitClient.tasks_next R server (client (self w)) pages w with
  | (w', Ok (Some raw, _)) => page_inv server wb (after_push raw w')
  | (w', Ok (None, _)) => page_inv server wb w'
  | (w', Raise _) => True
  end.
Proof.
  intros Hw.
  destruct (ConduitClient.tasks_next _ _ _ _ _)
    as [w' [[raw pages']|e]] eqn:Hnext; [|exact I].
  apply tasks_next_page in Hnext. destruct raw as [text|].
  - destruct Hnext as (req & -> & Ha). now apply page_inv_exchange.
  - now subst w'.
Qed.

(** The first turn of a page keeps the invariant. *)
Lemma page_first_turn (pages : ConduitClient.tasks_gen R) :
  hoare (page_inv server wb) (Phabricator.next_page R server pages)
        (fun _ w => page_inv server wb w) (fun _ _ => True).
Proof.
  eapply hoare_conseq;
    [apply (stage_next_page R server (page_inv server wb) (fun _ => True)
              (fun _ => True) (fun _ => True) (fun _ _ => I)
              page_resolver page_transactions page_pages pages)
    | auto | cbn beta; intros r w [_ H]; exact H | auto].
Qed.

(** So does the turn of each task of the page. *)
Lemma page_task_turn (pages : ConduitClient.tasks_gen R)
    (tasks_trans task : json) (rest : list json) :
  hoare (page_inv server wb)
        (Phabricator.yield_task R server pages tasks_trans task rest)
        (fun r w =>
           page_inv server wb w
           /\ exists task',
               r = (Some task',
                    Phabricator.FetchTasksYielded pages tasks_trans rest))
        (fun _ _ => True).
Proof.
  unfold Phabricator.yield_task.
  eapply hoare_bind.
  { apply (stage_enrich_task R server (page_inv server wb) (fun _ => True)
             (fun _ => True) (fun _ _ => I) page_resolver). }
  intros task'. apply hoare_ret. intros w [_ H]. eauto.
Qed.

(** Consuming the rest of a page without an exception leaves [fetch]
    suspended at the last task of the page, with the invariant. *)
Lemma page_rest (pages : ConduitClient.tasks_gen R) (tasks_trans : json)
    (rest : list json) :
  forall (ntasks : nat) (w w' : world) (tasks : list json)
         (e : Phabricator.ending) (g' : Phabricator.fetch_gen R),
    page_inv server wb w ->
    Phabricator.consume R server (List.length rest) w
      (Phabricator.FetchYielded
         (Phabricator.FetchTasksYielded pages tasks_trans rest) ntasks)
    = (w', tasks, e, g') ->
    List.length tasks = List.length rest ->
    page_inv server wb w'
    /\ e = Phabricator.Suspended
    /\ g' = Phabricator.FetchYielded
              (Phabricator.FetchTasksYielded pages tasks_trans [])
              (ntasks + List.length rest).
Proof.
  induction rest as [|task rest IH]; intros ntasks w w' tasks e g' Hw.
  - cbn. intros [= <- <- <- <-] _. rewrite Nat.add_0_r. auto.
  - cbn [List.length Phabricator.consume].
    unfold Phabricator.fetch_next, Phabricator.fetch_resume,
      Phabricator.fetch_loop.
    unfold bind at 1. cbn [Phabricator.__fetch_tasks_next].
    assert (H := page_task_turn pages tasks_trans task rest w Hw).
    destruct (Phabricator.yield_task _ _ _ _ _ _ _) as [w1 [r|err]].
    + destruct H as (Hw1 & task' & ->). cbn [ret].
      specialize (IH (S ntasks) w1).
      destruct (Phabricator.consume R server (List.length rest) w1 _)
        as [[[w2 tasks2] e2] g2].
      intros [= <- <- <- <-]. cbn [List.length]. intros [= Hlen].
      destruct (IH _ _ _ _ Hw1 eq_refl Hlen) as (H1 & H2 & H3).
      split; [exact H1|]. split; [exact H2|].
      rewrite H3. f_equal. lia.
    + intros [= <- <- <- <-]. discriminate.
Qed.

End Page.

(** Nothing is stored within a turn: neither the resolver, nor the bulk
    transactions lookup, nor the page request touches what has been
    stored, whether they return or raise. *)
Section Stored.

Variable stored : list (list string).

Lemma stored_resolver (user_id : json) :
  hoare (fun w => cache (self w) = stored)
        (Phabricator.__get_or_fetch_user R server user_id)
        (fun _ w => True /\ cache (self w) = stored)
        (fun _ w => cache (self w) = stored).
Proof.
  intros w Hw.
  destruct (get_or_fetch_user_resolution R server user_id w)
    as [Hk|k' user Hk Hu|k' e Hk Hu Hcall|k' text e Hk Hu Hacc Hp
        |k' text user Hk Hu Hacc Hp]; cbn; auto.
Qed.

Lemma stored_transactions (ids : list json) (w : world) :
  cache (self w) = stored ->
  match ConduitClient.transactions R server (client (self w)) ids w with
  | (w', Ok raw) => True /\ cache (self (after_push raw w')) = stored
  | (w', Raise _) => cache (self w') = stored
  end.
Proof.
  intros Hw. rewrite transactions_eq.
  assert (H := call_world R server (client (self w))
                 ConduitClient.MANIPHEST_TRANSACTIONS
                 [(ConduitClient.PIDS, JArr ids)] w).
  destruct (ConduitClient._call _ _ _ _ _ _) as [w' [[p raw]|e]];
    cbn [fst] in H; subst w'; cbn; auto.
Qed.

Lemma stored_pages (pages : ConduitClient.tasks_gen R) (w : world) :
  cache (self w) = stored ->
  match ConduitClient.tasks_next R server (client (self w)) pages w with
  | (w', Ok (Some raw, _)) => cache (self (after_push raw w')) = stored
  | (w', Ok (None, _)) => cache (self w') = stored
  | (w', Raise _) => cache (self w') = stored
  end.
Proof.
  intros Hw.
  assert (H := tasks_next_self R server (client (self w)) pages w).
  destruct (ConduitClient.tasks_next _ _ _ _ _)
    as [w' [[[raw|] pages']|e]]; cbn [fst] in H; cbn; now rewrite H.
Qed.

End Stored.

(** The turn that receives a page stores nothing, however it ends. *)
Lemma next_page_stores_nothing (pages : ConduitClient.tasks_gen R)
    (w : world) :
  cache (self (fst (Phabricator.next_page R server pages w)))
  = cache (self w).
Proof.
  assert (H := stage_next_page R server
                 (fun w' => cache (self w') = cache (self w))
                 (fun w' => cache (self w') = cache (self w))
                 (fun _ => True) (fun _ => True) (fun _ h => h)
                 (stored_resolver (cache (self w)))
                 (stored_transactions (cache (self w)))
                 (stored_pages (cache (self w))) pages w eq_refl).
  destruct (Phabricator.next_page R server pages w) as [w' [r|e]];
    cbn [fst]; [destruct H as [_ H]|]; exact H.
Qed.

(** A call of [next] at a page boundary, run to its end: what it leaves
    stored is what the flush or the purge of the boundary left, and when
    it does not raise the queue holds the replies to the requests it
    sent, and nothing older. *)
Lemma boundary_turn (w wb w' : world) (g g' : Phabricator.fetch_gen R)
    (pages : ConduitClient.tasks_gen R) (s : signal json) :
  page_boundary R w g = Some (pages, wb) ->
  Phabricator.fetch_next R server w g = (w', s, g') ->
  cache (self w') = cache (self wb)
  /\ match s with
     | Raised _ => True
     | _ =>
         exists more,
           net_log w' = net_log wb ++ more
           /\ cache_queue (self w') = replies server (net_log wb) more
     end.
Proof.
  intros Hb Hnext.
  destruct (fetch_next_boundary R server _ _ _ _ Hb) as [n Hn].
  rewrite Hn in Hnext.
  assert (Hc := next_page_stores_nothing pages wb).
  assert (Hq := page_first_turn wb pages wb (page_inv_refl wb)).
  assert (He := page_boundary_queue R _ _ _ _ Hb).
  destruct (Phabricator.next_page R server pages wb)
    as [w3 [[[t|] inner]|err]]; cbn [fst] in Hc;
    injection Hnext as <- <- _; (split; [exact Hc|]); try exact I;
    destruct Hq as (_ & _ & more & Hlog & Hq); rewrite He in Hq; eauto.
Qed.

(** C7. A page received at a page boundary and consumed to its last task
    without an exception: the generator is then suspended at the last
    task; nothing has been stored since the boundary; the queue holds the
    reply to every request sent for the page, in order; the next call of
    [next] is at a page boundary again and flushes first, which stores
    those replies as one batch and empties the queue.  Run to its end,
    that call of [next] leaves stored what was stored at the boundary
    followed by that one batch, whether it yields the first task of the
    next page, stops or raises; when it does not raise, the queue holds
    the replies to the requests it sent and nothing of the page before.
    The purge that opens a call of [fetch] empties the queue whatever it
    held and stores nothing: the first call of [next], run to its end,
    leaves stored what was stored before, and when it does not raise the
    queue holds the replies to the requests it sent and nothing older. *)
Theorem page_flushed_once (w wb w1 w2 : world) (g : Phabricator.fetch_gen R)
    (pages pages' : ConduitClient.tasks_gen R) (task : json)
    (tasks_trans : json) (rest tasks : list json) (ntasks : nat)
    (e : Phabricator.ending) (g2 : Phabricator.fetch_gen R) :
  page_boundary R w g = Some (pages, wb) ->
  Phabricator.fetch_next R server w g
  = (w1, Yield task,
     Phabricator.FetchYielded
       (Phabricator.FetchTasksYielded pages' tasks_trans rest) ntasks) ->
  Phabricator.consume R server (List.length rest) w1
    (Phabricator.FetchYielded
       (Phabricator.FetchTasksYielded pages' tasks_trans rest) ntasks)
  = (w2, tasks, e, g2) ->
  List.length tasks = List.length rest ->
  g2 = Phabricator.FetchYielded
         (Phabricator.FetchTasksYielded pages' tasks_trans [])
         (ntasks + List.length rest)
  /\ cache (self w2) = cache (self wb)
  /\ (exists reqs,
         net_log w2 = net_log wb ++ reqs
         /\ cache_queue (self w2) = replies server (net_log wb) reqs
         /\ cache (self (after_flush w2))
            = cache (self wb) ++ [replies server (net_log wb) reqs]
         /\ forall (w3 : world) (s : signal json)
                   (g3 : Phabricator.fetch_gen R),
             Phabricator.fetch_next R server w2 g2 = (w3, s, g3) ->
             cache (self w3)
             = cache (self wb) ++ [replies server (net_log wb) reqs]
             /\ match s with
                | Raised _ => True
                | _ =>
                    exists more,
                      net_log w3 = net_log w2 ++ more
                      /\ cache_queue (self w3)
                         = replies server (net_log w2) more
                end)
  /\ page_boundary R w2 g2 = Some (pages', after_flush w2)
  /\ cache_queue (self (after_flush w2)) = []
  /\ (forall w0 from_date,
         page_boundary R w0 (Phabricator.FetchCreated R from_date)
         = Some (ConduitClient.TasksCreated R (datetime_to_utc R from_date),
                 after_purge w0)
         /\ cache_queue (self (after_purge w0)) = []
         /\ cache (self (after_purge w0)) = cache (self w0)
         /\ forall (w3 : world) (s : signal json)
                   (g3 : Phabricator.fetch_gen R),
             Phabricator.fetch_next R server w0
               (Phabricator.FetchCreated R from_date)
             = (w3, s, g3) ->
             cache (self w3) = cache (self w0)
             /\ match s with
                | Raised _ => True
                | _ =>
                    exists more,
                      net_log w3 = net_log w0 ++ more
                      /\ cache_queue (self w3)
                         = replies server (net_log w0) more
                end).
Proof.
  intros Hb Hfirst Hrest Hlen.
  assert (Hw1 : page_inv server wb w1).
  { destruct (fetch_next_boundary R server _ _ _ _ Hb) as [n Hn].
    rewrite Hn in Hfirst.
    assert (H := page_first_turn wb pages wb (page_inv_refl wb)).
    destruct (Phabricator.next_page R server pages wb)
      as [w' [[[t|] inner]|err]]; try discriminate.
    now injection Hfirst as <- _ _ _. }
  destruct (page_rest wb pages' tasks_trans rest ntasks w1 w2 tasks e g2
              Hw1 Hrest Hlen) as ((Hc & Hs & reqs & Hlog & Hq) & _ & ->).
  rewrite (page_boundary_queue R _ _ _ _ Hb) in Hq. cbn [app] in Hq.
  assert (Hflush : cache (self (after_flush w2))
                   = cache (self wb) ++ [replies server (net_log wb) reqs]).
  { cbn. now rewrite Hs, Hq. }
  split; [reflexivity|]. split; [exact Hs|].
  split.
  { exists reqs. split; [exact Hlog|]. split; [exact Hq|].
    split; [exact Hflush|].
    intros w3 s g3 Hnext. rewrite <- Hflush.
    eapply boundary_turn with (wb := after_flush w2); [|exact Hnext];
      reflexivity. }
  split; [reflexivity|]. split; [reflexivity|].
  intros w0 from_date.
  split; [reflexivity|]. split; [reflexivity|]. split; [reflexivity|].
  intros w3 s g3 Hnext.
  eapply boundary_turn with (wb := after_purge w0); [|exact Hnext];
    reflexivity.
Qed.

End Queue.

(** ** The start of a call of [fetch] *)

Section SessionStart.

Variable R : runtime.
Variable server : list request -> request -> reply.

(** C3, as the code has it.  A new instance has no user and an empty
    queue.  The first call of [next] on a call of [fetch] purges the queue
    and then asks for the first page: the page is requested in a world
    whose queue is empty, whose request log and stored batches are those
    of before the call, and whose [_users] are those the instance held
    before the call. *)
Theorem fetch_starts_purged :
  (forall url api_token cache origin,
      _users (Phabricator.__init__ url api_token cache origin) = []
      /\ cache_queue (Phabricator.__init__ url api_token cache origin) = [])
  /\ (forall w from_date,
         page_boundary R w (Phabricator.FetchCreated R from_date)
         = Some (ConduitClient.TasksCreated R (datetime_to_utc R from_date),
                 after_purge w)
         /\ cache_queue (self (after_purge w)) = []
         /\ cache (self (after_purge w)) = cache (self w)
         /\ net_log (after_purge w) = net_log w
         /\ _users (self (after_purge w)) = _users (self w)
         /\ exists ntasks,
             Phabricator.fetch_next R server w
               (Phabricator.FetchCreated R from_date)
             = match Phabricator.next_page R server
                       (ConduitClient.TasksCreated R
                          (datetime_to_utc R from_date))
                       (after_purge w) with
               | (w', Ok (Some task, inner)) =>
                   (w', Yield task, Phabricator.FetchYielded inner ntasks)
               | (w', Ok (None, _)) =>
                   (w', StopIteration, Phabricator.FetchDone)
               | (w', Raise e) => (w', Raised e, Phabricator.FetchDone)
               end).
Proof.
  split; [intros; split; reflexivity|].
  intros w from_date. repeat split.
  now apply fetch_next_boundary.
Qed.

End SessionStart.

(** ** The properties on the scenario *)

Section OnTheScenario.

Import Scenario.

(** The users resolved by a first call of [fetch] are in [_users] when the
    first page of a second call on the same instance is requested: the
    cache is not created again by the call. *)
Lemma second_fetch_starts_with_users :
  exists pages wb,
    page_boundary python after_first_fetch fetch_call = Some (pages, wb)
    /\ _users (self wb)
       = [(KStr "PHID-USER-1", alice); (KStr "PHID-USER-2", bob)]
    /\ _users (self wb) <> [].
Proof.
  eexists _, _. split; [reflexivity|].
  split; [vm_compute; reflexivity|]. vm_compute. discriminate.
Qed.

(** A whole call of [fetch] on the scenario: the two tasks of the first
    page, then the end of the sequence at the empty second page. *)
Example fetch_on_the_scenario :
  Phabricator.consume python server 10 start fetch_call
  = (after_first_fetch, [enriched_task1; enriched_task2],
     Phabricator.Exhausted, Phabricator.FetchDone).
Proof. vm_compute. reflexivity. Qed.

(** Its five requests: one lookup for each of the two users. *)
Example requests_of_the_scenario :
  map req_url (net_log after_first_fetch)
  = [method_url ConduitClient.MANIPHEST_TASKS;
     method_url ConduitClient.MANIPHEST_TRANSACTIONS;
     method_url ConduitClient.PHAB_USERS;
     method_url ConduitClient.PHAB_USERS;
     method_url ConduitClient.MANIPHEST_TASKS].
Proof. vm_compute. reflexivity. Qed.

(** What it leaves in the queue and in the store. *)
Example queue_of_the_scenario :
  cache_queue (self after_first_fetch) = [dumps page2]
  /\ cache (self after_first_fetch)
     = [[dumps page1; dumps transactions1; dumps users_alice;
         dumps users_bob]].
Proof. split; vm_compute; reflexivity. Qed.

(** Alice is the author of a task, the owner of another and the author
    of a transaction: she is looked up once. *)
Example lookups_of_alice :
  user_lookups (client phab) (KStr "PHID-USER-1") (net_log after_first_fetch)
  = 1.
Proof. vm_compute. reflexivity. Qed.

(** A second call on the same instance sends three requests, none of them
    for a user. *)
Example requests_of_a_second_fetch :
  map req_url (skipn 5 (net_log after_second_fetch))
  = [method_url ConduitClient.MANIPHEST_TASKS;
     method_url ConduitClient.MANIPHEST_TRANSACTIONS;
     method_url ConduitClient.MANIPHEST_TASKS].
Proof. vm_compute. reflexivity. Qed.

Lemma accepted_ok (j : json) (code : json) :
  decode (dumps j) = Some j ->
  getitem j "error_code" = Ok code ->
  truthy code = false ->
  accepted python (ok j) (dumps j).
Proof.
  intros Hj Hc Ht. exists 200%Z, j, code.
  repeat split; try assumption. lia.
Qed.

Lemma refused_session_error :
  refused python (ok session_error)
          (JStr "Session key is not present.") (JStr "ERR-INVALID-SESSION").
Proof.
  exists 200%Z, (dumps session_error), session_error.
  repeat split; try reflexivity. lia.
Qed.

(** C6 on the scenario: a reply with an error envelope. *)
Lemma call_outcomes_witness :
  ConduitClient._call python (scripted [ok session_error]) (client phab)
    ConduitClient.PHAB_USERS [] start
  = (log_request (call_request (client phab) ConduitClient.PHAB_USERS [])
                 start,
     Raise (ConduitError (JStr "Session key is not present.")
                         (JStr "ERR-INVALID-SESSION"))).
Proof.
  apply (proj1 (proj2 (proj2
           (call_outcomes python (scripted [ok session_error]) (client phab)
              ConduitClient.PHAB_USERS [] start)))
           200%Z (dumps session_error) session_error).
  - reflexivity.
  - lia.
  - reflexivity.
  - reflexivity.
  - reflexivity.
  - reflexivity.
Defined.

(** C10 on the scenario: the server knows no user ["PHID-USER-9"]. *)
Lemma resolver_needs_a_record_witness :
  Phabricator.__get_or_fetch_user python server (JStr "PHID-USER-9") start
  = (after_push (dumps users_nobody)
       (log_request (users_request (client phab) (JStr "PHID-USER-9")) start),
     Raise IndexError).
Proof.
  apply (proj2 (resolver_needs_a_record python server (JStr "PHID-USER-9")
                  (KStr "PHID-USER-9") start (dumps users_nobody)
                  users_nobody eq_refl eq_refl
                  (accepted_ok users_nobody JNull eq_refl eq_refl eq_refl)
                  eq_refl)).
  reflexivity.
Defined.

(** C4 on the scenario: the cursor of the second page is [null], and the
    only page of the empty site has no task. *)
Lemma page_walk_terminates_witness :
  ConduitClient.tasks_next python server (client phab)
    (ConduitClient.TasksYielded [] (dumps page2)) start
  = (start, Ok (None, ConduitClient.TasksDone))
  /\ snd (fst (Phabricator.consume python server 2 start
                 (Phabricator.FetchYielded
                    (Phabricator.FetchTasksYielded
                       (ConduitClient.TasksYielded [] (dumps page2))
                       resolved_transactions1 [task1])
                    0)))
     <> Phabricator.Suspended
  /\ Phabricator.fetch_next python empty_site start fetch_call
     = (first_page_world page2, StopIteration, Phabricator.FetchDone).
Proof.
  split; [|split].
  - apply (proj1 (page_walk_terminates python server)
             (client phab) [] (dumps page2) start JNull);
      reflexivity.
  - apply (proj1 (proj2 (proj2 (proj2 (proj2
             (page_walk_terminates python server)))))
             start [] (dumps page2) JNull resolved_transactions1 [task1] 0);
      reflexivity.
  - apply (proj1 (proj2 (proj2 (proj2 (proj2 (proj2
             (page_walk_terminates python empty_site))))))
             start fetch_call (ConduitClient.TasksCreated python 0%Z)
             (after_purge start)
             (log_request first_page_request (after_purge start))
             (dumps page2)
             (ConduitClient.TasksYielded (req_params first_page_request)
                                         (dumps page2)));
      reflexivity.
Defined.

(** C5 on the scenario: the site refuses the transactions of its first
    page, and the consumer receives no task. *)
Lemma transactions_failure_aborts_page_witness :
  Phabricator.consume python refusing_site 3 start fetch_call
  = (log_request (transactions_request (client phab) [JInt 1; JInt 2])
                 (first_page_world page1),
     [],
     Phabricator.Failed (ConduitError (JStr "Session key is not present.")
                                      (JStr "ERR-INVALID-SESSION")),
     Phabricator.FetchDone).
Proof.
  apply (proj2 (transactions_failure_aborts_page python refusing_site
                  start (after_purge start)
                  (log_request first_page_request (after_purge start))
                  fetch_call (ConduitClient.TasksCreated python 0%Z)
                  (ConduitClient.TasksYielded (req_params first_page_request)
                                              (dumps page1))
                  (dumps page1) task1 [task2] [JInt 1; JInt 2]
                  eq_refl eq_refl eq_refl eq_refl)
               (JStr "Session key is not present.")
               (JStr "ERR-INVALID-SESSION") refused_session_error).
Defined.

(** C9 on the scenario: the only page of the empty site stays queued. *)
Lemma empty_page_stays_queued_witness :
  Phabricator.fetch_next python empty_site start fetch_call
  = (first_page_world page2, StopIteration, Phabricator.FetchDone)
  /\ cache_queue (self (first_page_world page2)) = [dumps page2]
  /\ cache (self (first_page_world page2)) = [].
Proof.
  destruct (empty_page_stays_queued python empty_site
              start (after_purge start)
              (log_request first_page_request (after_purge start))
              fetch_call (ConduitClient.TasksCreated python 0%Z)
              (ConduitClient.TasksYielded (req_params first_page_request)
                                          (dumps page2))
              (dumps page2) eq_refl eq_refl eq_refl)
    as (H1 & H2 & H3 & _).
  split; [exact H1|]. split; [exact H2|exact H3].
Defined.

(** C8 on the scenario: the first page and its first task. *)
Lemma enrichment_only_adds_witness :
  Phabricator.parse_tasks python (dumps page1) = Ok [task1; task2]
  /\ only_adds task1 enriched_task1.
Proof.
  split.
  - apply (proj1 (enrichment_only_adds python server) (dumps page1) page1
             (JObj [("data", JArr [task1; task2]);
                    ("cursor", JObj [("after", JStr "2")])])
             [task1; task2]); reflexivity.
  - apply (proj2 (enrichment_only_adds python server)
             resolved_transactions1 task1 enriched_task1 start
             (fst (Phabricator.enrich_task python server
                     resolved_transactions1 task1 start))).
    vm_compute. reflexivity.
Defined.

(** C2 on the scenario: after a first call of [fetch], alice is answered
    from [_users]. *)
Lemma one_lookup_per_user_witness :
  Phabricator.__get_or_fetch_user python server (JStr "PHID-USER-1")
    after_first_fetch
  = (after_first_fetch, Ok alice).
Proof.
  apply (proj2 (one_lookup_per_user python server) after_first_fetch
               (JStr "PHID-USER-1") (KStr "PHID-USER-1") alice).
  - reflexivity.
  - vm_compute. reflexivity.
Defined.

Lemma users_page_cases (phids : option json) :
  users_page phids = users_alice
  \/ users_page phids = users_bob
  \/ users_page phids = users_nobody.
Proof.
  unfold users_page.
  destruct phids as [[| | | |l|]|]; auto.
  destruct l as [|[| | |s| |] [|]]; auto.
  destruct (String.eqb s "PHID-USER-1"); auto.
  destruct (String.eqb s "PHID-USER-2"); auto.
Qed.

(** The server of the scenario answers in the shapes of the spec. *)
Lemma server_well_shaped : well_shaped python server (client phab).
Proof.
  intros log req status text. unfold server.
  change (ConduitClient.URL (base_url (client phab)))
    with method_url.
  destruct (String.eqb (req_url req) (method_url ConduitClient.MANIPHEST_TASKS))
    eqn:E1.
  { apply String.eqb_eq in E1. intros _.
    split; intros Hu; rewrite E1 in Hu; vm_compute in Hu; discriminate. }
  destruct (String.eqb (req_url req)
                       (method_url ConduitClient.MANIPHEST_TRANSACTIONS))
    eqn:E2.
  { intros [= <- <-]. split.
    - intros Hu. rewrite Hu in E2. vm_compute in E2. discriminate.
    - intros _ d Hd. vm_compute in Hd. injection Hd as <-.
      repeat constructor; eexists; reflexivity. }
  destruct (String.eqb (req_url req) (method_url ConduitClient.PHAB_USERS))
    eqn:E3.
  { intros [= <- <-]. split.
    - intros _.
      destruct (users_page_cases
                  (dict_get (req_params req) ConduitClient.PHIDS))
        as [-> | [-> | ->]]; intros users H; vm_compute in H;
        injection H as <-; repeat constructor.
    - intros Hu. rewrite Hu in E2. vm_compute in E2. discriminate. }
  intros [= <- <-].
  split; intros Hu; [rewrite Hu in E3; vm_compute in E3
                    |rewrite Hu in E2; vm_compute in E2]; discriminate.
Qed.

(** C1 on the scenario: the tasks of a whole call of [fetch]. *)
Lemma yielded_tasks_are_enriched_witness :
  Forall (fun task => enriched task = true)
         (snd (fst (fst (Phabricator.consume python server 5 start
                                             fetch_call)))).
Proof.
  refine (proj1 (yielded_tasks_are_enriched python server start 0%Z 5
                   server_well_shaped _)).
  intros k user H. discriminate H.
Defined.

(** C7 on the scenario: the first page, consumed to its second and last
    task, and the call of [next] that follows. *)
Lemma page_flushed_once_witness :
  exists reqs,
    net_log (fst (fst (fst (Phabricator.consume python server 2 start
                                                fetch_call))))
    = net_log (after_purge start) ++ reqs
    /\ cache_queue
         (self (fst (fst (fst (Phabricator.consume python server 2 start
                                                   fetch_call)))))
       = replies server (net_log (after_purge start)) reqs
    /\ cache
         (self (after_flush
                  (fst (fst (fst (Phabricator.consume python server 2 start
                                                      fetch_call))))))
       = cache (self (after_purge start))
         ++ [replies server (net_log (after_purge start)) reqs]
    /\ forall (w3 : world) (s : signal json)
              (g3 : Phabricator.fetch_gen python),
        Phabricator.fetch_next python server
          (fst (fst (fst (Phabricator.consume python server 2 start
                                              fetch_call))))
          (snd (Phabricator.consume python server 2 start fetch_call))
        = (w3, s, g3) ->
        cache (self w3)
        = cache (self (after_purge start))
          ++ [replies server (net_log (after_purge start)) reqs]
        /\ match s with
           | Raised _ => True
           | _ =>
               exists more,
                 net_log w3
                 = net_log (fst (fst (fst (Phabricator.consume python server
                                             2 start fetch_call))))
                   ++ more
                 /\ cache_queue (self w3)
                    = replies server
                        (net_log (fst (fst (fst (Phabricator.consume python
                                                   server 2 start
                                                   fetch_call)))))
                        more
           end.
Proof.
  eapply (proj1 (proj2 (proj2
            (page_flushed_once python server start (after_purge start)
               _ _ fetch_call (ConduitClient.TasksCreated python 0%Z)
               _ _ _ _ _ _ _ _ _ _ _ _)))).
  Unshelve.
  all: try (lazy; reflexivity).
Defined.

End OnTheScenario.

(** * More properties of the code *)

(** ** The base URL of a client *)

Lemma rstrip_slash_slashes (s : string) :
  exists n, s = (rstrip_slash s ++ slashes n)%string.
Proof.
  induction s as [|a s [n IH]]; cbn [rstrip_slash].
  - exists 0. reflexivity.
  - destruct (rstrip_slash s) as [|b r] eqn:Hs.
    + destruct (Ascii.eqb a "/") eqn:Ha.
      * apply Ascii.eqb_eq in Ha. subst a. exists (S n). cbn.
        f_equal. exact IH.
      * exists n. cbn. f_equal. exact IH.
    + exists n. cbn. f_equal. exact IH.
Qed.

Lemma append_slash_nonempty (t : string) : (t ++ "/")%string <> EmptyString.
Proof. destruct t; discriminate. Qed.

Lemma rstrip_slash_no_trailing (s t : string) :
  rstrip_slash s <> (t ++ "/")%string.
Proof.
  revert t. induction s as [|a s IH]; intros t; cbn [rstrip_slash].
  - intros H. symmetry in H. now apply append_slash_nonempty in H.
  - destruct (rstrip_slash s) as [|b r] eqn:Hs.
    + destruct (Ascii.eqb a "/") eqn:Ha.
      * intros H. symmetry in H. now apply append_slash_nonempty in H.
      * destruct t as [|a' t]; cbn.
        -- intros [= ->]. discriminate.
        -- intros [= _ H]. symmetry in H.
           now apply append_slash_nonempty in H.
    + destruct t as [|a' t]; cbn.
      * intros [=].
      * intros [= _ H]. now apply (IH t).
Qed.

(** X1. The base URL of a client is the URL it was given without its
    trailing slashes: the URL is the base URL followed by slashes only,
    the base URL does not end with a slash, and a client built from its
    own base URL is the same client.  A backend keeps the URL as given and
    builds its client from it. *)
Theorem base_url_is_stripped (given token : string) :
  let c := ConduitClient.__init__ given token in
  (exists n, given = (base_url c ++ slashes n)%string)
  /\ (forall t, base_url c <> (t ++ "/")%string)
  /\ ConduitClient.__init__ (base_url c) token = c
  /\ (forall cache origin,
         url (Phabricator.__init__ given token cache origin) = given
         /\ client (Phabricator.__init__ given token cache origin) = c).
Proof.
  cbn. split; [apply rstrip_slash_slashes|].
  split; [intros t; apply rstrip_slash_no_trailing|].
  split; [|intros; split; reflexivity].
  unfold ConduitClient.__init__. f_equal.
  induction given as [|a s IH]; cbn [rstrip_slash]; [reflexivity|].
  destruct (rstrip_slash s) as [|b r] eqn:Hs.
  - destruct (Ascii.eqb a "/") eqn:Ha; cbn; [reflexivity|].
    now rewrite Ha.
  - cbn [rstrip_slash] in *. rewrite IH. reflexivity.
Qed.

(** ** The requests of the page walk *)

Section PageRequests.

Variable R : runtime.
Variable server : list request -> request -> reply.
Variable c : conduit_client.
Variable ts : Z.

Lemma page_request_call (params : dict) (after : option json) :
  kept ts params ->
  dict_get params ConduitClient.PAFTER = after ->
  page_request c ts after
    (call_request c ConduitClient.MANIPHEST_TASKS params)
  /\ kept ts (req_params (call_request c ConduitClient.MANIPHEST_TASKS params)).
Proof.
  intros [Hc Ho] Ha. unfold page_request, kept, call_request.
  cbn [req_url req_params].
  rewrite !dict_get_set_other by discriminate.
  rewrite dict_get_set_same. repeat split; assumption.
Qed.

Lemma replies_cons_accepted (log : list request) (req : request)
    (reqs : list request) (text : string) :
  accepted R (server log req) text ->
  replies server log (req :: reqs)
  = text :: replies server (log ++ [req]) reqs.
Proof.
  intros (status & _ & _ & Hr & _). cbn [replies]. now rewrite Hr.
Qed.

(** The walk from a request with the parameters [params]. *)
Lemma walk_call (fuel : nat) (params : dict) (after : option json)
    (w : world)
    (IH : forall params r w,
        kept ts params ->
        let '(w', pages, e) :=
          walk R server fuel c w (ConduitClient.TasksYielded params r) in
        exists reqs tail,
          net_log w' = net_log w ++ reqs
          /\ ((reqs = [] /\ pages = [])
              \/ exists a, cursor R r = Ok a /\ truthy a = true
                           /\ paged R c ts (Some a) reqs pages)
          /\ replies server (net_log w) reqs = pages ++ tail) :
  kept ts params ->
  dict_get params ConduitClient.PAFTER = after ->
  let '(w', pages, e) :=
    match ConduitClient.tasks_call R server c params w with
    | (w', Ok (Some r, g')) =>
        let '(w'', pages, e) := walk R server fuel c w' g' in
        (w'', r :: pages, e)
    | (w', Ok (None, _)) => (w', [], Phabricator.Exhausted)
    | (w', Raise e) => (w', [], Phabricator.Failed e)
    end in
  exists reqs tail,
    net_log w' = net_log w ++ reqs
    /\ paged R c ts after reqs pages
    /\ reqs <> []
    /\ replies server (net_log w) reqs = pages ++ tail.
Proof.
  intros Hk Ha.
  destruct (page_request_call params after Hk Ha) as [Hreq Hk'].
  unfold ConduitClient.tasks_call, bind, ret.
  assert (Hw := call_world R server c ConduitClient.MANIPHEST_TASKS params w).
  destruct (ConduitClient._call _ _ _ _ _ _) as [w1 [[p text]|e]] eqn:Hcall;
    cbn [fst] in Hw; subst w1.
  - destruct (call_returns_inv R server _ _ _ _ _ _ _ Hcall)
      as (Hacc & -> & _).
    specialize (IH _ text
                  (log_request
                     (call_request c ConduitClient.MANIPHEST_TASKS params) w)
                  Hk').
    destruct (walk R server fuel c _ _) as [[w'' pages] e].
    destruct IH as (reqs & tail & Hlog & Hp & Hr).
    exists (call_request c ConduitClient.MANIPHEST_TASKS params :: reqs), tail.
    split.
    { rewrite Hlog. cbn [log_request net_log]. now rewrite <- app_assoc. }
    split; [cbn [paged]; split; [exact Hreq|exact Hp]|].
    split; [discriminate|].
    rewrite (replies_cons_accepted _ _ _ _ Hacc).
    cbn [log_request net_log] in Hr. rewrite Hr. reflexivity.
  - exists [call_request c ConduitClient.MANIPHEST_TASKS params],
      (replies server (net_log w)
               [call_request c ConduitClient.MANIPHEST_TASKS params]).
    split; [reflexivity|]. split; [cbn; auto|].
    split; [discriminate|reflexivity].
Qed.

Lemma walk_yielded (fuel : nat) :
  forall params r w,
    kept ts params ->
    let '(w', pages, e) :=
      walk R server fuel c w (ConduitClient.TasksYielded params r) in
    exists reqs tail,
      net_log w' = net_log w ++ reqs
      /\ ((reqs = [] /\ pages = [])
          \/ exists a, cursor R r = Ok a /\ truthy a = true
                       /\ paged R c ts (Some a) reqs pages)
      /\ replies server (net_log w) reqs = pages ++ tail.
Proof.
  induction fuel as [|fuel IH]; intros params r w Hk.
  - cbn. exists [], []. rewrite app_nil_r. auto.
  - cbn [walk]. rewrite tasks_next_cursor.
    destruct (cursor R r) as [a|e] eqn:Hc.
    2:{ exists [], []. rewrite app_nil_r. auto. }
    destruct (truthy a) eqn:Ht; cbn [negb].
    2:{ exists [], []. rewrite app_nil_r. auto. }
    assert (Hk2 : kept ts (dict_set params ConduitClient.PAFTER a)).
    { destruct Hk as [H1 H2]. unfold kept.
      rewrite !dict_get_set_other by discriminate. auto. }
    assert (H := walk_call fuel (dict_set params ConduitClient.PAFTER a)
                   (Some a) w IH Hk2 (dict_get_set_same _ _ _)).
    match type of H with
    | match ?X with _ => _ end => destruct X as [[w' pages] e]
    end.
    destruct H as (reqs & tail & Hlog & Hp & _ & Hr).
    exists reqs, tail. split; [exact Hlog|]. split; [|exact Hr].
    right. exists a. auto.
Qed.

End PageRequests.

Section PagingProtocol.

Variable R : runtime.
Variable server : list request -> request -> reply.

(** X2. However long the page generator is consumed, every request it
    sends is a [maniphest.search] with the token of the client, the order
    ['outdated'] and the constraint [modifiedStart] equal to the timestamp
    of the date in UTC; the first one has no cursor; a page is followed by
    another request only when its cursor is true, and that request carries
    that cursor as ['after'].  The pages received are the bodies of the
    replies, in order. *)
Theorem walk_is_paged (fuel : nat) (c : conduit_client) (w : world)
    (from_date : datetime R) :
  let '(w', pages, e) :=
    walk R server fuel c w (ConduitClient.TasksCreated R from_date) in
  exists reqs tail,
    net_log w' = net_log w ++ reqs
    /\ paged R c (timestamp R (datetime_to_utc R from_date)) None reqs pages
    /\ replies server (net_log w) reqs = pages ++ tail.
Proof.
  destruct fuel as [|fuel].
  - cbn. exists [], []. rewrite app_nil_r. cbn. auto.
  - cbn [walk ConduitClient.tasks_next].
    set (ts := timestamp R (datetime_to_utc R from_date)).
    assert (H := walk_call R server c ts fuel
                   [(ConduitClient.PCONSTRAINTS,
                     JObj [(ConduitClient.PMODIFIED_START, JInt ts)]);
                    (ConduitClient.PORDER, JStr ConduitClient.VOUTDATED)]
                   None w (walk_yielded R server c ts fuel)
                   (conj eq_refl eq_refl) eq_refl).
    match type of H with
    | match ?X with _ => _ end => destruct X as [[w' pages] e]
    end.
    destruct H as (reqs & tail & Hlog & Hp & _ & Hr).
    exists reqs, tail. auto.
Qed.

End PagingProtocol.

(** ** What a call of [fetch] keeps *)

Section KeptByFetch.

Variable R : runtime.
Variable server : list request -> request -> reply.

(** The page generator sends at most one request, a [maniphest.search]. *)
Lemma tasks_next_world (c : conduit_client) (g : ConduitClient.tasks_gen R)
    (w : world) :
  fst (ConduitClient.tasks_next R server c g w) = w
  \/ exists params,
      fst (ConduitClient.tasks_next R server c g w)
      = log_request (call_request c ConduitClient.MANIPHEST_TASKS params) w.
Proof.
  assert (Hcall : forall params,
            fst (ConduitClient.tasks_call R server c params w)
            = log_request
                (call_request c ConduitClient.MANIPHEST_TASKS params) w).
  { intros params. unfold ConduitClient.tasks_call, bind, ret.
    assert (H := call_world R server c ConduitClient.MANIPHEST_TASKS
                   params w).
    destruct (ConduitClient._call _ _ _ _ _ _) as [w' [[p r]|e]];
      exact H. }
  destruct g as [from_date|params r|].
  - right. eexists. apply Hcall.
  - rewrite tasks_next_cursor.
    destruct (cursor R r) as [after|e]; [|now left].
    destruct (truthy after); cbn [negb]; [|now left].
    right. eexists. apply Hcall.
  - now left.
Qed.

(** An invariant [Inv] that reads only the client, the users and the
    request log, and that the three requests and the caching of a user
    that was not cached keep. *)
Variable Inv : world -> Prop.

Hypothesis reads_only : forall w w',
  client (self w') = client (self w) ->
  _users (self w') = _users (self w) ->
  net_log w' = net_log w ->
  Inv w -> Inv w'.

Hypothesis request_keeps : forall w method params,
  In method [ConduitClient.MANIPHEST_TASKS;
             ConduitClient.MANIPHEST_TRANSACTIONS;
             ConduitClient.PHAB_USERS] ->
  Inv w ->
  Inv (log_request (call_request (client (self w)) method params) w).

Hypothesis caching_keeps : forall w k user,
  users_get (_users (self w)) k = None ->
  Inv w ->
  Inv (set_users (fun d => users_set d k user) w).

Lemma kept_by_resolver (user_id : json) :
  hoare Inv (Phabricator.__get_or_fetch_user R server user_id)
        (fun _ w => True /\ Inv w) (fun _ => Inv).
Proof.
  intros w Hw.
  assert (Hreq : Inv (log_request
                        (users_request (client (self w)) user_id) w)).
  { apply request_keeps; [|exact Hw]. cbn. auto. }
  destruct (get_or_fetch_user_resolution R server user_id w)
    as [Hk|k' user Hk Hu|k' e Hk Hu Hcall|k' text e Hk Hu Hacc Hp
        |k' text user Hk Hu Hacc Hp]; auto.
  - revert Hreq. now apply reads_only.
  - split; [exact I|]. apply caching_keeps; [exact Hu|].
    revert Hreq. now apply reads_only.
Qed.

Lemma kept_by_transactions (ids : list json) (w : world) :
  Inv w ->
  match ConduitClient.transactions R server (client (self w)) ids w with
  | (w', Ok raw) => True /\ Inv (after_push raw w')
  | (w', Raise _) => Inv w'
  end.
Proof.
  intros Hw. rewrite transactions_eq.
  assert (H := call_world R server (client (self w))
                 ConduitClient.MANIPHEST_TRANSACTIONS
                 [(ConduitClient.PIDS, JArr ids)] w).
  assert (Hreq := request_keeps w ConduitClient.MANIPHEST_TRANSACTIONS
                    [(ConduitClient.PIDS, JArr ids)]
                    (or_intror (or_introl eq_refl)) Hw).
  destruct (ConduitClient._call _ _ _ _ _ _) as [w' [[p raw]|e]];
    cbn [fst] in H; subst w'.
  - split; [exact I|]. revert Hreq. now apply reads_only.
  - exact Hreq.
Qed.

Lemma kept_by_pages (pages : ConduitClient.tasks_gen R) (w : world) :
  Inv w ->
  match ConduitClient.tasks_next R server (client (self w)) pages w with
  | (w', Ok (Some raw, _)) => Inv (after_push raw w')
  | (w', Ok (None, _)) => Inv w'
  | (w', Raise _) => Inv w'
  end.
Proof.
  intros Hw.
  assert (Hw' : Inv (fst (ConduitClient.tasks_next R server
                            (client (self w)) pages w))).
  { destruct (tasks_next_world (client (self w)) pages w)
      as [-> | [params ->]]; [exact Hw|].
    apply request_keeps; [|exact Hw]. cbn. auto. }
  destruct (ConduitClient.tasks_next _ _ _ _ _)
    as [w' [[[raw|] pages']|e]]; cbn [fst] in Hw'; try exact Hw'.
  revert Hw'. now apply reads_only.
Qed.

Lemma kept_by_turn (g : Phabricator.fetch_tasks_gen R) :
  hoare Inv (Phabricator.__fetch_tasks_next R server g)
        (fun _ => Inv) (fun _ => Inv).
Proof.
  assert (Hpage : forall pages,
            hoare Inv (Phabricator.next_page R server pages)
                  (fun _ => Inv) (fun _ => Inv)).
  { intros pages.
    eapply hoare_conseq;
      [apply (stage_next_page R server Inv Inv (fun _ => True)
                (fun _ => True) (fun w H => H) kept_by_resolver
                kept_by_transactions kept_by_pages pages)
      | auto | cbn beta; intros a w [_ H]; exact H | auto]. }
  destruct g as [from_date|pages tasks_trans [|task rest]|];
    cbn [Phabricator.__fetch_tasks_next].
  - apply Hpage.
  - eapply hoare_bind_modify; [|apply Hpage].
    intros w. now apply reads_only.
  - unfold Phabricator.yield_task.
    eapply hoare_bind.
    { apply (stage_enrich_task R server Inv Inv (fun _ => True)
               (fun w H => H) kept_by_resolver). }
    intros task'. apply hoare_ret. intros w [_ H]. exact H.
  - apply hoare_ret. auto.
Qed.

Lemma kept_by_resume (g : Phabricator.fetch_gen R) :
  hoare Inv (Phabricator.fetch_resume R server g)
        (fun _ => Inv) (fun _ => Inv).
Proof.
  assert (Hloop : forall inner n,
            hoare Inv (Phabricator.fetch_loop R server inner n)
                  (fun _ => Inv) (fun _ => Inv)).
  { intros inner n. unfold Phabricator.fetch_loop.
    eapply hoare_bind; [apply kept_by_turn|].
    intros [[task|] inner']; apply hoare_ret; auto. }
  destruct g as [from_date|inner n|]; cbn [Phabricator.fetch_resume].
  - eapply hoare_bind_modify; [|apply Hloop].
    intros w. now apply reads_only.
  - apply Hloop.
  - apply hoare_ret. auto.
Qed.

(** Such an invariant holds however long a call of [fetch] is consumed,
    from any state of its generator, whether it ends with an exception or
    not. *)
Lemma kept_by_consume (fuel : nat) (w : world) (g : Phabricator.fetch_gen R) :
  Inv w -> Inv (fst (fst (fst (Phabricator.consume R server fuel w g)))).
Proof.
  revert w g. induction fuel as [|fuel IH]; intros w g Hw; [exact Hw|].
  cbn [Phabricator.consume]. unfold Phabricator.fetch_next.
  assert (H := kept_by_resume g w Hw).
  destruct (Phabricator.fetch_resume R server g w)
    as [w' [[[task|] g']|e]]; try exact H.
  specialize (IH w' g' H).
  destruct (Phabricator.consume R server fuel w' g')
    as [[[w'' tasks] ending] g'']. exact IH.
Qed.

End KeptByFetch.

Section FetchKeeps.

Variable R : runtime.
Variable server : list request -> request -> reply.

Lemma authentic_call (c : conduit_client) (method : string) (params : dict) :
  In method [ConduitClient.MANIPHEST_TASKS;
             ConduitClient.MANIPHEST_TRANSACTIONS;
             ConduitClient.PHAB_USERS] ->
  authentic c (call_request c method params).
Proof.
  intros Hm. unfold authentic, call_request.
  cbn [req_url req_params req_output req_conduit].
  rewrite dict_get_set_same. repeat split.
  destruct Hm as [<-|[<-|[<-|[]]]]; auto.
Qed.

(** X3. However long a call of [fetch] is consumed, from any state of its
    generator and whether it ends with an exception or not, every request
    it sends goes to one of the three methods [maniphest.search],
    [maniphest.gettasktransactions] and [user.query] of the client's base
    URL, carries the client's token under ['__conduit__'] whatever the
    parameters, and has the constant fields [output = 'json'] and
    [__conduit__ = True]. *)
Theorem requests_are_authentic (fuel : nat) (w : world)
    (g : Phabricator.fetch_gen R) :
  exists session,
    net_log (fst (fst (fst (Phabricator.consume R server fuel w g))))
    = net_log w ++ session
    /\ Forall (authentic (client (self w))) session.
Proof.
  apply (kept_by_consume R server
           (authentic_since (client (self w)) (net_log w))).
  - intros w1 w2 Hc _ Hl (Hc1 & session & Hlog & Ha).
    split; [congruence|]. exists session. rewrite Hl. auto.
  - intros w1 method params Hm (Hc1 & session & Hlog & Ha).
    split; [exact Hc1|]. exists (session ++ [call_request
                                               (client (self w1)) method
                                               params]).
    cbn [log_request net_log]. rewrite Hlog, app_assoc.
    split; [reflexivity|]. apply Forall_app. split; [exact Ha|].
    constructor; [|constructor]. rewrite Hc1. now apply authentic_call.
  - intros w1 k user _ H. exact H.
  - split; [reflexivity|]. exists []. rewrite app_nil_r. auto.
Qed.

(** X6. A call of [fetch] never forgets or replaces a user of [_users]
    and never changes the client: however long it is consumed, from any
    state of its generator and whether it ends with an exception or not,
    a record found in [_users] before is found unchanged after. *)
Theorem users_are_kept (fuel : nat) (w : world)
    (g : Phabricator.fetch_gen R) (k : hkey) (user : json) :
  users_get (_users (self w)) k = Some user ->
  users_get
    (_users (self (fst (fst (fst (Phabricator.consume R server fuel w g))))))
    k = Some user
  /\ client (self (fst (fst (fst (Phabricator.consume R server fuel w g)))))
     = client (self w).
Proof.
  intros Hu.
  assert (H : (fun w' => users_kept w w'
                         /\ client (self w') = client (self w))
                (fst (fst (fst (Phabricator.consume R server fuel w g))))).
  { apply (kept_by_consume R server).
    - intros w1 w2 Hc Hus _ [H1 H2]. split; [|congruence].
      intros k0 u0 H0. rewrite Hus. now apply H1.
    - intros w1 method params _ H. exact H.
    - intros w1 k0 u0 Hnone [H1 H2]. split; [|exact H2].
      intros k1 u1 H. specialize (H1 k1 u1 H).
      cbn [set_users self _users]. rewrite users_get_set_other; [exact H1|].
      intros ->. rewrite Hnone in H1. discriminate.
    - split; [intros k0 u0 H0; exact H0 | reflexivity]. }
  destruct H as [H1 H2]. split; [now apply H1 | exact H2].
Qed.

End FetchKeeps.

(** ** The tasks of a page *)

Section PageTasks.

Variable R : runtime.
Variable server : list request -> request -> reply.

Lemma enrich_task_only_adds (tasks_trans task task' : json) (w w' : world) :
  Phabricator.enrich_task R server tasks_trans task w = (w', Ok task') ->
  only_adds task task'.
Proof.
  intros H.
  destruct (enrich_task_returns _ _ _ _ _ _ _ H)
    as (d & fields & id & aid & oid & author & owner & trans & w1
        & -> & Hid & Hf & _ & _ & _ & _ & _ & ->).
  unfold only_adds. eexists d, fields, _, _, _, _.
  split; [reflexivity|]. split; [exact Hf|]. split; [reflexivity|].
  split.
  { rewrite dict_get_set_other by discriminate. apply dict_get_set_same. }
  split.
  { rewrite dict_keys_set, dict_keys_set, Hf, app_nil_r. reflexivity. }
  split.
  { destruct (dict_get _ "transactions"); [apply incl_nil_l|apply incl_refl]. }
  split.
  { rewrite dict_keys_set, dict_keys_set, <- app_assoc. reflexivity. }
  split.
  { intros k Hk. apply in_app_or in Hk as [Hk|Hk].
    - destruct (dict_get fields "authorData"); cbn in Hk; intuition.
      subst. now left.
    - destruct (dict_get _ "ownerData"); cbn in Hk; intuition.
      subst. right. now left. }
  split; intros k Hk1 Hk2; now rewrite !dict_get_set_other.
Qed.

Lemma only_adds_id (task task' : json) :
  only_adds task task' ->
  Phabricator.metadata_id R task' = Phabricator.metadata_id R task.
Proof.
  intros (d & fields & d' & fields' & added & added'
          & -> & _ & -> & _ & _ & _ & _ & _ & Hd & _).
  unfold Phabricator.metadata_id. cbn [getitem].
  now rewrite Hd by discriminate.
Qed.

(** The first turn of a page with tasks, when it yields. *)
Lemma next_page_yields (pages pages' : ConduitClient.tasks_gen R)
    (w w1 w' : world) (raw : string) (task y : json) (rest : list json)
    (inner : Phabricator.fetch_tasks_gen R) :
  ConduitClient.tasks_next R server (client (self w)) pages w
  = (w1, Ok (Some raw, pages')) ->
  Phabricator.parse_tasks R raw = Ok (task :: rest) ->
  Phabricator.next_page R server pages w = (w', Ok (Some y, inner)) ->
  exists tasks_trans w2,
    inner = Phabricator.FetchTasksYielded pages' tasks_trans rest
    /\ Phabricator.enrich_task R server tasks_trans task w2 = (w', Ok y).
Proof.
  intros Hp Ht.
  destruct (rmap (fun t => getitem t "id") (task :: rest)) as [ids|e] eqn:Hi.
  - rewrite (next_page_transactions R server _ _ _ _ _ _ _ _ Hp Ht Hi).
    destruct (Phabricator.__fetch_and_parse_tasks_transactions _ _ _ _)
      as [w2 [tasks_trans|e]]; [|discriminate].
    unfold Phabricator.yield_task, bind, ret.
    destruct (Phabricator.enrich_task R server tasks_trans task w2)
      as [w3 [y'|e]] eqn:He; [|discriminate].
    intros [= <- <- <-]. eauto.
  - unfold Phabricator.next_page, bind, gets, lift, ret.
    rewrite Hp. cbn [Phabricator._push_cache_queue modify].
    rewrite Ht, Hi. discriminate.
Qed.

(** The turns of the rest of a page. *)
Lemma rest_in_order (pages : ConduitClient.tasks_gen R) (tasks_trans : json)
    (rest : list json) :
  forall (ntasks : nat) (w w' : world) (ys : list json)
         (e : Phabricator.ending) (g' : Phabricator.fetch_gen R),
    Phabricator.consume R server (List.length rest) w
      (Phabricator.FetchYielded
         (Phabricator.FetchTasksYielded pages tasks_trans rest) ntasks)
    = (w', ys, e, g') ->
    List.length ys = List.length rest ->
    Forall2 only_adds rest ys.
Proof.
  induction rest as [|task rest IH]; intros ntasks w w' ys e g'.
  - cbn. intros [= _ <- _ _] _. constructor.
  - cbn [List.length Phabricator.consume]. rewrite fetch_next_task.
    destruct (Phabricator.enrich_task R server tasks_trans task w)
      as [w1 [y|err]] eqn:He.
    + specialize (IH (S ntasks) w1).
      destruct (Phabricator.consume R server (List.length rest) w1 _)
        as [[[w2 ys2] e2] g2].
      intros [= _ <- _ _]. cbn [List.length]. intros [= Hlen].
      constructor; [now apply (enrich_task_only_adds _ _ _ _ _ He)|].
      now apply (IH _ _ _ _ eq_refl).
    + intros [= _ <- _ _]. discriminate.
Qed.

(** X4. When a consumer receives as many tasks as the page received at a
    page boundary has, these are the tasks of the page in the order of
    the page, each one enriched: nothing removed, moved or renamed, at
    most the three fields added, and the same identifier for
    [metadata_id]. *)
Theorem page_is_yielded_in_order (w wb w1 w2 : world)
    (g g2 : Phabricator.fetch_gen R)
    (pages pages' : ConduitClient.tasks_gen R) (raw : string)
    (tasks ys : list json) (e : Phabricator.ending) :
  page_boundary R w g = Some (pages, wb) ->
  ConduitClient.tasks_next R server (client (self wb)) pages wb
  = (w1, Ok (Some raw, pages')) ->
  Phabricator.parse_tasks R raw = Ok tasks ->
  Phabricator.consume R server (List.length tasks) w g = (w2, ys, e, g2) ->
  List.length ys = List.length tasks ->
  Forall2 only_adds tasks ys
  /\ Forall2 (fun task y => Phabricator.metadata_id R y
                            = Phabricator.metadata_id R task) tasks ys.
Proof.
  intros Hb Hp Ht Hrun Hlen.
  assert (Hadds : Forall2 only_adds tasks ys).
  { destruct tasks as [|task rest].
    { cbn in Hrun. injection Hrun as _ <- _ _. constructor. }
    revert Hrun. cbn [List.length Phabricator.consume].
    destruct (fetch_next_boundary R server _ _ _ _ Hb) as [n ->].
    destruct (Phabricator.next_page R server pages wb)
      as [w' [[[y|] inner]|err]] eqn:Hn.
    - destruct (next_page_yields _ _ _ _ _ _ _ _ _ _ Hp Ht Hn)
        as (tasks_trans & w3 & -> & He).
      destruct (Phabricator.consume R server (List.length rest) w' _)
        as [[[w4 ys2] e2] g4] eqn:Hrest.
      intros [= _ <- _ _]. cbn [List.length] in Hlen.
      injection Hlen as Hlen.
      constructor; [now apply (enrich_task_only_adds _ _ _ _ _ He)|].
      now apply (rest_in_order _ _ _ _ _ _ _ _ _ Hrest).
    - intros [= _ <- _ _]. discriminate.
    - intros [= _ <- _ _]. discriminate. }
  split; [exact Hadds|].
  clear Ht Hrun Hlen.
  induction Hadds as [|task y tasks' ys' H _ IH]; constructor.
  - now apply only_adds_id.
  - exact IH.
Qed.

(** X5. The identifier [metadata_id] gives for an enriched task is the
    one of the task it was enriched from, and the transactions attached
    to the task are the ones the transactions of the page hold under that
    identifier; a task whose identifier has no entry there is never
    returned. *)
Theorem transactions_follow_metadata_id (tasks_trans task : json)
    (w : world) :
  (forall w' task',
      Phabricator.enrich_task R server tasks_trans task w = (w', Ok task') ->
      exists id,
        Phabricator.metadata_id R task = Ok id
        /\ Phabricator.metadata_id R task' = Ok id
        /\ getitem task' "transactions" = getitem tasks_trans id)
  /\ (forall id e,
         Phabricator.metadata_id R task = Ok id ->
         getitem tasks_trans id = Raise e ->
         exists e',
           snd (Phabricator.enrich_task R server tasks_trans task w)
           = Raise e').
Proof.
  assert (H1 : forall w' task',
             Phabricator.enrich_task R server tasks_trans task w
             = (w', Ok task') ->
             exists id,
               Phabricator.metadata_id R task = Ok id
               /\ Phabricator.metadata_id R task' = Ok id
               /\ getitem task' "transactions" = getitem tasks_trans id).
  { intros w' task' H.
    assert (Hid' := only_adds_id _ _ (enrich_task_only_adds _ _ _ _ _ H)).
    destruct (enrich_task_returns _ _ _ _ _ _ _ H)
      as (d & fields & id & aid & oid & author & owner & trans & w1
          & -> & Hid & Hf & _ & _ & _ & _ & Ht & ->).
    exists (str R id).
    assert (Hm : Phabricator.metadata_id R (JObj d) = Ok (str R id)).
    { unfold Phabricator.metadata_id. cbn [getitem]. now rewrite Hid. }
    split; [exact Hm|]. split; [now rewrite Hid'|].
    cbn [getitem]. now rewrite dict_get_set_same, Ht. }
  split; [exact H1|].
  intros id e Hm Hnone.
  destruct (Phabricator.enrich_task R server tasks_trans task w)
    as [w' [task'|e']] eqn:H; [|cbn; eauto].
  destruct (enrich_task_returns _ _ _ _ _ _ _ H)
    as (d & fields & id0 & aid & oid & author & owner & trans & w1
        & -> & Hid & _ & _ & _ & _ & _ & Ht & _).
  unfold Phabricator.metadata_id in Hm. cbn [getitem] in Hm.
  rewrite Hid in Hm. injection Hm as <-.
  rewrite Hnone in Ht. discriminate.
Qed.

End PageTasks.

(** ** The requests of a page *)

Section PageProtocol.

Variable R : runtime.
Variable server : list request -> request -> reply.

Lemma is_users_call_request (c : conduit_client) (user_id : json) :
  is_users_call c (users_request c user_id).
Proof. reflexivity. Qed.

(** The resolver sends nothing, or the lookup of its identifier. *)
Lemma resolver_log (user_id : json) (w : world) :
  client (self (fst (Phabricator.__get_or_fetch_user R server user_id w)))
  = client (self w)
  /\ (net_log (fst (Phabricator.__get_or_fetch_user R server user_id w))
      = net_log w
      \/ net_log (fst (Phabricator.__get_or_fetch_user R server user_id w))
         = net_log w ++ [users_request (client (self w)) user_id]).
Proof.
  destruct (get_or_fetch_user_resolution R server user_id w); cbn; auto.
Qed.

Lemma only_lookups_resolver (c : conduit_client) (log0 : list request)
    (user_id : json) :
  hoare (only_lookups_since c log0)
        (Phabricator.__get_or_fetch_user R server user_id)
        (fun _ w => True /\ only_lookups_since c log0 w)
        (fun _ => only_lookups_since c log0).
Proof.
  intros w (Hc & lookups & Hlog & Hl).
  assert (H := resolver_log user_id w).
  assert (Hw : only_lookups_since c log0
                 (fst (Phabricator.__get_or_fetch_user R server user_id w))).
  { destruct H as [Hc' [H|H]]; split; try congruence.
    - exists lookups. now rewrite H.
    - exists (lookups ++ [users_request c user_id]).
      rewrite H, Hlog, Hc, app_assoc. split; [reflexivity|].
      apply Forall_app. split; [exact Hl|].
      constructor; [apply is_users_call_request|constructor]. }
  destruct (Phabricator.__get_or_fetch_user R server user_id w)
    as [w' [user|e]]; cbn [fst] in Hw; auto.
Qed.

(** The world [enrich_task] ends in is the one it started in, or the one
    a resolution ended in, or the one a second resolution ended in. *)
Lemma enrich_task_world (tasks_trans task : json) (w : world) :
  exists author_id owner_id,
    In (fst (Phabricator.enrich_task R server tasks_trans task w))
       [w;
        fst (Phabricator.__get_or_fetch_user R server author_id w);
        fst (Phabricator.__get_or_fetch_user R server owner_id
               (fst (Phabricator.__get_or_fetch_user R server author_id w)))].
Proof.
  unfold Phabricator.enrich_task.
  unfold bind at 1, lift at 1.
  destruct (getitem task "id") as [id|];
    [|exists JNull, JNull; now left].
  unfold bind at 1, lift at 1.
  destruct (_ <- getitem task "fields" ;; _)%result as [aid|];
    [|exists JNull, JNull; now left].
  unfold bind at 1, lift at 1.
  destruct (_ <- getitem task "fields" ;; _)%result as [oid|];
    [|exists JNull, JNull; now left].
  exists aid, oid.
  unfold bind at 1.
  destruct (Phabricator.__get_or_fetch_user R server aid w)
    as [w1 [author|]]; cbn [fst]; [|right; now left].
  unfold bind at 1, lift at 1.
  destruct (Phabricator.set_field task "authorData" author) as [task1|];
    [|right; now left].
  unfold bind at 1.
  destruct (Phabricator.__get_or_fetch_user R server oid w1)
    as [w2 [owner|]]; cbn [fst]; [|right; right; now left].
  unfold bind at 1, lift at 1.
  destruct (Phabricator.set_field task1 "ownerData" owner) as [task2|];
    [|right; right; now left].
  unfold bind at 1, lift at 1.
  destruct (getitem tasks_trans _) as [trans|]; [|right; right; now left].
  unfold lift. right. right. now left.
Qed.

(** Enriching a task sends at most two requests, both lookups. *)
Lemma enrich_task_log (tasks_trans task : json) (w : world) :
  client (self (fst (Phabricator.enrich_task R server tasks_trans task w)))
  = client (self w)
  /\ exists lookups,
      net_log (fst (Phabricator.enrich_task R server tasks_trans task w))
      = net_log w ++ lookups
      /\ Forall (is_users_call (client (self w))) lookups
      /\ List.length lookups <= 2.
Proof.
  destruct (enrich_task_world tasks_trans task w) as (aid & oid & H).
  destruct (resolver_log aid w) as [Hc1 H1].
  destruct (resolver_log oid
              (fst (Phabricator.__get_or_fetch_user R server aid w)))
    as [Hc2 H2].
  rewrite Hc1 in H2.
  assert (Ha : is_users_call (client (self w))
                 (users_request (client (self w)) aid))
    by apply is_users_call_request.
  assert (Ho : is_users_call (client (self w))
                 (users_request (client (self w)) oid))
    by apply is_users_call_request.
  destruct H as [<- | [<- | [<- | []]]].
  - split; [reflexivity|]. exists []. rewrite app_nil_r. cbn. auto.
  - split; [exact Hc1|]. destruct H1 as [-> | ->].
    + exists []. rewrite app_nil_r. cbn. auto.
    + eexists. split; [reflexivity|]. cbn. auto.
  - split; [congruence|].
    destruct H2 as [-> | ->]; destruct H1 as [-> | ->].
    + exists []. rewrite app_nil_r. cbn. auto.
    + eexists. split; [reflexivity|]. cbn. auto.
    + eexists. split; [reflexivity|]. cbn. auto.
    + rewrite <- app_assoc. eexists. split; [reflexivity|]. cbn. auto.
Qed.

Lemma only_lookups_resolve_all (c : conduit_client) (log0 : list request)
    (d : dict) :
  hoare (only_lookups_since c log0)
        (mapM (fun kv =>
                 (trans <- Phabricator.resolve_transactions R server (snd kv) ;;
                  ret (fst kv, trans))%monad) d)
        (fun _ => only_lookups_since c log0)
        (fun _ => only_lookups_since c log0).
Proof.
  eapply hoare_conseq;
    [apply (hoare_mapM2 (only_lookups_since c log0) _ d (fun _ _ => True)
              (fun _ => only_lookups_since c log0))
    | auto | cbn beta; intros a w [_ H]; exact H | auto].
  intros kv _.
  eapply hoare_bind.
  { apply (stage_resolve_transactions R server (only_lookups_since c log0)
             (only_lookups_since c log0) (fun _ => True) (fun w H => H)
             (only_lookups_resolver c log0)). }
  intros trans. apply hoare_ret. intros w0 [_ H]. auto.
Qed.

(** The transactions stage sends the bulk lookup and then only lookups of
    users. *)
Lemma transactions_stage_log (ids : list json) (w : world) :
  client (self (fst (Phabricator.__fetch_and_parse_tasks_transactions
                       R server ids w)))
  = client (self w)
  /\ exists lookups,
      net_log (fst (Phabricator.__fetch_and_parse_tasks_transactions
                      R server ids w))
      = net_log w ++ transactions_request (client (self w)) ids :: lookups
      /\ Forall (is_users_call (client (self w))) lookups.
Proof.
  set (c := client (self w)).
  set (L := net_log w ++ [transactions_request c ids]).
  assert (Hgoal : only_lookups_since c L
                    (fst (Phabricator.__fetch_and_parse_tasks_transactions
                            R server ids w))).
  { unfold Phabricator.__fetch_and_parse_tasks_transactions.
    unfold bind at 1, gets at 1. unfold bind at 1.
    rewrite transactions_eq.
    assert (Hw := call_world R server (client (self w))
                    ConduitClient.MANIPHEST_TRANSACTIONS
                    [(ConduitClient.PIDS, JArr ids)] w).
    assert (H0 : only_lookups_since c L
                   (log_request (transactions_request c ids) w)).
    { split; [reflexivity|]. exists []. cbn. now rewrite app_nil_r. }
    destruct (ConduitClient._call _ _ _ _ _ _) as [w1 [[p raw]|e]];
      cbn [fst] in Hw; subst w1; [|exact H0].
    rewrite bind_push.
    fold (transactions_request (client (self w)) ids). fold c.
    assert (H1 : only_lookups_since c L
                   (after_push raw
                      (log_request (transactions_request c ids) w)))
      by exact H0.
    revert H1. generalize (after_push raw
                             (log_request (transactions_request c ids) w)).
    intros w1 Hw1.
    unfold bind at 1, lift at 1.
    destruct (Phabricator.parse_tasks_transactions R raw) as [tt|e];
      [|exact Hw1].
    destruct tt as [| | | | |d]; try exact Hw1.
    unfold bind at 1.
    assert (Hm := only_lookups_resolve_all c L d w1 Hw1).
    destruct (mapM _ d w1) as [w' [d'|e]]; exact Hm. }
  destruct Hgoal as (Hc & lookups & Hlog & Hl).
  split; [exact Hc|]. exists lookups. split; [|exact Hl].
  rewrite Hlog. unfold L. now rewrite <- app_assoc.
Qed.

(** X7. The requests of a page.  The turn that receives a page with tasks
    sends one [maniphest.search], then one [maniphest.gettasktransactions]
    for the identifiers of all the tasks of the page, in the order of the
    page, and after it only lookups of users, whether the turn yields or
    raises.  The turn of each later task of the page sends at most two
    requests, both lookups of users. *)
Theorem page_sends_one_bulk_lookup :
  (forall (pages pages' : ConduitClient.tasks_gen R) (w w1 : world)
          (raw : string) (task : json) (rest ids : list json),
      ConduitClient.tasks_next R server (client (self w)) pages w
      = (w1, Ok (Some raw, pages')) ->
      Phabricator.parse_tasks R raw = Ok (task :: rest) ->
      rmap (fun t => getitem t "id") (task :: rest) = Ok ids ->
      exists params lookups,
        net_log (fst (Phabricator.next_page R server pages w))
        = net_log w
          ++ call_request (client (self w)) ConduitClient.MANIPHEST_TASKS
                          params
          :: transactions_request (client (self w)) ids
          :: lookups
        /\ Forall (is_users_call (client (self w))) lookups)
  /\ (forall (pages : ConduitClient.tasks_gen R) (tasks_trans task : json)
             (rest : list json) (ntasks : nat) (w : world),
         exists lookups,
           net_log (fst (fst (Phabricator.fetch_next R server w
                      (Phabricator.FetchYielded
                         (Phabricator.FetchTasksYielded pages tasks_trans
                                                        (task :: rest))
                         ntasks))))
           = net_log w ++ lookups
           /\ Forall (is_users_call (client (self w))) lookups
           /\ List.length lookups <= 2).
Proof.
  split.
  - intros pages pages' w w1 raw task rest ids Hp Ht Hi.
    assert (Hw1 : exists params,
               w1 = log_request
                      (call_request (client (self w))
                                    ConduitClient.MANIPHEST_TASKS params) w).
    { assert (H := tasks_next_world R server (client (self w)) pages w).
      assert (H' := tasks_next_page R server _ _ _ _ _ _ Hp).
      rewrite Hp in H. cbn [fst] in H.
      destruct H as [-> | [params ->]]; [|eauto].
      destruct H' as (req & Hreq & _).
      apply (f_equal (fun x => List.length (net_log x))) in Hreq.
      cbn in Hreq. rewrite length_app in Hreq. cbn in Hreq. lia. }
    destruct Hw1 as [params ->]. exists params.
    rewrite (next_page_transactions R server _ _ _ _ _ _ _ _ Hp Ht Hi).
    set (w2 := after_push raw
                 (log_request
                    (call_request (client (self w))
                                  ConduitClient.MANIPHEST_TASKS params) w)).
    destruct (transactions_stage_log ids w2)
      as (Hc & lookups & Hlog & Hl).
    change (client (self w2)) with (client (self w)) in *.
    change (net_log w2)
      with (net_log w
            ++ [call_request (client (self w))
                             ConduitClient.MANIPHEST_TASKS params]) in Hlog.
    rewrite <- app_assoc in Hlog. cbn [app] in Hlog.
    destruct (Phabricator.__fetch_and_parse_tasks_transactions _ _ _ _)
      as [w3 [tasks_trans|e]]; cbn [fst] in *; [|eauto].
    destruct (enrich_task_log tasks_trans task w3)
      as (_ & more & Hlog' & Hm & _).
    rewrite Hc in Hm.
    assert (Hy : fst (Phabricator.yield_task R server pages' tasks_trans
                        task rest w3)
                 = fst (Phabricator.enrich_task R server tasks_trans task w3)).
    { unfold Phabricator.yield_task, bind, ret.
      destruct (Phabricator.enrich_task R server tasks_trans task w3)
        as [w4 [y|e]]; reflexivity. }
    rewrite Hy, Hlog', Hlog. exists (lookups ++ more).
    split; [now rewrite <- app_assoc|].
    apply Forall_app. auto.
  - intros pages tasks_trans task rest ntasks w.
    rewrite fetch_next_task.
    destruct (enrich_task_log tasks_trans task w) as (_ & lookups & H).
    exists lookups.
    destruct (Phabricator.enrich_task R server tasks_trans task w)
      as [w' [y|e]]; exact H.
Qed.

End PageProtocol.

(** ** The first request of a call of [fetch] *)

Section FirstRequest.

Variable R : runtime.
Variable server : list request -> request -> reply.

Lemma fetch_next_boundary_world (w wb : world) (g : Phabricator.fetch_gen R)
    (pages : ConduitClient.tasks_gen R) :
  page_boundary R w g = Some (pages, wb) ->
  fst (fst (Phabricator.fetch_next R server w g))
  = fst (Phabricator.next_page R server pages wb).
Proof.
  intros Hb. destruct (fetch_next_boundary R server _ _ _ _ Hb) as [n ->].
  destruct (Phabricator.next_page R server pages wb)
    as [w' [[[task|] inner]|e]]; reflexivity.
Qed.

(** After the page has been received and pushed, the turn only adds
    requests to the log. *)
Lemma next_page_extends (pages pages' : ConduitClient.tasks_gen R)
    (w w1 : world) (raw : string) :
  ConduitClient.tasks_next R server (client (self w)) pages w
  = (w1, Ok (Some raw, pages')) ->
  exists more,
    net_log (fst (Phabricator.next_page R server pages w))
    = net_log w1 ++ more.
Proof.
  intros Hp.
  destruct (Phabricator.parse_tasks R raw) as [[|task rest]|e] eqn:Ht.
  - rewrite (next_page_empty R server _ _ _ _ _ Hp Ht).
    exists []. cbn. now rewrite app_nil_r.
  - destruct (rmap (fun t => getitem t "id") (task :: rest))
      as [ids|e] eqn:Hi.
    + rewrite (next_page_transactions R server _ _ _ _ _ _ _ _ Hp Ht Hi).
      destruct (transactions_stage_log R server ids (after_push raw w1))
        as (_ & lookups & Hlog & _).
      destruct (Phabricator.__fetch_and_parse_tasks_transactions _ _ _ _)
        as [w3 [tasks_trans|e]]; cbn [fst] in *; [|eauto].
      destruct (enrich_task_log R server tasks_trans task w3)
        as (_ & more & Hlog' & _).
      unfold Phabricator.yield_task, bind, ret.
      destruct (Phabricator.enrich_task R server tasks_trans task w3)
        as [w4 [y|e]]; cbn [fst] in *; rewrite Hlog', Hlog;
        cbn [after_push net_log fst Phabricator._push_cache_queue modify
               set_cache_queue]; rewrite <- app_assoc; eauto.
    + unfold Phabricator.next_page, bind, gets, lift, ret.
      rewrite Hp. cbn [Phabricator._push_cache_queue modify].
      rewrite Ht, Hi. exists []. cbn. now rewrite app_nil_r.
  - unfold Phabricator.next_page, bind, gets, lift, ret.
    rewrite Hp. cbn [Phabricator._push_cache_queue modify].
    rewrite Ht. exists []. cbn. now rewrite app_nil_r.
Qed.

(** What the first call of [next] on a call of [fetch] adds to the log
    begins with the request of the first page. *)
Lemma first_turn_log (w : world) (from_date : datetime R) :
  exists req more,
    net_log (fst (fst (Phabricator.fetch_next R server w
                         (Phabricator.FetchCreated R from_date))))
    = net_log w ++ req :: more
    /\ page_request (client (self w))
         (timestamp R (datetime_to_utc R (datetime_to_utc R from_date)))
         None req.
Proof.
  rewrite (fetch_next_boundary_world w (after_purge w)
             (Phabricator.FetchCreated R from_date)
             (ConduitClient.TasksCreated R (datetime_to_utc R from_date))
             eq_refl).
  set (wp := after_purge w).
  set (ts := timestamp R (datetime_to_utc R (datetime_to_utc R from_date))).
  set (params := [(ConduitClient.PCONSTRAINTS,
                   JObj [(ConduitClient.PMODIFIED_START, JInt ts)]);
                  (ConduitClient.PORDER, JStr ConduitClient.VOUTDATED)]).
  set (req := call_request (client (self w)) ConduitClient.MANIPHEST_TASKS
                           params).
  assert (Hreq : page_request (client (self w)) ts None req).
  { apply (page_request_call (client (self w)) ts params None);
      [split|]; reflexivity. }
  exists req.
  destruct (ConduitClient.tasks_next R server (client (self wp))
              (ConduitClient.TasksCreated R (datetime_to_utc R from_date)) wp)
    as [w1 [[page pages']|e]] eqn:Hp.
  - assert (Hw1 : w1 = log_request req wp /\ exists raw, page = Some raw).
    { revert Hp. cbn [ConduitClient.tasks_next].
      unfold ConduitClient.tasks_call, bind, ret.
      assert (H := call_world R server (client (self wp))
                     ConduitClient.MANIPHEST_TASKS params wp).
      fold ts. fold params.
      destruct (ConduitClient._call _ _ _ _ _ _) as [w2 [[p r]|e]];
        [|discriminate].
      cbn [fst] in H. intros [= <- <- _]. split; [exact H|eauto]. }
    destruct Hw1 as [-> [raw ->]].
    destruct (next_page_extends _ _ _ _ _ Hp) as [more Hlog].
    exists more. split; [|exact Hreq].
    rewrite Hlog. cbn [log_request net_log]. now rewrite <- app_assoc.
  - exists []. split; [|exact Hreq].
    unfold Phabricator.next_page, bind, gets. rewrite Hp. cbn [fst].
    revert Hp. cbn [ConduitClient.tasks_next].
    unfold ConduitClient.tasks_call, bind, ret.
    assert (H := call_world R server (client (self wp))
                   ConduitClient.MANIPHEST_TASKS params wp).
    fold ts. fold params.
    destruct (ConduitClient._call _ _ _ _ _ _) as [w2 [[p r]|e']];
      [discriminate|].
    cbn [fst] in H. intros [= <- _]. rewrite H. reflexivity.
Qed.

(** X8. Whatever the first call of [next] on a call of [fetch] sends, the
    first request it sends asks [maniphest.search] for the tasks modified
    since the timestamp of the given date, converted to UTC by [fetch] and
    again by the client, in the order ['outdated'], without a cursor and
    with the token of the client: no other request goes out before it. *)
Theorem fetch_asks_from_the_date (w : world) (from_date : datetime R)
    (req : request) (more : list request) :
  net_log (fst (fst (Phabricator.fetch_next R server w
                       (Phabricator.FetchCreated R from_date))))
  = net_log w ++ req :: more ->
  page_request (client (self w))
    (timestamp R (datetime_to_utc R (datetime_to_utc R from_date)))
    None req.
Proof.
  intros Hlog.
  destruct (first_turn_log w from_date) as (req' & more' & Hlog' & Hreq).
  rewrite Hlog in Hlog'. apply app_inv_head in Hlog'.
  now injection Hlog' as -> _.
Qed.

End FirstRequest.

(** ** The identities of the tasks of a call of [fetch] *)

Section Identities.

Variable R : runtime.
Variable server : list request -> request -> reply.

Lemma users_kept_refl (w : world) : users_kept w w.
Proof. intros k user H. exact H. Qed.

Lemma users_kept_trans (w1 w2 w3 : world) :
  users_kept w1 w2 -> users_kept w2 w3 -> users_kept w1 w3.
Proof. intros H12 H23 k user H. apply H23, H12, H. Qed.

Lemma users_kept_consume (fuel : nat) (w : world)
    (g : Phabricator.fetch_gen R) :
  users_kept w (fst (fst (fst (Phabricator.consume R server fuel w g)))).
Proof.
  apply (kept_by_consume R server (users_kept w)).
  - intros w1 w2 _ Hus _ H k0 u0 H0. rewrite Hus. now apply H.
  - intros w1 method params _ H. exact H.
  - intros w1 k0 u0 Hnone H1 k1 u1 H. specialize (H1 k1 u1 H).
    cbn [set_users self _users]. rewrite users_get_set_other; [exact H1|].
    intros ->. rewrite Hnone in H1. discriminate.
  - apply users_kept_refl.
Qed.

Lemma users_kept_resolver (user_id : json) (w : world) :
  users_kept w (fst (Phabricator.__get_or_fetch_user R server user_id w)).
Proof.
  destruct (get_or_fetch_user_resolution R server user_id w)
    as [Hk|k' user Hk Hu|k' e Hk Hu Hcall|k' text e Hk Hu Hacc Hp
        |k' text user Hk Hu Hacc Hp]; cbn [fst];
    try (intros k u H; exact H).
  intros k u H.
  cbn [set_users after_push log_request self fst
         Phabricator._push_cache_queue modify set_cache_queue _users].
  rewrite users_get_set_other; [exact H|].
  intros ->. rewrite Hu in H. discriminate.
Qed.

(** A user the resolver returns is the record of [_users] afterwards. *)
Lemma resolver_caches (user_id user : json) (w w' : world) :
  Phabricator.__get_or_fetch_user R server user_id w = (w', Ok user) ->
  exists k,
    hash_key user_id = Ok k /\ users_get (_users (self w')) k = Some user.
Proof.
  intros H.
  assert (Hres := get_or_fetch_user_resolution R server user_id w).
  rewrite H in Hres. inversion Hres; subst.
  - eauto.
  - exists k. split; [assumption|].
    cbn [set_users after_push log_request self fst
           Phabricator._push_cache_queue modify set_cache_queue _users].
    apply users_get_set_same.
Qed.

Lemma identities_from_kept (w w' : world) (task : json) :
  users_kept w w' -> identities_from w task -> identities_from w' task.
Proof.
  intros Hk (fields & Hf & (i1 & k1 & u1 & A1 & A2 & A3 & A4)
             & (i2 & k2 & u2 & B1 & B2 & B3 & B4)).
  exists fields. split; [exact Hf|].
  split; [exists i1, k1, u1 | exists i2, k2, u2]; auto.
Qed.

(** An enriched task has the identities of the world it was enriched
    in. *)
Lemma enrich_task_identities (tasks_trans task task' : json)
    (w w' : world) :
  Phabricator.enrich_task R server tasks_trans task w = (w', Ok task') ->
  identities_from w' task'.
Proof.
  intros H.
  destruct (enrich_task_returns _ _ _ _ _ _ _ H)
    as (d & fields & id & aid & oid & author & owner & trans & w1
        & -> & Hid & Hf & Ha & Ho & Hau & How & Ht & ->).
  destruct (resolver_caches _ _ _ _ Hau) as (ka & Hka & Hca).
  destruct (resolver_caches _ _ _ _ How) as (ko & Hko & Hco).
  assert (Hkept := users_kept_resolver oid w1). rewrite How in Hkept.
  cbn [fst] in Hkept.
  eexists. split.
  { cbn [getitem]. rewrite dict_get_set_other by discriminate.
    now rewrite dict_get_set_same. }
  split.
  - exists aid, ka, author. cbn [getitem].
    rewrite !dict_get_set_other by discriminate. rewrite Ha.
    rewrite dict_get_set_same. repeat split; auto.
  - exists oid, ko, owner. cbn [getitem].
    rewrite !dict_get_set_other by discriminate. rewrite Ho.
    rewrite dict_get_set_same. repeat split; auto.
Qed.

Lemma next_page_yield_inv (pages : ConduitClient.tasks_gen R)
    (w w' : world) (y : json) (inner : Phabricator.fetch_tasks_gen R) :
  Phabricator.next_page R server pages w = (w', Ok (Some y, inner)) ->
  exists tasks_trans task w0,
    Phabricator.enrich_task R server tasks_trans task w0 = (w', Ok y).
Proof.
  unfold Phabricator.next_page, bind, gets, lift, ret.
  destruct (ConduitClient.tasks_next _ _ _ _ _)
    as [w1 [[[raw|] pages']|e]]; try discriminate.
  cbn [Phabricator._push_cache_queue modify].
  destruct (Phabricator.parse_tasks R raw) as [[|task rest]|e];
    try discriminate.
  destruct (rmap _ _) as [ids|e]; [|discriminate].
  destruct (Phabricator.__fetch_and_parse_tasks_transactions _ _ _ _)
    as [w2 [tasks_trans|e]]; [|discriminate].
  unfold Phabricator.yield_task, bind, ret.
  destruct (Phabricator.enrich_task R server tasks_trans task w2)
    as [w3 [y'|e]] eqn:He; [|discriminate].
  intros [= <- <- _]. eauto.
Qed.

(** Every task [next] yields comes out of [enrich_task]. *)
Lemma fetch_next_yield_inv (w w' : world) (g g' : Phabricator.fetch_gen R)
    (y : json) :
  Phabricator.fetch_next R server w g = (w', Yield y, g') ->
  exists tasks_trans task w0,
    Phabricator.enrich_task R server tasks_trans task w0 = (w', Ok y).
Proof.
  destruct (page_boundary R w g) as [[pages wb]|] eqn:Hb.
  - destruct (fetch_next_boundary R server _ _ _ _ Hb) as [n ->].
    destruct (Phabricator.next_page R server pages wb)
      as [w1 [[[y'|] inner]|e]] eqn:Hn; try discriminate.
    intros [= <- <- _]. now apply (next_page_yield_inv _ _ _ _ _ Hn).
  - destruct g as [from_date|[d|pages tasks_trans [|task rest]|] n|];
      try discriminate.
    + unfold Phabricator.fetch_next, Phabricator.fetch_resume,
        Phabricator.fetch_loop, bind, ret.
      cbn [Phabricator.__fetch_tasks_next].
      destruct (Phabricator.next_page R server _ w)
        as [w1 [[[y'|] inner]|e]] eqn:Hn; try discriminate.
      intros [= <- <- _]. now apply (next_page_yield_inv _ _ _ _ _ Hn).
    + rewrite fetch_next_task.
      destruct (Phabricator.enrich_task R server tasks_trans task w)
        as [w1 [y'|e]] eqn:He; [|discriminate].
      intros [= <- <- _]. eauto.
Qed.

(** X9. However long a call of [fetch] is consumed and from any state of
    its generator, in every task the consumer has received the
    ['authorData'] and the ['ownerData'] are the records that [_users]
    holds at the end for the task's ['authorPHID'] and ['ownerPHID']: two
    tasks with the same identifier carry the same record. *)
Theorem identities_are_consistent (fuel : nat) (w : world)
    (g : Phabricator.fetch_gen R) :
  Forall (identities_from
            (fst (fst (fst (Phabricator.consume R server fuel w g)))))
         (snd (fst (fst (Phabricator.consume R server fuel w g)))).
Proof.
  revert w g. induction fuel as [|fuel IH]; intros w g; [constructor|].
  cbn [Phabricator.consume].
  destruct (Phabricator.fetch_next R server w g) as [[w1 [y| |e]] g1] eqn:Hn;
    try constructor.
  - specialize (IH w1 g1).
    assert (Hk := users_kept_consume fuel w1 g1).
    destruct (Phabricator.consume R server fuel w1 g1)
      as [[[w2 ys] e2] g2]. cbn [fst snd] in *.
    constructor; [|exact IH].
    destruct (fetch_next_yield_inv _ _ _ _ _ Hn) as (tt & task & w0 & He).
    apply (identities_from_kept w1 w2); [exact Hk|].
    now apply (enrich_task_identities _ _ _ _ _ He).
Qed.

End Identities.

(** ** The further properties on the scenario *)

Section MoreOnTheScenario.

Import Scenario.

(** X4 on the scenario: the two tasks of the first page. *)
Lemma page_is_yielded_in_order_witness :
  Forall2 only_adds [task1; task2] [enriched_task1; enriched_task2]
  /\ Forall2 (fun task y => Phabricator.metadata_id python y
                            = Phabricator.metadata_id python task)
             [task1; task2] [enriched_task1; enriched_task2].
Proof.
  eapply (page_is_yielded_in_order python server start (after_purge start)
            (log_request first_page_request (after_purge start)) _
            fetch_call _ (ConduitClient.TasksCreated python 0%Z)
            (ConduitClient.TasksYielded (req_params first_page_request)
                                        (dumps page1))
            (dumps page1) [task1; task2] [enriched_task1; enriched_task2] _).
  Unshelve.
  all: try (lazy; reflexivity).
Defined.

(** X5 on the scenario: the first task and the transactions of its page. *)
Lemma transactions_follow_metadata_id_witness :
  exists id,
    Phabricator.metadata_id python task1 = Ok id
    /\ Phabricator.metadata_id python enriched_task1 = Ok id
    /\ getitem enriched_task1 "transactions"
       = getitem resolved_transactions1 id.
Proof.
  apply (proj1 (transactions_follow_metadata_id python server
                  resolved_transactions1 task1 start)
               (fst (Phabricator.enrich_task python server
                       resolved_transactions1 task1 start))
               enriched_task1).
  vm_compute. reflexivity.
Defined.

(** X6 on the scenario: alice, resolved by the first call of [fetch], is
    still in [_users] after the second. *)
Lemma users_are_kept_witness :
  users_get (_users (self after_second_fetch)) (KStr "PHID-USER-1")
  = Some alice
  /\ client (self after_second_fetch) = client (self after_first_fetch).
Proof.
  apply (users_are_kept python server 10 after_first_fetch fetch_call
           (KStr "PHID-USER-1") alice).
  vm_compute. reflexivity.
Defined.

(** X7 on the scenario: the requests of the first page. *)
Lemma page_sends_one_bulk_lookup_witness :
  exists params lookups,
    net_log (fst (Phabricator.next_page python server
                    (ConduitClient.TasksCreated python 0%Z) start))
    = net_log start
      ++ call_request (client (self start)) ConduitClient.MANIPHEST_TASKS
                      params
      :: transactions_request (client (self start)) [JInt 1; JInt 2]
      :: lookups
    /\ Forall (is_users_call (client (self start))) lookups.
Proof.
  apply (proj1 (page_sends_one_bulk_lookup python server)
               (ConduitClient.TasksCreated python 0%Z)
               (ConduitClient.TasksYielded (req_params first_page_request)
                                           (dumps page1))
               start (log_request first_page_request start)
               (dumps page1) task1 [task2] [JInt 1; JInt 2]);
    vm_compute; reflexivity.
Defined.

(** X8 on the scenario: the first request of the fetch from the epoch. *)
Lemma fetch_asks_from_the_date_witness :
  page_request (client (self start)) 0 None first_page_request.
Proof.
  apply (fetch_asks_from_the_date python server start 0%Z first_page_request
           (List.tl (net_log (fst (fst (Phabricator.fetch_next python server
                                          start fetch_call)))))).
  vm_compute. reflexivity.
Defined.

End MoreOnTheScenario.
